(** * Serial deployment protocol (Scripts/serial_com): controller and agent

    A shallow embedding of [uploader.py] (the controller: archive builder,
    acknowledgement waits, retry loop) and [receiver.py] (the agent: command
    loop, payload reads, checksum verification, extraction, process
    streaming), followed by the properties established about them.

    Byte strings and text are both [string] (a list of 8-bit characters).
    Library collaborators that the scripts call but do not define (the
    hash, the JSON codec, the tar reader, the subprocess layer, the clock)
    are fields of the [Externals] class. *)

From Stdlib Require Import ZArith Lia Ascii Sorted.
From stdpp Require Import base tactics option list strings pretty gmap.

Local Open Scope Z_scope.

(** ** Python string primitives used by both scripts *)

Module Py.

(** [str.isspace] on the ASCII range: TAB..CR, FS..US and the space. *)
Definition isspace (c : ascii) : bool :=
  let n := Ascii.nat_of_ascii c in
  ((9 <=? n)%nat && (n <=? 13)%nat) || ((28 <=? n)%nat && (n <=? 32)%nat).

Fixpoint lstrip (s : string) : string :=
  match s with
  | String c r => if isspace c then lstrip r else s
  | EmptyString => EmptyString
  end.

Definition rstrip (s : string) : string :=
  String.rev (lstrip (String.rev s)).

(** [s.strip()] *)
Definition strip (s : string) : string := rstrip (lstrip s).

(** [s.startswith(p)] *)
Definition startswith (s p : string) : bool := String.prefix p s.

(** [s.endswith("/")]-style test on the last character. *)
Fixpoint last_char (s : string) : option ascii :=
  match s with
  | EmptyString => None
  | String c EmptyString => Some c
  | String _ r => last_char r
  end.

(** The maximal whitespace-free prefix of [s] and what follows it. *)
Fixpoint span_word (s : string) : string * string :=
  match s with
  | EmptyString => (EmptyString, EmptyString)
  | String c r =>
      if isspace c then (EmptyString, s)
      else let '(w, rest) := span_word r in (String c w, rest)
  end.

(** [s.split(maxsplit=k)]: runs of whitespace separate the fields; after
    [k] splits the remainder (leading whitespace removed) is the last
    field. *)
Fixpoint split (maxsplit : nat) (s : string) : list string :=
  let s' := lstrip s in
  match s' with
  | EmptyString => []
  | _ =>
      match maxsplit with
      | O => [s']
      | S k => let '(w, rest) := span_word s' in w :: split k rest
      end
  end.

(** Digits of an integer literal: decimal digits, single underscores
    allowed between digits only. [seen] tells whether the previous
    character was a digit. *)
Fixpoint int_digits (acc : Z) (seen : bool) (s : string) : option Z :=
  match s with
  | EmptyString => if seen then Some acc else None
  | String c r =>
      match Ascii.is_nat c with
      | Some d => int_digits (acc * 10 + Z.of_nat d) true r
      | None =>
          if Ascii.eqb c "_"%char && seen then
            match r with
            | EmptyString => None
            | _ => int_digits acc false r
            end
          else None
      end
  end.

(** [int(s)]; [None] stands for [ValueError]. *)
Definition int (s : string) : option Z :=
  match strip s with
  | String "-"%char r => Z.opp <$> int_digits 0 false r
  | String "+"%char r => int_digits 0 false r
  | t => int_digits 0 false t
  end.

(** [s.rstrip("\n")] *)
Fixpoint lstrip_nl (s : string) : string :=
  match s with
  | String c r => if Ascii.eqb c "010"%char then lstrip_nl r else s
  | EmptyString => EmptyString
  end.
Definition rstrip_nl (s : string) : string :=
  String.rev (lstrip_nl (String.rev s)).

(** Splitting on a one-character separator, [s.split(sep)]. *)
Fixpoint split_on (sep : ascii) (s : string) : list string :=
  match s with
  | EmptyString => [EmptyString]
  | String c r =>
      if Ascii.eqb c sep then EmptyString :: split_on sep r
      else match split_on sep r with
           | w :: ws => String c w :: ws
           | [] => [String c EmptyString]
           end
  end.

(** The slices [s[:k]] and [s[k:]]. *)
Fixpoint take (k : nat) (s : string) : string :=
  match k, s with
  | S k, String c r => String c (take k r)
  | _, _ => EmptyString
  end.
Fixpoint drop (k : nat) (s : string) : string :=
  match k, s with
  | S k, String _ r => drop k r
  | _, _ => s
  end.

(** [sep.join(parts)] *)
Definition join (sep : string) (parts : list string) : string :=
  String.concat sep parts.

(** Iteration over a text stream: each item is a line with its
    terminating newline, the last one possibly without. *)
Fixpoint iter_lines_go (cur : string) (s : string) : list string :=
  match s with
  | EmptyString =>
      match cur with EmptyString => [] | _ => [String.rev cur] end
  | String c r =>
      if Ascii.eqb c "010"%char
      then String.rev (String c cur) :: iter_lines_go EmptyString r
      else iter_lines_go (String c cur) r
  end.
Definition iter_lines (s : string) : list string :=
  iter_lines_go EmptyString s.

(** No character of [s] is whitespace: [s] is one field of a split. *)
Fixpoint no_space (s : string) : bool :=
  match s with
  | EmptyString => true
  | String c r => negb (isspace c) && no_space r
  end.

End Py.

(** ** Shell-style matching, [fnmatch.fnmatch] on a POSIX host *)

Module Fnmatch.

Inductive tok : Type :=
| TStar
| TAny
| TLit (c : ascii)
| TSet (negated : bool) (ranges : list (ascii * ascii)).

(** Splits at the first "]". *)
Fixpoint find_close (s : string) : option (string * string) :=
  match s with
  | EmptyString => None
  | String c r =>
      if Ascii.eqb c "]"%char then Some (EmptyString, r)
      else '(b, rest) ← find_close r; Some (String c b, rest)
  end.

(** The body of a bracket expression, given the text after "[": an
    optional "!" and an optional leading "]" belong to the body. *)
Definition bracket (s : string) : option (bool * string * string) :=
  let '(neg, s1) :=
    match s with
    | String "!"%char r => (true, r)
    | _ => (false, s)
    end in
  match s1 with
  | String "]"%char r =>
      '(b, rest) ← find_close r; Some (neg, String "]"%char b, rest)
  | _ => '(b, rest) ← find_close s1; Some (neg, b, rest)
  end.

Fixpoint set_ranges (s : string) : list (ascii * ascii) :=
  match s with
  | EmptyString => []
  | String a r =>
      match r with
      | String "-"%char (String b r') => (a, b) :: set_ranges r'
      | _ => (a, a) :: set_ranges r
      end
  end.

(** [translate]: the pattern as a list of tokens. Runs of "*" collapse;
    a "[" without a closing "]" is a literal. The recursion is on a
    bound [n] on the remaining length. *)
Fixpoint tokens (n : nat) (pat : string) : list tok :=
  match n, pat with
  | O, _ | _, EmptyString => []
  | S n, String c r =>
      if Ascii.eqb c "*"%char then
        match tokens n r with
        | TStar :: ts => TStar :: ts
        | ts => TStar :: ts
        end
      else if Ascii.eqb c "?"%char then TAny :: tokens n r
      else if Ascii.eqb c "["%char then
        match bracket r with
        | Some (neg, body, rest) => TSet neg (set_ranges body) :: tokens n rest
        | None => TLit c :: tokens n r
        end
      else TLit c :: tokens n r
  end.

Definition translate (pat : string) : list tok :=
  tokens (String.length pat) pat.

Definition in_range (c : ascii) (r : ascii * ascii) : bool :=
  let n := Ascii.nat_of_ascii c in
  ((Ascii.nat_of_ascii r.1 <=? n) && (n <=? Ascii.nat_of_ascii r.2))%nat.

Definition in_set (neg : bool) (rs : list (ascii * ascii)) (c : ascii) : bool :=
  xorb neg (existsb (in_range c) rs).

(** Whole-string match of the token list. *)
Fixpoint matches (ts : list tok) (s : string) : bool :=
  match ts with
  | [] => match s with EmptyString => true | _ => false end
  | TStar :: ts' =>
      (fix star (s : string) : bool :=
         matches ts' s ||
         match s with
         | EmptyString => false
         | String _ r => star r
         end) s
  | TAny :: ts' =>
      match s with
      | String _ r => matches ts' r
      | EmptyString => false
      end
  | TLit c :: ts' =>
      match s with
      | String d r => Ascii.eqb c d && matches ts' r
      | EmptyString => false
      end
  | TSet neg rs :: ts' =>
      match s with
      | String d r => in_set neg rs d && matches ts' r
      | EmptyString => false
      end
  end.

Definition fnmatchcase (name pat : string) : bool :=
  matches (translate pat) name.

(** [os.path.normcase] is the identity on POSIX. *)
Definition normcase (s : string) : string := s.

Definition fnmatch (name pat : string) : bool :=
  fnmatchcase (normcase name) (normcase pat).

End Fnmatch.

(** ** The deployment configuration

    The dictionary read from [config.json]; a key that is absent is [None].
    Present keys carry values of the types of the data model. *)

Record config : Type := Config {
  cfg_directory : option string;
  cfg_main : option string;
  cfg_args : option (list string);
  cfg_include : option (list string);
  cfg_exclude : option (list string);
  cfg_com_port : option string
}.

(** [cfg.setdefault("include", ["**"]); cfg.setdefault("exclude", [])] *)
Definition setdefaults (c : config) : config :=
  {| cfg_directory := cfg_directory c;
     cfg_main := cfg_main c;
     cfg_args := cfg_args c;
     cfg_include := Some (default ["**"] (cfg_include c));
     cfg_exclude := Some (default [] (cfg_exclude c));
     cfg_com_port := cfg_com_port c |}.

(** ** External collaborators *)

(** What [json.loads(raw.decode())] can produce from a CONFIG payload. *)
Inductive json_result : Type :=
| JsonError (detail : string)   (* the payload does not decode or parse *)
| JsonOther                     (* valid JSON that is not an object *)
| JsonObject (c : config).

(** How the subprocess ends once its output has been read. *)
Inductive proc_end : Type :=
| Exited (returncode : Z)
| DrainError (detail : string). (* iterating [proc.stdout] raised *)

(** What [subprocess.Popen(cmd, ...)] does for a command line: the text
    the process prints (stdout and stderr merged) and how it ends. *)
Inductive spawn : Type :=
| SpawnError (detail : string)
| Spawned (output : string) (fin : proc_end).

Class Externals : Type := {
  sha256_hexdigest : string → string;
  utf8_decode : string → option string;
  json_loads : string → json_result;
  json_dumps : config → string;
  repr_config : config → string;
  tar_members : string → option (list (string * string));
  popen : list string → spawn;
  utcnow_isoformat : nat → string;
  home : string;
  getcwd : string
}.

(** ** The controller, [uploader.py] *)

Module Uploader.

Definition MAX_RETRIES : nat := 5.
(** Seconds. The delays computed from it are powers of two, which the
    floating-point product represents exactly. *)
Definition RETRY_BASE_DELAY : Z := 1.

(** *** Archive builder *)

Section Archive.
(** The matcher, [fnmatch.fnmatch]; it depends on the host. *)
Variable fnmatch : string → string → bool.

Fixpoint should_exclude (rel_posix : string) (exclude_patterns : list string) : bool :=
  match exclude_patterns with
  | [] => false
  | pat :: rest =>
      if fnmatch rel_posix pat then true else should_exclude rel_posix rest
  end.

Fixpoint should_include (rel_posix : string) (include_patterns : list string) : bool :=
  match include_patterns with
  | [] => false
  | pat :: rest =>
      if fnmatch rel_posix pat then true else should_include rel_posix rest
  end.

(** One entry of [os.walk(folder)]: the directory, as its components
    below [folder], the names of its subdirectories and of its files. *)
Definition walk_entry : Type := list string * list string * list string.

(** [(Path(root) / file).relative_to(folder).as_posix()] *)
Definition rel_posix (root : list string) (file : string) : string :=
  Py.join "/" (root ++ [file]).

(** The body of the inner loop: the archive names added for one file.
    The tar writer leaves out the archive file it is writing, so the
    walk lists the other files of the tree. *)
Definition add_file (include_patterns exclude_patterns : list string)
    (root : list string) (file : string) : list string :=
  let rel := rel_posix root file in
  if String.eqb rel "config.json" then [rel]
  else if negb (should_include rel include_patterns) then []
  else if should_exclude rel exclude_patterns then []
  else [rel].

(** [make_archive]: the member names of the archive, in the order in
    which [tf.add] is called. *)
Definition make_archive (walk : list walk_entry) (cfg : config) : list string :=
  let include_patterns := default ["**"] (cfg_include cfg) in
  let exclude_patterns := default [] (cfg_exclude cfg) in
  flat_map (λ '(root, _, files),
              flat_map (add_file include_patterns exclude_patterns root) files)
           walk.

(** The relative paths of the files of the tree. *)
Definition tree_files (walk : list walk_entry) : list string :=
  flat_map (λ '(root, _, files), map (rel_posix root) files) walk.
End Archive.

(** *** Whole-attempt retry loop *)

Inductive retry_event : Type :=
| Logged (msg : string)
| Called (attempt : nat)      (* [send_once] is called, for the n-th time *)
| Slept (seconds : Z).

Section Retry.
(** What the n-th call of [send_once] returns; [None] when that call
    never returns. *)
Variable send_once_result : nat → option (bool * string).

(** [f"{delay:.1f}"] for a delay that is a whole number of seconds. *)
Definition fmt_delay (d : Z) : string := pretty d +:+ ".0".

(** The [while attempt < max_retries] loop; [remaining] is
    [max_retries - attempt]. The result is [None] when a call of
    [send_once] does not return. *)
Fixpoint retry_loop (max_retries remaining attempt : nat)
    : option bool * list retry_event :=
  match remaining with
  | O => (Some false, [Logged "Exceeded maximum retries. Giving up."])
  | S remaining =>
      let attempt := S attempt in
      let pre :=
        [Logged ("Attempt " +:+ pretty attempt +:+ " of " +:+ pretty max_retries);
         Called attempt] in
      match send_once_result attempt with
      | None => (None, pre)
      | Some (true, _) => (Some true, pre ++ [Logged "Upload succeeded."])
      | Some (false, reason) =>
          let delay := RETRY_BASE_DELAY * 2 ^ (Z.of_nat attempt - 1) in
          let '(r, evs) := retry_loop max_retries remaining attempt in
          (r, pre ++
              [Logged ("Upload failed (reason=" +:+ reason +:+ "). Will retry.");
               Logged ("Sleeping " +:+ fmt_delay delay +:+ "s before retry.");
               Slept delay] ++ evs)
      end
  end.

(** The loop of [send_with_retries], from [attempt = 0]. *)
Definition send_with_retries_loop (max_retries : nat) : option bool * list retry_event :=
  retry_loop max_retries max_retries 0.
End Retry.

Definition is_call (e : retry_event) : bool :=
  match e with Called _ => true | _ => false end.

Definition is_sleep (e : retry_event) : bool :=
  match e with Slept _ => true | _ => false end.

(** The calls and the sleeps of a run, without the log lines. *)
Definition schedule (evs : list retry_event) : list retry_event :=
  List.filter (λ e, is_call e || is_sleep e) evs.

(** The seconds slept in a run. *)
Definition total_sleep (evs : list retry_event) : Z :=
  foldr (λ e acc, match e with Slept d => d + acc | _ => acc end) 0 evs.

(** A failed attempt [k] and the pause that follows it. *)
Definition failed_round (k : nat) : list retry_event :=
  [Called k; Slept (RETRY_BASE_DELAY * 2 ^ (Z.of_nat k - 1))].

(** *** One attempt, [send_once] *)

Inductive link_event : Type :=
| SerWrite (bytes : string)
| LogLine (msg : string)
| TimeSleep (ms : Z).

(** The serial link as the controller sees it. [rx] scripts the coming
    calls of [ser.readline()]: how long the call takes (milliseconds)
    and the bytes it returns, empty bytes standing for the read timeout.
    Once the script is used up the agent stays silent and every call
    returns empty-handed after the port timeout of 2 s. [clock] is
    [time.time()] in milliseconds. *)
Record link : Type := Link {
  rx : list (nat * string);
  clock : Z;
  trace : list link_event
}.

Definition emit (e : link_event) (w : link) : link :=
  {| rx := rx w; clock := clock w; trace := trace w ++ [e] |}.

Definition log (msg : string) (w : link) : link := emit (LogLine msg) w.

Definition ser_write (bytes : string) (w : link) : link := emit (SerWrite bytes) w.

Definition sleep (ms : Z) (w : link) : link :=
  {| rx := rx w; clock := clock w + ms; trace := trace w ++ [TimeSleep ms] |}.

Definition readline (w : link) : string * link :=
  match rx w with
  | [] => (EmptyString, {| rx := []; clock := clock w + 2000; trace := trace w |})
  | (dt, line) :: rest =>
      (line, {| rx := rest; clock := clock w + Z.of_nat dt; trace := trace w |})
  end.

Definition NL : string := String "010"%char EmptyString.

Definition nonempty (s : string) : bool :=
  match s with EmptyString => false | _ => true end.

(** [f.read(16384)] until the file is exhausted. *)
Fixpoint chunks_go (fuel : nat) (size : nat) (s : string) : list string :=
  match fuel, s with
  | O, _ | _, EmptyString => []
  | S fuel, _ => Py.take size s :: chunks_go fuel size (Py.drop size s)
  end.
Definition file_chunks (s : string) : list string :=
  chunks_go (String.length s) (Z.to_nat 16384) s.

(** How an acknowledgement wait ends. *)
Inductive ack : Type :=
| Acked
| Failed (reason : string).

Section Attempt.
Context `{Externals}.

(** [line.decode().strip()], the empty string if decoding fails. *)
Definition decode_resp (line : string) : string :=
  match utf8_decode line with
  | Some t => Py.strip t
  | None => EmptyString
  end.

(** The wait for [OK_CONFIG]. [None]: still waiting when the fuel is
    spent (one unit per iteration of the [while True]). *)
Fixpoint wait_ok_config (fuel : nat) (t0 : Z) (w : link) : option (ack * link) :=
  match fuel with
  | O => None
  | S fuel =>
      let '(line, w) := readline w in
      let after_line :=
        if nonempty line then
          let resp := decode_resp line in
          let w := log ("-> Pi: " +:+ resp) w in
          if String.eqb resp "OK_CONFIG" then inl (Acked, w)
          else if Py.startswith resp "ERR" then
            inl (Failed resp, log ("Pi returned error for CONFIG: " +:+ resp) w)
          else inr w
        else inr w in
      match after_line with
      | inl r => Some r
      | inr w =>
          if 10000 <? clock w - t0 then
            Some (Failed "TIMEOUT_OK_CONFIG",
                  log "Timeout waiting for OK_CONFIG from Pi." w)
          else wait_ok_config fuel t0 w
      end
  end.

(** The wait for [OK] after the UPLOAD header. *)
Fixpoint wait_ok (fuel : nat) (t0 : Z) (w : link) : option (ack * link) :=
  match fuel with
  | O => None
  | S fuel =>
      let '(line, w) := readline w in
      let after_line :=
        if nonempty line then
          let resp := decode_resp line in
          let w := log ("-> Pi: " +:+ resp) w in
          if String.eqb resp "OK" then inl (Acked, w)
          else if Py.startswith resp "ERR" then
            inl (Failed resp, log ("Pi returned error for header: " +:+ resp) w)
          else inr w
        else inr w in
      match after_line with
      | inl r => Some r
      | inr w =>
          if 10000 <? clock w - t0 then
            Some (Failed "TIMEOUT_OK", log "Timeout waiting for OK from Pi." w)
          else wait_ok fuel t0 w
      end
  end.

(** The observation window after RUN: relays lines for ten seconds. *)
Fixpoint observe (fuel : nat) (t_start : Z) (w : link) : option link :=
  match fuel with
  | O => None
  | S fuel =>
      if clock w - t_start <? 10000 then
        let '(line, w) := readline w in
        if nonempty line then
          let s := default line (utf8_decode line) in
          observe fuel t_start (log ("-> Pi (run): " +:+ Py.strip s) w)
        else observe fuel t_start (sleep 50 w)
      else Some w
  end.

(** The wait for [DONE] or [ERR_CHECKSUM] after the payload. *)
Fixpoint await_result (fuel : nat) (w : link) : option (bool * string * link) :=
  match fuel with
  | O => None
  | S fuel =>
      let '(line, w) := readline w in
      if negb (nonempty line) then await_result fuel (sleep 50 w)
      else
        let resp := decode_resp line in
        let w := log ("-> Pi: " +:+ resp) w in
        if String.eqb resp "DONE" then
          let w := log "Upload successful - sending RUN command..." w in
          let w := ser_write ("RUN" +:+ NL) w in
          let w := log "RUN command sent." w in
          w ← observe fuel (clock w) w;
          Some (true, "DONE", w)
        else if Py.startswith resp "ERR_CHECKSUM" then Some (false, resp, w)
        else await_result fuel w
  end.

(** [send_once]: [name] and [archive] are the base name and the bytes
    of the archive file. *)
Definition send_once (fuel : nat) (name archive : string) (cfg : config) (w : link)
    : option (bool * string * link) :=
  let size := String.length archive in
  let sha256 := sha256_hexdigest archive in
  let port := default "COM7" (cfg_com_port cfg) in
  let w := log ("Opening serial " +:+ port +:+ " @ 115200") w in
  let cfg_bytes := json_dumps cfg in
  let w := log ("Sending CONFIG (" +:+ pretty (String.length cfg_bytes) +:+ " bytes)") w in
  let w := ser_write ("CONFIG " +:+ pretty (String.length cfg_bytes) +:+ NL) w in
  let w := ser_write cfg_bytes w in
  '(a, w) ← wait_ok_config fuel (clock w) w;
  match a with
  | Failed reason => Some (false, reason, w)
  | Acked =>
      let header :=
        "UPLOAD " +:+ pretty size +:+ " " +:+ sha256 +:+ " " +:+ name +:+ NL in
      let w := log "Sending UPLOAD header." w in
      let w := ser_write header w in
      '(a, w) ← wait_ok fuel (clock w) w;
      match a with
      | Failed reason => Some (false, reason, w)
      | Acked =>
          let w := log "Sending file bytes..." w in
          let w := foldl (λ w chunk, ser_write chunk w) w (file_chunks archive) in
          let w := log ("Finished sending " +:+ pretty size +:+
                        " bytes. Waiting for DONE or ERR_CHECKSUM...") w in
          await_result fuel w
      end
  end.

End Attempt.

(** How a wait that has a budget can end: with the expected token, with
    an error token as the reason, or with the timeout reason once more
    than ten seconds have passed since [t0]. *)
Definition ack_outcome (timeout_reason : string) (t0 : Z) (r : ack * link) : Prop :=
  r.1 = Acked ∨
  (∃ resp, r.1 = Failed resp ∧ Py.startswith resp "ERR" = true) ∨
  (r.1 = Failed timeout_reason ∧ 10000 < clock r.2 - t0).

(** The two header lines of an attempt, as [send_once] formats them. *)
Definition config_header (cfg_bytes : string) : string :=
  "CONFIG " +:+ pretty (String.length cfg_bytes) +:+ NL.
Definition upload_header (size : nat) (sha256 name : string) : string :=
  "UPLOAD " +:+ pretty size +:+ " " +:+ sha256 +:+ " " +:+ name +:+ NL.

(** What a trace puts on the wire. *)
Definition writes (tr : list link_event) : list string :=
  omap (λ e, match e with SerWrite b => Some b | _ => None end) tr.

Section Digest.
Context `{Externals}.

(** [sha256_of_file]: the file is read in blocks of 65536 bytes, each
    fed to the hash; the digest is that of what was fed. *)
Definition sha256_of_file (data : string) : string :=
  sha256_hexdigest
    (foldl (λ fed chunk, fed +:+ chunk) EmptyString
       (chunks_go (String.length data) (Z.to_nat 65536) data)).
End Digest.

Section Link.
Context `{Externals}.

(** The script of a link holds, in this order, lines that read as the
    tokens [tokens]; reads that time out and other lines may come before
    each of them. *)
Fixpoint received (tokens : list string) (script : list (nat * string)) : Prop :=
  match tokens with
  | [] => True
  | token :: tokens =>
      ∃ before dt line after,
        script = before ++ (dt, line) :: after ∧
        nonempty line = true ∧
        decode_resp line = token ∧
        received tokens after
  end.
End Link.

(** The time that goes by while the wait for the result passes over the
    reads [skipped]: the reads themselves, and the pause of 50 ms after
    each one that timed out. *)
Definition skip_time (skipped : list (nat * string)) : Z :=
  foldr (λ e acc, Z.of_nat e.1 + (if nonempty e.2 then 0 else 50) + acc) 0 skipped.

End Uploader.

(** ** Paths, [os.path] on POSIX *)

Module Path.

Definition isabs (p : string) : bool := Py.startswith p "/".

(** [os.path.join(a, b)] *)
Definition join (a b : string) : string :=
  if Py.startswith b "/" then b
  else match Py.last_char a with
       | None => b
       | Some c => if Ascii.eqb c "/"%char then a +:+ b else a +:+ "/" +:+ b
       end.

Fixpoint lstrip_slash (s : string) : string :=
  match s with
  | String c r => if Ascii.eqb c "/"%char then lstrip_slash r else s
  | EmptyString => EmptyString
  end.
Definition rstrip_slash (s : string) : string :=
  String.rev (lstrip_slash (String.rev s)).

(** The text up to and including the last "/" (empty without one). *)
Fixpoint head_upto_slash (s : string) : string :=
  match s with
  | EmptyString => EmptyString
  | String c r =>
      match head_upto_slash r with
      | EmptyString =>
          if Ascii.eqb c "/"%char then String c EmptyString else EmptyString
      | h => String c h
      end
  end.

(** [os.path.dirname(p)] *)
Definition dirname (p : string) : string :=
  let head := head_upto_slash p in
  match lstrip_slash head with
  | EmptyString => head          (* empty, or slashes only *)
  | _ => rstrip_slash head
  end.

(** One component of [normpath]; [acc] is [new_comps], last one first. *)
Definition norm_step (initial_slashes : bool) (acc : list string) (comp : string)
    : list string :=
  if String.eqb comp "" || String.eqb comp "." then acc
  else if negb (String.eqb comp "..")
          || (negb initial_slashes && bool_decide (acc = []))
          || bool_decide (head acc = Some "..")
  then comp :: acc
  else tail acc.

Definition norm_comps (initial_slashes : bool) (p : string) : list string :=
  rev (foldl (norm_step initial_slashes) [] (Py.split_on "/"%char p)).

(** [os.path.normpath(p)]: exactly two leading slashes are kept. *)
Definition normpath (p : string) : string :=
  match p with
  | EmptyString => "."
  | _ =>
      let lead :=
        if Py.startswith p "//" && negb (Py.startswith p "///") then "//"
        else if Py.startswith p "/" then "/" else "" in
      let path := lead +:+ Py.join "/" (norm_comps (Py.startswith p "/") p) in
      match path with EmptyString => "." | _ => path end
  end.

(** [os.path.abspath(p)] in the working directory [cwd]. *)
Definition abspath (cwd p : string) : string :=
  normpath (if isabs p then p else join cwd p).

(** [os.path.expanduser("~" + rest)] with [$HOME = home]. *)
Definition expanduser_tilde (home rest : string) : string :=
  match rstrip_slash home +:+ rest with
  | EmptyString => "/"
  | s => s
  end.

(** The name under which the filesystem knows the path [p] when the
    working directory is [cwd]: the components of the absolute path,
    the root being the empty list. *)
Definition key (cwd p : string) : list string :=
  norm_comps true (if isabs p then p else join cwd p).

End Path.

(** ** A filesystem: regular files and directories

    Entries are named by their components from the root. The root itself
    is always a directory and has no entry. Path names are resolved
    lexically; links, permissions and capacity are not modelled. *)

Inductive node : Type :=
| File (data : string)
| Dir.

(** A Python exception: its class and [str(e)]. *)
Inductive exn : Type := Exn (cls : string) (msg : string).

Definition exn_str (e : exn) : string := let 'Exn _ m := e in m.

Module Fs.

Abbreviation t := (gmap (list string) node).

Definition lookup_node (fs : t) (k : list string) : option node :=
  match k with
  | [] => Some Dir
  | _ => fs !! k
  end.

Definition parent (k : list string) : list string := removelast k.

Definition show (k : list string) : string := "/" +:+ Py.join "/" k.

(** [os.makedirs(_, exist_ok=True)], from the directory [base] down
    through the components [rest]. *)
Fixpoint makedirs_from (base rest : list string) (fs : t) : exn + t :=
  match rest with
  | [] => inr fs
  | c :: rest' =>
      let k := base ++ [c] in
      match fs !! k with
      | Some (File _) =>
          inl (Exn (match rest' with
                    | [] => "FileExistsError"
                    | _ => "NotADirectoryError"
                    end) (show k))
      | Some Dir => makedirs_from k rest' fs
      | None => makedirs_from k rest' (<[k := Dir]> fs)
      end
  end.

Definition makedirs (k : list string) (fs : t) : exn + t := makedirs_from [] k fs.

(** Whether a file can be opened for writing under the name [k]. *)
Definition writable (fs : t) (k : list string) : option exn :=
  match lookup_node fs (parent k), lookup_node fs k with
  | _, Some Dir => Some (Exn "IsADirectoryError" (show k))
  | Some Dir, _ => None
  | Some (File _), _ => Some (Exn "NotADirectoryError" (show k))
  | None, _ => Some (Exn "FileNotFoundError" (show k))
  end.

(** [open(_, "wb")]: creates or truncates. *)
Definition open_w (k : list string) (fs : t) : exn + t :=
  match writable fs k with
  | Some e => inl e
  | None => inr (<[k := File EmptyString]> fs)
  end.

(** Appends [data] to the file [k]; a handle opened by [open_w] or in
    append mode writes through this. *)
Definition append (k : list string) (data : string) (fs : t) : exn + t :=
  match writable fs k with
  | Some e => inl e
  | None =>
      match fs !! k with
      | Some (File old) => inr (<[k := File (old +:+ data)]> fs)
      | _ => inr (<[k := File data]> fs)
      end
  end.

(** [os.remove] *)
Definition remove (k : list string) (fs : t) : exn + t :=
  match lookup_node fs k with
  | Some (File _) => inr (delete k fs)
  | Some Dir => inl (Exn "IsADirectoryError" (show k))
  | None => inl (Exn "FileNotFoundError" (show k))
  end.

Definition outside (k : list string) (entry : list string * node) : Prop :=
  ¬ k `prefix_of` entry.1.

(** [shutil.rmtree]: removes the directory [k] and all below it. The
    root directory cannot be removed: everything below it goes and the
    call fails. *)
Definition rmtree (k : list string) (fs : t) : exn * t + t :=
  match lookup_node fs k with
  | None => inl (Exn "FileNotFoundError" (show k), fs)
  | Some (File _) => inl (Exn "NotADirectoryError" (show k), fs)
  | Some Dir =>
      match k with
      | [] => inl (Exn "OSError" "[Errno 16] Device or resource busy: '/'", ∅)
      | _ => inr (filter (outside k) fs)
      end
  end.

(** [fs'] has no entries beyond those of [fs] and the entries on the way
    from the root to [km]. *)
Definition grows (km : list string) (fs fs' : t) : Prop :=
  ∀ p, is_Some (fs' !! p) → is_Some (fs !! p) ∨ p `prefix_of` km.

End Fs.

(** ** The agent, [receiver.py] *)

Module Receiver.

Definition PROGRESS_INTERVAL : Z := 65536.
Definition NL : string := String "010"%char EmptyString.

(** What the agent does to the outside, in order. *)
Inductive event : Type :=
| Tx (bytes : string)             (* [ser.write] *)
| Print (line : string)           (* the [print] of [log] *)
| Sleep (ms : Z)                  (* [time.sleep] *)
| Popen (cmd : list string)
| FsOpenW (k : list string)
| FsUnlink (k : list string)
| FsRmtree (k : list string)
| FsMakedirs (k : list string)
| FsExtract (k : list string).

(** The state of the agent and of its surroundings. [w_config] is the
    variable [config] of [main]. [w_rxbuf] holds bytes that arrived on
    the port and were not read yet; [w_arrivals] scripts what arrives
    during each coming read that has to wait, and once it is used up
    nothing arrives any more. [w_logs] counts the log lines, which
    selects their timestamps. *)
Record world : Type := World {
  w_config : option config;
  w_fs : Fs.t;
  w_rxbuf : string;
  w_arrivals : list string;
  w_trace : list event;
  w_logs : nat
}.

Definition set_config (c : option config) (w : world) : world :=
  World c (w_fs w) (w_rxbuf w) (w_arrivals w) (w_trace w) (w_logs w).
Definition set_fs (fs : Fs.t) (w : world) : world :=
  World (w_config w) fs (w_rxbuf w) (w_arrivals w) (w_trace w) (w_logs w).
Definition set_rx (buf : string) (arr : list string) (w : world) : world :=
  World (w_config w) (w_fs w) buf arr (w_trace w) (w_logs w).
Definition add_event (e : event) (w : world) : world :=
  World (w_config w) (w_fs w) (w_rxbuf w) (w_arrivals w) (w_trace w ++ [e]) (w_logs w).
Definition tick_log (w : world) : world :=
  World (w_config w) (w_fs w) (w_rxbuf w) (w_arrivals w) (w_trace w) (S (w_logs w)).

(** A computation returns, raises, or is still running when its fuel
    (one unit per iteration of a polling loop) is spent. *)
Inductive result (A : Type) : Type :=
| Ok (a : A) (w : world)
| Raise (e : exn) (w : world)
| Running (w : world).
Arguments Ok {A} a w.
Arguments Raise {A} e w.
Arguments Running {A} w.

Definition M (A : Type) : Type := world → result A.

Definition ret {A} (a : A) : M A := λ w, Ok a w.
Definition bind {A B} (m : M A) (f : A → M B) : M B := λ w,
  match m w with
  | Ok a w' => f a w'
  | Raise e w' => Raise e w'
  | Running w' => Running w'
  end.
Definition raise {A} (e : exn) : M A := λ w, Raise e w.
Definition spin {A} : M A := λ w, Running w.

(** [try: m except Exception as e: h e] *)
Definition try_except {A} (m : M A) (h : exn → M A) : M A := λ w,
  match m w with
  | Raise e w' => h e w'
  | r => r
  end.

Notation "x <- m ;; k" := (bind m (λ x, k))
  (at level 90, m at level 80, right associativity).
Notation "m ;;; k" := (bind m (λ _, k))
  (at level 90, right associativity).

Definition emit (e : event) : M unit := λ w, Ok tt (add_event e w).

(** What a trace puts on the wire. *)
Definition sent (tr : list event) : list string :=
  omap (λ e, match e with Tx b => Some b | _ => None end) tr.

(** The state in which a computation returned, raised, or was cut. *)
Definition result_world {A} (r : result A) : world :=
  match r with
  | Ok _ w | Raise _ w | Running w => w
  end.

(** The computation returned or raised; it was not cut short. *)
Definition ended {A} (r : result A) : Prop :=
  match r with
  | Running _ => False
  | _ => True
  end.

(** The bytes still to be read from the port: those buffered, then
    those that will arrive. *)
Definition stream (w : world) : string :=
  w_rxbuf w +:+ foldr String.append EmptyString (w_arrivals w).

(** What the agent has been given: its config and the bytes on the port. *)
Definition inputs (w : world) : option config * string * list string :=
  (w_config w, w_rxbuf w, w_arrivals w).

(** The computation [m] leaves the component [f] of the state as it
    was, however it ends. *)
Definition keeps {A B} (f : world → B) (m : M A) : Prop :=
  ∀ w, f (result_world (m w)) = f w.

Definition progress_line (g : Z) : string := "PROGRESS " +:+ pretty g +:+ NL.

(** Each count is at least [PROGRESS_INTERVAL] beyond the one before,
    the first one beyond [last]. *)
Fixpoint spaced (last : Z) (counts : list Z) : Prop :=
  match counts with
  | [] => True
  | g :: rest => last + PROGRESS_INTERVAL ≤ g ∧ spaced g rest
  end.

Section Agent.
Context `{Externals}.

Definition DEFAULT_APP_DIR : string := Path.expanduser_tilde home "/app".
Definition ARCHIVE_PATH : string := Path.join DEFAULT_APP_DIR "__upload__.tar.gz".
Definition LOG_PATH : string := Path.join DEFAULT_APP_DIR "upload.log".

(** The entries of the agent's directory, of its log and of the
    staging archive. *)
Definition app_key : list string := Path.key getcwd DEFAULT_APP_DIR.
Definition log_key : list string := app_key ++ ["upload.log"].
Definition archive_key : list string := app_key ++ ["__upload__.tar.gz"].

(** The filesystem entry a path names; the empty path names none. *)
Definition resolve (p : string) : option (list string) :=
  match p with
  | EmptyString => None
  | _ => Some (Path.key getcwd p)
  end.

Definition with_path {A} (p : string) (f : list string → M A) : M A :=
  match resolve p with
  | None => raise (Exn "FileNotFoundError" "[Errno 2] No such file or directory: ''")
  | Some k => f k
  end.

(** Runs a filesystem operation on the current filesystem. *)
Definition fs_do (op : Fs.t → exn + Fs.t) : M unit := λ w,
  match op (w_fs w) with
  | inl e => Raise e w
  | inr fs' => Ok tt (set_fs fs' w)
  end.

(** [os.path.exists] *)
Definition path_exists (p : string) : M bool := λ w,
  Ok (match resolve p with
      | None => false
      | Some k => bool_decide (is_Some (Fs.lookup_node (w_fs w) k))
      end) w.

(** [os.makedirs(p, exist_ok=True)] *)
Definition makedirs (p : string) : M unit :=
  with_path p (λ k, emit (FsMakedirs k) ;;; fs_do (Fs.makedirs k)).

(** The line that [log] writes for [msg]. *)
Definition log_line (msg : string) (w : world) : string :=
  "[" +:+ utcnow_isoformat (w_logs w) +:+ "Z] " +:+ msg.

(** [log]: prints the line and appends it to the log file; a failure
    to append is ignored. *)
Definition logged (msg : string) (w : world) : world :=
  let line := log_line msg w in
  let fs' :=
    match resolve LOG_PATH with
    | Some k =>
        match Fs.append k (line +:+ NL) (w_fs w) with
        | inr fs' => fs'
        | inl _ => w_fs w
        end
    | None => w_fs w
    end in
  tick_log (set_fs fs' (add_event (Print line) w)).

Definition log (msg : string) : M unit := λ w, Ok tt (logged msg w).

(** [ser.write]: the port takes the bytes. A failing write is not
    modelled, so the [try] that the script puts around some writes never
    fires. *)
Definition ser_write (bytes : string) : M unit := emit (Tx bytes).

Definition sleep (ms : Z) : M unit := emit (Sleep ms).

(** The text up to and including the first newline, and the rest. *)
Fixpoint split_line (s : string) : option (string * string) :=
  match s with
  | EmptyString => None
  | String c r =>
      if Ascii.eqb c "010"%char then Some (String c EmptyString, r)
      else '(l, rest) ← split_line r; Some (String c l, rest)
  end.

(** [ser.readline()] on a port with a read timeout: a whole line if
    one is there or arrives in time, otherwise whatever has arrived. *)
Definition ser_readline : M string := λ w,
  match split_line (w_rxbuf w) with
  | Some (l, rest) => Ok l (set_rx rest (w_arrivals w) w)
  | None =>
      let buf := w_rxbuf w +:+ default EmptyString (head (w_arrivals w)) in
      match split_line buf with
      | Some (l, rest) => Ok l (set_rx rest (tail (w_arrivals w)) w)
      | None => Ok buf (set_rx EmptyString (tail (w_arrivals w)) w)
      end
  end.

Definition take_bytes (k : nat) (buf : string) (arr : list string) (w : world)
    : result string :=
  Ok (Py.take k buf) (set_rx (Py.drop k buf) arr w).

(** [ser.read(size)]: returns at once if [size] bytes are buffered,
    otherwise waits for the next arrival (or the timeout) and returns
    at most [size] bytes. *)
Definition ser_read (size : Z) : M string := λ w,
  let k := Z.to_nat size in
  if (k <=? String.length (w_rxbuf w))%nat
  then take_bytes k (w_rxbuf w) (w_arrivals w) w
  else take_bytes k (w_rxbuf w +:+ default EmptyString (head (w_arrivals w)))
                  (tail (w_arrivals w)) w.

Definition read_line : M (option string) :=
  line <- ser_readline ;;
  match line with
  | EmptyString => ret None
  | _ =>
      match utf8_decode line with
      | Some t => ret (Some (Py.strip t))
      | None => ret None
      end
  end.

Definition len (s : string) : Z := Z.of_nat (String.length s).

(** The loop of [recv_n], entered with [buf]. *)
Fixpoint recv_n_loop (fuel : nat) (n : Z) (buf : string) : M string :=
  if len buf <? n then
    match fuel with
    | O => spin
    | S fuel =>
        chunk <- ser_read (n - len buf) ;;
        match chunk with
        | EmptyString => sleep 10 ;;; recv_n_loop fuel n buf
        | _ => recv_n_loop fuel n (buf +:+ chunk)
        end
    end
  else ret buf.

Definition recv_n (fuel : nat) (n : Z) : M string := recv_n_loop fuel n EmptyString.

Definition receive_config (fuel : nat) (size : Z) : M (option config) :=
  raw <- recv_n fuel size ;;
  match json_loads raw with
  | JsonError detail =>
      log ("Failed to parse config.json: " +:+ detail) ;;; ret None
  | JsonOther =>
      raise (Exn "AttributeError" "object has no attribute 'setdefault'")
  | JsonObject cfg => ret (Some (setdefaults cfg))
  end.

(** The loop of [read_exact]. [hashed] is what [h] has been fed. *)
Fixpoint read_exact_loop (fuel : nat) (n : Z) (out : list string)
    (progress_cb : option (Z → M unit)) (got last_progress : Z) (hashed : string)
    : M (Z * string) :=
  if got <? n then
    match fuel with
    | O => spin
    | S fuel =>
        chunk <- ser_read (Z.min 16384 (n - got)) ;;
        match chunk with
        | EmptyString =>
            sleep 10 ;;;
            read_exact_loop fuel n out progress_cb got last_progress hashed
        | _ =>
            fs_do (Fs.append out chunk) ;;;
            let hashed := hashed +:+ chunk in
            let got := got + len chunk in
            match progress_cb with
            | Some cb =>
                if PROGRESS_INTERVAL <=? got - last_progress then
                  cb got ;;;
                  read_exact_loop fuel n out progress_cb got got hashed
                else read_exact_loop fuel n out progress_cb got last_progress hashed
            | None => read_exact_loop fuel n out progress_cb got last_progress hashed
            end
        end
    end
  else ret (got, sha256_hexdigest hashed).

Definition read_exact (fuel : nat) (n : Z) (out_archive_path : string)
    (progress_cb : option (Z → M unit)) : M (Z * string) :=
  with_path out_archive_path (λ out,
    emit (FsOpenW out) ;;;
    fs_do (Fs.open_w out) ;;;
    read_exact_loop fuel n out progress_cb 0 0 EmptyString).

(** [shutil.rmtree(p)] *)
Definition rmtree (p : string) : M unit :=
  with_path p (λ k,
    emit (FsRmtree k) ;;;
    (λ w, match Fs.rmtree k (w_fs w) with
          | inl (e, fs') => Raise e (set_fs fs' w)
          | inr fs' => Ok tt (set_fs fs' w)
          end)).

(** [tarfile.open(p, "r:gz")]: the members of the archive, a name and
    the file contents each. *)
Definition tar_open (p : string) : M (list (string * string)) :=
  with_path p (λ k w,
    match Fs.lookup_node (w_fs w) k with
    | Some (File data) =>
        match tar_members data with
        | Some ms => Ok ms w
        | None => Raise (Exn "ReadError" "not a gzip file") w
        end
    | Some Dir => Raise (Exn "IsADirectoryError" (Fs.show k)) w
    | None => Raise (Exn "FileNotFoundError" (Fs.show k)) w
    end).

(** Unpacks one member below [target_dir], creating the directories
    above it. *)
Definition extract_member (target_dir : string) (m : string * string) : M unit :=
  with_path (Path.join target_dir m.1) (λ k,
    emit (FsExtract k) ;;;
    fs_do (Fs.makedirs (Fs.parent k)) ;;;
    fs_do (Fs.open_w k) ;;;
    fs_do (Fs.append k m.2)).

(** [tf.extractall(target_dir)] *)
Fixpoint extractall (target_dir : string) (ms : list (string * string)) : M unit :=
  match ms with
  | [] => ret tt
  | m :: rest => extract_member target_dir m ;;; extractall target_dir rest
  end.

(** The entry [p] is a member of the archive unpacked below
    [target_dir], or a directory above one. *)
Definition from_member (target_dir : string) (ms : list (string * string))
    (p : list string) : Prop :=
  ∃ m km, m ∈ ms ∧ resolve (Path.join target_dir m.1) = Some km ∧ p `prefix_of` km.

(** The safety check of [extract_archive_to]. *)
Definition dangerous (target_dir : string) : bool :=
  let a := Path.abspath getcwd target_dir in
  String.eqb a "/" || String.eqb a "".

Definition extract_archive_to (archive_path target_dir : string)
    : M (bool * option string) :=
  try_except
    (present <- path_exists target_dir ;;
     if present && dangerous target_dir then
       log ("Refusing to remove dangerous path: " +:+ target_dir) ;;;
       ret (false, Some "DANGEROUS_PATH")
     else
       (if present then rmtree target_dir else ret tt) ;;;
       makedirs target_dir ;;;
       ms <- tar_open archive_path ;;
       extractall target_dir ms ;;;
       ret (true, None))
    (λ e, ret (false, Some (exn_str e))).

(** The loop over [proc.stdout]. *)
Fixpoint stream_lines (lines : list string) : M unit :=
  match lines with
  | [] => ret tt
  | line :: rest =>
      match line with
      | EmptyString => stream_lines rest
      | _ =>
          let s := Py.rstrip_nl line in
          log ("APP: " +:+ s) ;;;
          ser_write (s +:+ NL) ;;;
          stream_lines rest
      end
  end.

(** [main_path] and [cmd] of [run_with_config]. *)
Definition main_path (cfg : config) : string :=
  let deploy_dir := default DEFAULT_APP_DIR (cfg_directory cfg) in
  let main_rel := default "main.py" (cfg_main cfg) in
  Path.join deploy_dir main_rel.

Definition run_cmd (cfg : config) : list string :=
  let args := default [] (cfg_args cfg) in
  ["python3"; "-u"; main_path cfg] ++ args.

(** The part of [run_with_config] that follows the call of [Popen]. *)
Definition supervise (p : spawn) : M unit :=
  match p with
  | SpawnError detail =>
      log ("Failed to start process: " +:+ detail) ;;;
      ser_write ("ERR_RUN " +:+ detail +:+ NL)
  | Spawned output fin =>
      ser_write ("RUNNING" +:+ NL) ;;;
      stream_lines (Py.iter_lines output) ;;;
      match fin with
      | Exited returncode =>
          log ("Process exited with code " +:+ pretty returncode) ;;;
          ser_write ("EXIT " +:+ pretty returncode +:+ NL)
      | DrainError detail =>
          log ("Exception while streaming process output: " +:+ detail) ;;;
          ser_write ("ERR_STREAM " +:+ detail +:+ NL)
      end
  end.

Definition run_with_config (cfg : config) : M unit :=
  let main_path := main_path cfg in
  present <- path_exists main_path ;;
  if negb present then
    let msg := "main not found: " +:+ main_path in
    log msg ;;;
    ser_write ("ERR_RUN " +:+ msg +:+ NL)
  else
    let cmd := run_cmd cfg in
    log ("Starting process: " +:+ Py.join " " cmd) ;;;
    emit (Popen cmd) ;;;
    supervise (popen cmd).

(** [progress_cb] of [main] *)
Definition progress_cb (g : Z) : M unit := ser_write (progress_line g).

(** The CONFIG branch of [main]. *)
Definition handle_config (fuel : nat) (header : string) : M unit :=
  let parts := Py.split 1 header in
  if negb (length parts =? 2)%nat then
    ser_write ("ERR_CONFIG_HEADER" +:+ NL) ;;;
    log ("Bad CONFIG header: " +:+ header)
  else
    let size_s := default EmptyString (parts !! 1%nat) in
    match Py.int size_s with
    | None =>
        raise (Exn "ValueError"
                 ("invalid literal for int() with base 10: '" +:+ size_s +:+ "'"))
    | Some size =>
        cfg <- receive_config fuel size ;;
        match cfg with
        | None =>
            ser_write ("ERR_CONFIG_PARSE" +:+ NL) ;;;
            log "Failed to parse config; ignoring."
        | Some c =>
            (λ w, Ok tt (set_config (Some c) w)) ;;;
            ser_write ("OK_CONFIG" +:+ NL) ;;;
            log ("Config received: " +:+ repr_config c)
        end
    end.

(** The UPLOAD branch up to the [OK] reply. *)
Definition begin_upload (deploy_dir name sha256_expected : string) (size : Z) : M unit :=
  makedirs (match Path.dirname deploy_dir with
            | EmptyString => deploy_dir
            | d => d
            end) ;;;
  log ("UPLOAD requested: name=" +:+ name +:+ " size=" +:+ pretty size +:+
       " sha256=" +:+ sha256_expected +:+ " deploy_to=" +:+ deploy_dir) ;;;
  ser_write ("OK" +:+ NL).

(** The log line that follows the extraction. *)
Definition report_extraction (deploy_dir : string) (r : bool * option string) : M unit :=
  match r with
  | (true, _) => log ("Extraction succeeded into " +:+ deploy_dir +:+ ".")
  | (false, err) => log ("Extraction failed: " +:+ default "None" err)
  end.

(** What follows [read_exact] in the UPLOAD branch. *)
Definition finish_upload (deploy_dir sha256_expected : string) (r : Z * string)
    : M unit :=
  let '(got, sha256_actual) := r in
  log ("Received " +:+ pretty got +:+ " bytes, computed sha256=" +:+ sha256_actual) ;;;
  if negb (String.eqb sha256_actual sha256_expected) then
    ser_write ("ERR_CHECKSUM " +:+ sha256_actual +:+ NL) ;;;
    log "Checksum mismatch. Waiting for possible retry." ;;;
    try_except
      (with_path ARCHIVE_PATH (λ k, emit (FsUnlink k) ;;; fs_do (Fs.remove k)))
      (λ _, ret tt)
  else
    ser_write ("DONE" +:+ NL) ;;;
    r <- extract_archive_to ARCHIVE_PATH deploy_dir ;;
    report_extraction deploy_dir r.

(** The UPLOAD branch of [main], with a config present. *)
Definition handle_upload (fuel : nat) (cfg : config) (header : string) : M unit :=
  let parts := Py.split 3 header in
  match parts with
  | [_; size_s; sha256_expected; name] =>
      match Py.int size_s with
      | None =>
          ser_write ("ERR_HEADER" +:+ NL) ;;;
          log ("Bad size in header: " +:+ size_s)
      | Some size =>
          let deploy_dir := default DEFAULT_APP_DIR (cfg_directory cfg) in
          begin_upload deploy_dir name sha256_expected size ;;;
          r <- read_exact fuel size ARCHIVE_PATH (Some progress_cb) ;;
          finish_upload deploy_dir sha256_expected r
      end
  | _ =>
      ser_write ("ERR_HEADER" +:+ NL) ;;;
      log ("Bad UPLOAD header: " +:+ header)
  end.

(** The body of the [try] once a header has been read. *)
Definition dispatch (fuel : nat) (header : string) : M unit := λ w,
  if Py.startswith header "CONFIG" then handle_config fuel header w
  else if Py.startswith header "UPLOAD" then
    match w_config w with
    | None =>
        (ser_write ("ERR_NO_CONFIG" +:+ NL) ;;;
         log "UPLOAD received but no config present.") w
    | Some cfg => handle_upload fuel cfg header w
    end
  else if String.eqb header "RUN" then
    match w_config w with
    | None =>
        (ser_write ("ERR_NO_CONFIG" +:+ NL) ;;;
         log "RUN received but no config present.") w
    | Some cfg =>
        (log "RUN command received; starting application." ;;;
         run_with_config cfg) w
    end
  else log ("Ignoring unknown command: " +:+ header) w.

(** One iteration of the [while True] of [main]. *)
Definition main_iter (fuel : nat) : M unit :=
  try_except
    (header <- read_line ;;
     match header with
     | None | Some EmptyString => ret tt
     | Some h => dispatch fuel h
     end)
    (λ e, log ("Exception: " +:+ exn_str e) ;;; sleep 1000).

(** The first [iterations] iterations of the loop. *)
Fixpoint main_loop (fuel : nat) (iterations : nat) : M unit :=
  match iterations with
  | O => ret tt
  | S n => main_iter fuel ;;; main_loop fuel n
  end.

(** [serial.Serial(PORT, BAUD, timeout=0.5)]: the port opens, or the
    constructor raises [failure] (the device is absent or busy). *)
Definition serial_open (failure : option exn) : M unit :=
  match failure with
  | Some e => raise e
  | None => ret tt
  end.

(** [main], cut after [iterations] iterations of its loop; [port] tells
    what opening the port does. The port is opened outside the [try] of
    the loop. Closing it when control leaves the [with] block changes
    nothing that the model keeps. *)
Definition main (port : option exn) (fuel : nat) (iterations : nat) : M unit :=
  makedirs DEFAULT_APP_DIR ;;;
  log "Starting receiver on /dev/ttyGS0 @ 115200" ;;;
  (λ w, Ok tt (set_config None w)) ;;;
  serial_open port ;;;
  log "Ready." ;;;
  main_loop fuel iterations.

End Agent.

End Receiver.

(** ** A concrete environment

    Used to run the model on examples. The digest is a stand-in (the
    length of the data, in decimal); an archive has the single member
    [app.py] holding the archive bytes; every command prints two lines
    and exits with code 3. *)

Module Demo.

Definition no_config : config := Config None None None None None None.

Definition deploy_config : config :=
  Config (Some "/deploy") (Some "app.py") (Some ["--x"]) (Some ["**"]) (Some ["*.log"]) None.

Definition env : Externals :=
  {| sha256_hexdigest := λ data, pretty (String.length data);
     utf8_decode := Some;
     json_loads := λ raw,
       if String.eqb raw "{}" then JsonObject no_config
       else JsonError "Expecting value";
     json_dumps := λ _, "{}";
     repr_config := λ _, "{}";
     tar_members := λ data, Some [("app.py", data)];
     popen := λ _, Spawned ("hello" +:+ Receiver.NL +:+ "world" +:+ Receiver.NL) (Exited 3);
     utcnow_isoformat := λ n, pretty n;
     home := "/home/pi";
     getcwd := "/home/pi" |}.

(** The same environment with a codec that also reads the empty list,
    which is valid JSON and not an object, and a subprocess layer whose
    pipe breaks after one line. *)
Definition env_faulty : Externals :=
  {| sha256_hexdigest := λ data, pretty (String.length data);
     utf8_decode := Some;
     json_loads := λ raw,
       if String.eqb raw "[]" then JsonOther
       else if String.eqb raw "{}" then JsonObject no_config
       else JsonError "Expecting value";
     json_dumps := λ _, "{}";
     repr_config := λ _, "{}";
     tar_members := λ data, Some [("app.py", data)];
     popen := λ _, Spawned ("hello" +:+ Receiver.NL) (DrainError "broken pipe");
     utcnow_isoformat := λ n, pretty n;
     home := "/home/pi";
     getcwd := "/home/pi" |}.

(** The agent's directory exists, nothing else; no config yet. *)
Definition fs0 : Fs.t := {[ ["home"] := Dir; ["home"; "pi"] := Dir; ["home"; "pi"; "app"] := Dir ]}.

Definition idle (arrivals : list string) : Receiver.world :=
  Receiver.World None fs0 EmptyString arrivals [] 0.

(** A config is active, and [/deploy/app.py] and a stale file exist. *)
Definition fs1 : Fs.t :=
  <[ ["deploy"] := Dir ]> (<[ ["deploy"; "app.py"] := File "print(1)" ]>
  (<[ ["deploy"; "stale.txt"] := File "old" ]> fs0)).

Definition configured (arrivals : list string) : Receiver.world :=
  Receiver.World (Some deploy_config) fs1 EmptyString arrivals [] 0.

(** The same, with an archive staged. *)
Definition staged : Receiver.world :=
  Receiver.World (Some deploy_config)
    (<[ ["home"; "pi"; "app"; "__upload__.tar.gz"] := File "abcd" ]> fs1)
    EmptyString [] [] 0.

End Demo.

(** * Properties *)

(** ** The archive builder *)

Section ArchiveFacts.
Variable fnmatch : string → string → bool.

Lemma should_include_true rel pats :
  Uploader.should_include fnmatch rel pats = true ↔
  ∃ pat, pat ∈ pats ∧ fnmatch rel pat = true.
Proof.
  induction pats as [|p pats IH]; simpl.
  - split; [discriminate | intros (pat & Hin & _); inversion Hin].
  - destruct (fnmatch rel p) eqn:Hp.
    + split; [intros _; exists p; split; [left | done] | done].
    + rewrite IH. split.
      * intros (pat & Hin & Hm). exists pat. split; [by right | done].
      * intros (pat & Hin & Hm). apply elem_of_cons in Hin as [-> | Hin].
        -- congruence.
        -- by exists pat.
Qed.

Lemma should_exclude_false rel pats :
  Uploader.should_exclude fnmatch rel pats = false ↔
  ∀ pat, pat ∈ pats → fnmatch rel pat = false.
Proof.
  induction pats as [|p pats IH]; simpl.
  - split; [intros _ pat Hin; inversion Hin | done].
  - destruct (fnmatch rel p) eqn:Hp.
    + split; [discriminate |].
      intros Hall. rewrite <- Hp. apply Hall. left.
    + rewrite IH. split.
      * intros Hall pat Hin. apply elem_of_cons in Hin as [-> | Hin]; auto.
      * intros Hall pat Hin. apply Hall. by right.
Qed.

Lemma add_file_member incl excl root file rel :
  rel ∈ Uploader.add_file fnmatch incl excl root file ↔
  rel = Uploader.rel_posix root file ∧
  (rel = "config.json" ∨
   (Uploader.should_include fnmatch rel incl = true ∧
    Uploader.should_exclude fnmatch rel excl = false)).
Proof.
  unfold Uploader.add_file.
  destruct (String.eqb_spec (Uploader.rel_posix root file) "config.json") as [Hc | Hc].
  - rewrite list_elem_of_singleton. split.
    + intros ->. split; [done | by left].
    + by intros [-> _].
  - destruct (Uploader.should_include fnmatch _ incl) eqn:Hi; simpl.
    + destruct (Uploader.should_exclude fnmatch _ excl) eqn:He.
      * split; [intros Hin; inversion Hin |].
        intros [-> [? | [_ ?]]]; congruence.
      * rewrite list_elem_of_singleton. split.
        -- intros ->. split; [done | by right].
        -- by intros [-> _].
    + split; [intros Hin; inversion Hin |].
      intros [-> [? | [? _]]]; congruence.
Qed.

Lemma make_archive_member walk cfg rel :
  rel ∈ Uploader.make_archive fnmatch walk cfg ↔
  rel ∈ Uploader.tree_files walk ∧
  (rel = "config.json" ∨
   (Uploader.should_include fnmatch rel (default ["**"] (cfg_include cfg)) = true ∧
    Uploader.should_exclude fnmatch rel (default [] (cfg_exclude cfg)) = false)).
Proof.
  unfold Uploader.make_archive, Uploader.tree_files.
  rewrite !list_elem_of_In, !in_flat_map. split.
  - intros ([[root dirs] files] & Hw & Hrel).
    apply in_flat_map in Hrel as (file & Hf & Hrel).
    apply list_elem_of_In, add_file_member in Hrel as [-> Hfilter].
    split; [| done].
    exists (root, dirs, files). split; [done |]. by apply in_map.
  - intros [([[root dirs] files] & Hw & Hrel) Hfilter].
    apply in_map_iff in Hrel as (file & <- & Hf).
    exists (root, dirs, files). split; [done |].
    apply in_flat_map. exists file. split; [done |].
    apply list_elem_of_In, add_file_member. done.
Qed.
End ArchiveFacts.

(** C3. Whatever the matcher and the tree, the archive holds exactly
    [config.json] (when the tree has it) and the other files of the tree
    whose relative path matches some include pattern and no exclude
    pattern. For include ["**"], exclude ["*.log"] and the tree [app.py],
    [data.log], [config.json], it holds [app.py] and [config.json] and
    not [data.log]. *)
Theorem make_archive_filter :
  (∀ (fnmatch : string → string → bool) walk cfg rel,
     rel ∈ Uploader.make_archive fnmatch walk cfg ↔
     rel ∈ Uploader.tree_files walk ∧
     (rel = "config.json" ∨
      ((∃ pat, pat ∈ default ["**"] (cfg_include cfg) ∧ fnmatch rel pat = true) ∧
       (∀ pat, pat ∈ default [] (cfg_exclude cfg) → fnmatch rel pat = false)))) ∧
  Uploader.make_archive Fnmatch.fnmatch
    [([], [], ["app.py"; "data.log"; "config.json"])] Demo.deploy_config
  = ["app.py"; "config.json"].
Proof.
  split; [| reflexivity].
  intros fnmatch walk cfg rel.
  rewrite make_archive_member, should_include_true, should_exclude_false.
  done.
Qed.

(** ** The retry loop *)

Section RetryFacts.
Variable answer : nat → option (bool * string).
Variable max_retries : nat.

Lemma retry_loop_calls remaining attempt :
  (length (List.filter Uploader.is_call
             (Uploader.retry_loop answer max_retries remaining attempt).2)
   ≤ remaining)%nat.
Proof.
  revert attempt. induction remaining as [|rem IH]; intros attempt; simpl.
  - lia.
  - destruct (answer (S attempt)) as [[[] reason]|]; simpl; [lia | | lia].
    specialize (IH (S attempt)).
    destruct (Uploader.retry_loop answer max_retries rem (S attempt)) as [r evs].
    simpl in *. lia.
Qed.

(** A first success [k] attempts after [attempt] ends the loop there. *)
Lemma retry_loop_first_success k remaining attempt :
  (k < remaining)%nat →
  (∀ j, (attempt < j ≤ attempt + k)%nat → ∃ reason, answer j = Some (false, reason)) →
  (∃ reason, answer (S (attempt + k)) = Some (true, reason)) →
  let '(r, evs) := Uploader.retry_loop answer max_retries remaining attempt in
  r = Some true ∧
  Uploader.schedule evs =
    flat_map Uploader.failed_round (seq (S attempt) k) ++ [Uploader.Called (S (attempt + k))].
Proof.
  revert remaining attempt.
  induction k as [|k IH]; intros remaining attempt Hlt Hfail [reason Hok].
  - destruct remaining as [|rem]; [lia |]. simpl.
    rewrite Nat.add_0_r in Hok |- *.
    rewrite Hok. done.
  - destruct remaining as [|rem]; [lia |]. simpl.
    destruct (Hfail (S attempt)) as [reason' Hf]; [lia |].
    rewrite Hf.
    specialize (IH rem (S attempt)).
    destruct (Uploader.retry_loop answer max_retries rem (S attempt)) as [r evs].
    destruct IH as [-> Hs].
    + lia.
    + intros j Hj. apply Hfail. lia.
    + exists reason. by replace (S (S attempt + k)) with (S (attempt + S k)) by lia.
    + split; [done |].
      unfold Uploader.schedule in *. simpl. rewrite Hs.
      by replace (S (S attempt + k)) with (S (attempt + S k)) by lia.
Qed.

(** When every attempt fails the loop runs [remaining] rounds. *)
Lemma retry_loop_all_fail remaining attempt :
  (∀ j, (attempt < j ≤ attempt + remaining)%nat → ∃ reason, answer j = Some (false, reason)) →
  let '(r, evs) := Uploader.retry_loop answer max_retries remaining attempt in
  r = Some false ∧
  Uploader.schedule evs = flat_map Uploader.failed_round (seq (S attempt) remaining).
Proof.
  revert attempt.
  induction remaining as [|rem IH]; intros attempt Hfail; simpl; [done |].
  destruct (Hfail (S attempt)) as [reason Hf]; [lia |].
  rewrite Hf.
  specialize (IH (S attempt)).
  destruct (Uploader.retry_loop answer max_retries rem (S attempt)) as [r evs].
  destruct IH as [-> Hs].
  - intros j Hj. apply Hfail. lia.
  - split; [done |]. unfold Uploader.schedule in *. simpl. by rewrite Hs.
Qed.
End RetryFacts.

(** C7. The retry loop calls [send_once] at most [max_retries] times
    (5 by default). It stops at the first attempt that succeeds, and the
    pause after the failed attempt [k], before attempt [k + 1], is
    [RETRY_BASE_DELAY * 2 ^ (k - 1)] seconds: the calls and sleeps of a
    run are the failed rounds 1 .. k-1 followed by the successful call k,
    or [max_retries] failed rounds when no attempt succeeds. *)
Theorem retry_backoff_schedule (answer : nat → option (bool * string)) (max_retries : nat) :
  Uploader.MAX_RETRIES = 5%nat ∧
  (length (List.filter Uploader.is_call
             (Uploader.send_with_retries_loop answer max_retries).2) ≤ max_retries)%nat ∧
  (∀ k, (1 ≤ k ≤ max_retries)%nat →
     (∀ j, (1 ≤ j < k)%nat → ∃ reason, answer j = Some (false, reason)) →
     (∃ reason, answer k = Some (true, reason)) →
     (Uploader.send_with_retries_loop answer max_retries).1 = Some true ∧
     Uploader.schedule (Uploader.send_with_retries_loop answer max_retries).2 =
       flat_map Uploader.failed_round (seq 1 (k - 1)) ++ [Uploader.Called k]) ∧
  ((∀ j, (1 ≤ j ≤ max_retries)%nat → ∃ reason, answer j = Some (false, reason)) →
     (Uploader.send_with_retries_loop answer max_retries).1 = Some false ∧
     Uploader.schedule (Uploader.send_with_retries_loop answer max_retries).2 =
       flat_map Uploader.failed_round (seq 1 max_retries)).
Proof.
  unfold Uploader.send_with_retries_loop.
  split; [reflexivity |]. split; [apply retry_loop_calls |]. split.
  - intros k Hk Hfail Hok.
    pose proof (retry_loop_first_success answer max_retries (k - 1) max_retries 0) as Hs.
    destruct (Uploader.retry_loop answer max_retries max_retries 0) as [r evs].
    replace (S (0 + (k - 1))) with k in Hs by lia.
    apply Hs; [lia | | done].
    intros j Hj. apply Hfail. lia.
  - intros Hfail.
    pose proof (retry_loop_all_fail answer max_retries max_retries 0) as Hs.
    destruct (Uploader.retry_loop answer max_retries max_retries 0) as [r evs].
    apply Hs. intros j Hj. apply Hfail. lia.
Qed.

(** Two timeouts, then success: three calls, pauses of 1 s and 2 s. *)
Lemma retry_backoff_schedule_witness :
  let answer := λ n : nat,
    if (n <? 3)%nat then Some (false, "TIMEOUT_OK") else Some (true, "DONE") in
  (Uploader.send_with_retries_loop answer 5).1 = Some true ∧
  Uploader.schedule (Uploader.send_with_retries_loop answer 5).2 =
    [Uploader.Called 1; Uploader.Slept 1; Uploader.Called 2; Uploader.Slept 2;
     Uploader.Called 3].
Proof.
  intros answer.
  destruct (retry_backoff_schedule answer 5) as (_ & _ & Hfirst & _).
  apply (Hfirst 3%nat).
  - lia.
  - intros j Hj. exists "TIMEOUT_OK". unfold answer.
    destruct j as [|[|[|j]]]; [lia | reflexivity | reflexivity | lia].
  - exists "DONE". reflexivity.
Defined.

(** ** The acknowledgement waits of the controller *)

Section WaitFacts.
Context `{Externals}.

Lemma wait_ok_config_silent t0 n clock trace :
  n ≠ 0%nat →
  10000 < clock - t0 + 2000 * Z.of_nat n →
  ∃ r, Uploader.wait_ok_config n t0 (Uploader.Link [] clock trace) = Some r ∧
       Uploader.ack_outcome "TIMEOUT_OK_CONFIG" t0 r.
Proof.
  revert clock. induction n as [|n IH]; intros clock Hn Hlate; [done |].
  cbn [Uploader.wait_ok_config Uploader.readline Uploader.rx Uploader.nonempty
         Uploader.clock Uploader.trace].
  destruct (Z.ltb_spec 10000 (clock + 2000 - t0)).
  - eexists. split; [done |]. right. right. simpl. split; [done | lia].
  - apply IH; lia.
Qed.

(** The wait for [OK_CONFIG] ends within one iteration per scripted
    read and six more, whatever the agent sends. *)
Lemma wait_ok_config_ends t0 (w : Uploader.link) :
  t0 ≤ Uploader.clock w →
  ∃ r, Uploader.wait_ok_config (length (Uploader.rx w) + 6) t0 w = Some r ∧
       Uploader.ack_outcome "TIMEOUT_OK_CONFIG" t0 r.
Proof.
  destruct w as [script clock trace]. simpl. revert clock trace.
  induction script as [|[dt line] script IH]; intros clock trace Hclock.
  - apply wait_ok_config_silent; [done | lia].
  - cbn [length Nat.add Uploader.wait_ok_config Uploader.readline Uploader.rx
           Uploader.clock Uploader.trace].
    destruct (Uploader.nonempty line).
    + cbn [Uploader.log Uploader.emit Uploader.rx Uploader.clock Uploader.trace].
      destruct (String.eqb _ "OK_CONFIG").
      { eexists. split; [done |]. by left. }
      destruct (Py.startswith _ "ERR") eqn:Herr.
      { eexists. split; [done |]. right. left. by eexists. }
      cbn [Uploader.log Uploader.emit Uploader.rx Uploader.clock Uploader.trace].
      destruct (Z.ltb_spec 10000 (clock + Z.of_nat dt - t0)).
      { eexists. split; [done |]. right. right. simpl. split; [done | lia]. }
      apply IH. simpl. lia.
    + cbn [Uploader.rx Uploader.clock Uploader.trace].
      destruct (Z.ltb_spec 10000 (clock + Z.of_nat dt - t0)).
      { eexists. split; [done |]. right. right. simpl. split; [done | lia]. }
      apply IH. simpl. lia.
Qed.

Lemma wait_ok_silent t0 n clock trace :
  n ≠ 0%nat →
  10000 < clock - t0 + 2000 * Z.of_nat n →
  ∃ r, Uploader.wait_ok n t0 (Uploader.Link [] clock trace) = Some r ∧
       Uploader.ack_outcome "TIMEOUT_OK" t0 r.
Proof.
  revert clock. induction n as [|n IH]; intros clock Hn Hlate; [done |].
  cbn [Uploader.wait_ok Uploader.readline Uploader.rx Uploader.nonempty
         Uploader.clock Uploader.trace].
  destruct (Z.ltb_spec 10000 (clock + 2000 - t0)).
  - eexists. split; [done |]. right. right. simpl. split; [done | lia].
  - apply IH; lia.
Qed.

(** So does the wait for [OK]. *)
Lemma wait_ok_ends t0 (w : Uploader.link) :
  t0 ≤ Uploader.clock w →
  ∃ r, Uploader.wait_ok (length (Uploader.rx w) + 6) t0 w = Some r ∧
       Uploader.ack_outcome "TIMEOUT_OK" t0 r.
Proof.
  destruct w as [script clock trace]. simpl. revert clock trace.
  induction script as [|[dt line] script IH]; intros clock trace Hclock.
  - apply wait_ok_silent; [done | lia].
  - cbn [length Nat.add Uploader.wait_ok Uploader.readline Uploader.rx
           Uploader.clock Uploader.trace].
    destruct (Uploader.nonempty line).
    + cbn [Uploader.log Uploader.emit Uploader.rx Uploader.clock Uploader.trace].
      destruct (String.eqb _ "OK").
      { eexists. split; [done |]. by left. }
      destruct (Py.startswith _ "ERR") eqn:Herr.
      { eexists. split; [done |]. right. left. by eexists. }
      cbn [Uploader.log Uploader.emit Uploader.rx Uploader.clock Uploader.trace].
      destruct (Z.ltb_spec 10000 (clock + Z.of_nat dt - t0)).
      { eexists. split; [done |]. right. right. simpl. split; [done | lia]. }
      apply IH. simpl. lia.
    + cbn [Uploader.rx Uploader.clock Uploader.trace].
      destruct (Z.ltb_spec 10000 (clock + Z.of_nat dt - t0)).
      { eexists. split; [done |]. right. right. simpl. split; [done | lia]. }
      apply IH. simpl. lia.
Qed.

(** On a silent link the wait for the result only sleeps. *)
Lemma await_result_silent fuel clock trace :
  Uploader.await_result fuel (Uploader.Link [] clock trace) = None.
Proof.
  revert clock trace. induction fuel as [|fuel IH]; intros clock trace; [done |].
  cbn [Uploader.await_result Uploader.readline Uploader.rx Uploader.nonempty negb
         Uploader.sleep Uploader.clock Uploader.trace].
  apply IH.
Qed.

Lemma foldl_ser_write_rx (chunks : list string) (w : Uploader.link) :
  Uploader.rx (foldl (λ w chunk, Uploader.ser_write chunk w) w chunks) = Uploader.rx w.
Proof.
  revert w. induction chunks as [|c chunks IH]; intros w; simpl; [done |].
  by rewrite IH.
Qed.

(** C5. The first two waits of an attempt end with the expected token,
    an error token or a timeout. The third one does not: when the agent
    stays silent after the payload, the wait for [DONE] or
    [ERR_CHECKSUM] is still polling after any number of iterations, so
    it never fails the attempt with a timeout; and an attempt in which
    both acknowledgements arrive and the agent then stays silent never
    returns. *)
Theorem await_result_never_times_out :
  (∀ fuel clock trace,
     Uploader.await_result fuel (Uploader.Link [] clock trace) = None) ∧
  (∀ fuel name archive cfg,
     utf8_decode ("OK_CONFIG" +:+ Uploader.NL) = Some ("OK_CONFIG" +:+ Uploader.NL) →
     utf8_decode ("OK" +:+ Uploader.NL) = Some ("OK" +:+ Uploader.NL) →
     Uploader.send_once fuel name archive cfg
       (Uploader.Link [(1%nat, "OK_CONFIG" +:+ Uploader.NL);
                       (1%nat, "OK" +:+ Uploader.NL)] 0 [])
     = None).
Proof.
  split; [apply await_result_silent |].
  intros fuel name archive cfg Hd1 Hd2. unfold Uploader.send_once.
  destruct fuel as [|fuel]; [done |].
  cbn [Uploader.wait_ok_config Uploader.readline Uploader.log Uploader.ser_write
         Uploader.emit Uploader.rx Uploader.clock Uploader.trace].
  change (Uploader.nonempty ("OK_CONFIG" +:+ Uploader.NL)) with true.
  unfold Uploader.decode_resp at 1. rewrite Hd1.
  change (Py.strip ("OK_CONFIG" +:+ Uploader.NL)) with "OK_CONFIG".
  change (String.eqb "OK_CONFIG" "OK_CONFIG") with true.
  cbn [mbind option_bind].
  cbn [Uploader.wait_ok Uploader.readline Uploader.log Uploader.ser_write
         Uploader.emit Uploader.rx Uploader.clock Uploader.trace].
  change (Uploader.nonempty ("OK" +:+ Uploader.NL)) with true.
  unfold Uploader.decode_resp at 1. rewrite Hd2.
  change (Py.strip ("OK" +:+ Uploader.NL)) with "OK".
  change (String.eqb "OK" "OK") with true.
  cbn [mbind option_bind].
  match goal with
  | |- Uploader.await_result _ ?w = None =>
      assert (Uploader.rx w = []) as Hrx;
      [ cbn [Uploader.log Uploader.emit Uploader.rx];
        by rewrite foldl_ser_write_rx
      | destruct w as [rx0 c0 t0] ]
  end.
  simpl in Hrx. subst rx0. apply await_result_silent.
Qed.
End WaitFacts.

(** A link on which the two acknowledgements arrive and nothing after. *)
Lemma await_result_never_times_out_witness :
  Uploader.send_once (H := Demo.env) 1000 "__upload__.tar.gz" "abcd" Demo.deploy_config
    (Uploader.Link [(1%nat, "OK_CONFIG" +:+ Uploader.NL);
                    (1%nat, "OK" +:+ Uploader.NL)] 0 [])
  = None.
Proof.
  apply (proj2 (await_result_never_times_out (H := Demo.env))); reflexivity.
Defined.

(** ** Strings and paths *)

Section StringFacts.

Lemma str_app_nil_l (t : string) : EmptyString +:+ t = t.
Proof. reflexivity. Qed.

Lemma str_app_cons (c : ascii) (s t : string) : String c s +:+ t = String c (s +:+ t).
Proof. reflexivity. Qed.

Lemma str_app_nil_r (s : string) : s +:+ EmptyString = s.
Proof. induction s as [|c s IH]; [done |]. by rewrite str_app_cons, IH. Qed.

Lemma str_app_assoc (s t u : string) : (s +:+ t) +:+ u = s +:+ (t +:+ u).
Proof.
  induction s as [|c s IH]; [done |]. by rewrite !str_app_cons, IH.
Qed.

Lemma str_length_app (s t : string) :
  String.length (s +:+ t) = (String.length s + String.length t)%nat.
Proof.
  induction s as [|c s IH]; [done |]. rewrite str_app_cons. simpl. by rewrite IH.
Qed.

Lemma str_app_empty (s t : string) : s +:+ t = EmptyString → t = EmptyString.
Proof. destruct s; [done |]. rewrite str_app_cons. discriminate. Qed.

Lemma take_drop (k : nat) (s : string) : Py.take k s +:+ Py.drop k s = s.
Proof.
  revert s. induction k as [|k IH]; intros [|c s]; try done.
  simpl. by rewrite str_app_cons, IH.
Qed.

Lemma take_length (k : nat) (s : string) : (String.length (Py.take k s) ≤ k)%nat.
Proof.
  revert s. induction k as [|k IH]; intros [|c s]; simpl; try lia.
  specialize (IH s). lia.
Qed.

Lemma last_char_app (s : string) (c : ascii) (t : string) :
  Py.last_char (s +:+ String c t) = Py.last_char (String c t).
Proof.
  induction s as [|d s IH]; [done |].
  rewrite str_app_cons.
  change (Py.last_char (String d (s +:+ String c t)))
    with (match s +:+ String c t with
          | EmptyString => Some d
          | _ => Py.last_char (s +:+ String c t)
          end).
  destruct (s +:+ String c t) eqn:E; [| done].
  by apply str_app_empty in E.
Qed.

Lemma split_on_nonempty sep s : Py.split_on sep s ≠ [].
Proof.
  destruct s as [|c s]; simpl; [done |].
  destruct (Ascii.eqb c sep); [done |]. by destruct (Py.split_on sep s).
Qed.

Lemma split_on_app sep a b :
  Py.split_on sep (a +:+ String sep b) = Py.split_on sep a ++ Py.split_on sep b.
Proof.
  induction a as [|c a IH].
  - rewrite str_app_nil_l. simpl. by rewrite Ascii.eqb_refl.
  - rewrite str_app_cons. simpl. destruct (Ascii.eqb c sep).
    + by rewrite IH.
    + rewrite IH. pose proof (split_on_nonempty sep a).
      by destruct (Py.split_on sep a).
Qed.

Lemma startswith_app_slash (d r : string) :
  d ≠ EmptyString → Py.startswith (d +:+ r) "/" = Py.startswith d "/".
Proof.
  destruct d as [|c d]; [done |]. intros _. rewrite str_app_cons.
  unfold Py.startswith.
  change (String.prefix "/" (String c (d +:+ r)))
    with (if ascii_dec "/"%char c then String.prefix "" (d +:+ r) else false).
  change (String.prefix "/" (String c d))
    with (if ascii_dec "/"%char c then String.prefix "" d else false).
  destruct (ascii_dec "/"%char c); [| reflexivity].
  by destruct (d +:+ r), d.
Qed.

(** A plain file name appended to a path adds one component. *)
Lemma norm_comps_file (p name : string) :
  Py.split_on "/"%char name = [name] →
  String.eqb name "" = false →
  String.eqb name "." = false →
  String.eqb name ".." = false →
  Path.norm_comps true (p +:+ "/" +:+ name) = Path.norm_comps true p ++ [name].
Proof.
  intros Hsplit H1 H2 H3. unfold Path.norm_comps.
  change ("/" +:+ name) with (String "/"%char name).
  rewrite split_on_app, Hsplit, foldl_app. simpl.
  unfold Path.norm_step at 1. rewrite H1, H2, H3. simpl. done.
Qed.

Lemma key_file (cwd d name : string) :
  d ≠ EmptyString →
  (∃ c, Py.last_char d = Some c ∧ Ascii.eqb c "/"%char = false) →
  Py.startswith name "/" = false →
  Py.split_on "/"%char name = [name] →
  String.eqb name "" = false →
  String.eqb name "." = false →
  String.eqb name ".." = false →
  Path.key cwd (Path.join d name) = Path.key cwd d ++ [name].
Proof.
  intros Hd (c & Hlast & Hc) Hrel Hsplit H1 H2 H3.
  unfold Path.join. rewrite Hrel, Hlast, Hc.
  unfold Path.key, Path.isabs.
  rewrite (startswith_app_slash d _ Hd).
  destruct (Py.startswith d "/") eqn:Habs.
  - by apply norm_comps_file.
  - unfold Path.join. rewrite (startswith_app_slash d _ Hd), Habs.
    destruct (Py.last_char cwd) as [e|].
    + destruct (Ascii.eqb e "/"%char).
      * replace (cwd +:+ d +:+ "/" +:+ name) with ((cwd +:+ d) +:+ "/" +:+ name)
          by (by rewrite !str_app_assoc).
        by apply norm_comps_file.
      * replace (cwd +:+ "/" +:+ d +:+ "/" +:+ name)
          with ((cwd +:+ "/" +:+ d) +:+ "/" +:+ name)
          by (by rewrite !str_app_assoc).
        by apply norm_comps_file.
    + by apply norm_comps_file.
Qed.

End StringFacts.

(** ** The agent: states, logging, reads *)

Section AgentFacts.
Context `{Externals}.

Import Receiver.

Lemma default_app_dir_eq :
  DEFAULT_APP_DIR = Path.rstrip_slash home +:+ "/app".
Proof.
  unfold DEFAULT_APP_DIR, Path.expanduser_tilde.
  destruct (Path.rstrip_slash home +:+ "/app") eqn:E; [| done].
  by apply str_app_empty in E.
Qed.

Lemma default_app_dir_shape :
  DEFAULT_APP_DIR ≠ EmptyString ∧
  ∃ c, Py.last_char DEFAULT_APP_DIR = Some c ∧ Ascii.eqb c "/"%char = false.
Proof.
  rewrite default_app_dir_eq. split.
  - intros E. by apply str_app_empty in E.
  - exists "p"%char. split; [| done].
    change "/app" with (String "/"%char "app"). by rewrite last_char_app.
Qed.

Lemma resolve_LOG_PATH : resolve LOG_PATH = Some log_key.
Proof.
  destruct default_app_dir_shape as [Hne Hlast].
  assert (Path.key getcwd LOG_PATH = log_key) as Hkey
    by (by apply key_file).
  unfold resolve. rewrite Hkey.
  destruct LOG_PATH eqn:E; [| done].
  unfold LOG_PATH, Path.join in E. destruct Hlast as (c & Hl & Hc).
  rewrite Hl, Hc in E. change (Py.startswith "upload.log" "/") with false in E.
  cbn beta iota in E. by do 2 apply str_app_empty in E.
Qed.

Lemma resolve_ARCHIVE_PATH : resolve ARCHIVE_PATH = Some archive_key.
Proof.
  destruct default_app_dir_shape as [Hne Hlast].
  assert (Path.key getcwd ARCHIVE_PATH = archive_key) as Hkey
    by (by apply key_file).
  unfold resolve. rewrite Hkey.
  destruct ARCHIVE_PATH eqn:E; [| done].
  unfold ARCHIVE_PATH, Path.join in E. destruct Hlast as (c & Hl & Hc).
  rewrite Hl, Hc in E. change (Py.startswith "__upload__.tar.gz" "/") with false in E.
  cbn beta iota in E. by do 2 apply str_app_empty in E.
Qed.

Lemma log_key_not_archive_key : log_key ≠ archive_key.
Proof.
  unfold log_key, archive_key. intros E. by apply app_inj_tail in E as [_ ?].
Qed.

(** *** Filesystem writes touch one entry *)

Lemma append_other (k : list string) (data : string) (fs fs' : Fs.t) (k' : list string) :
  Fs.append k data fs = inr fs' → k' ≠ k → fs' !! k' = fs !! k'.
Proof.
  unfold Fs.append. intros Happ Hne.
  destruct (Fs.writable fs k); [done |].
  destruct (fs !! k) as [[old|]|]; simplify_eq; by rewrite lookup_insert_ne.
Qed.

Lemma append_file (k : list string) (data : string) (fs fs' : Fs.t) (old : string) :
  Fs.append k data fs = inr fs' → fs !! k = Some (File old) →
  fs' !! k = Some (File (old +:+ data)).
Proof.
  unfold Fs.append. intros Happ Hold.
  destruct (Fs.writable fs k); [done |].
  rewrite Hold in Happ. simplify_eq. by rewrite lookup_insert_eq.
Qed.

(** *** Logging *)

Lemma logged_trace msg w :
  w_trace (logged msg w) = w_trace w ++ [Print (log_line msg w)].
Proof. reflexivity. Qed.

Lemma logged_config msg w : w_config (logged msg w) = w_config w.
Proof. reflexivity. Qed.

Lemma logged_rx msg w :
  w_rxbuf (logged msg w) = w_rxbuf w ∧ w_arrivals (logged msg w) = w_arrivals w.
Proof. done. Qed.

(** A log line changes the log file and nothing else. *)
Lemma logged_fs_other msg w k :
  k ≠ log_key → w_fs (logged msg w) !! k = w_fs w !! k.
Proof.
  intros Hne. unfold logged. rewrite resolve_LOG_PATH. simpl.
  destruct (Fs.append log_key _ (w_fs w)) as [e|fs'] eqn:Happ; [done |].
  by eapply append_other.
Qed.

(** The log file only grows. *)
Lemma logged_fs_log msg w old :
  w_fs w !! log_key = Some (File old) →
  ∃ new, w_fs (logged msg w) !! log_key = Some (File (old +:+ new)).
Proof.
  intros Hold. unfold logged. rewrite resolve_LOG_PATH. simpl.
  destruct (Fs.append log_key _ (w_fs w)) as [e|fs'] eqn:Happ.
  - exists EmptyString. by rewrite str_app_nil_r.
  - eexists. by eapply append_file.
Qed.

Lemma logged_fs_some msg w k :
  is_Some (Fs.lookup_node (w_fs w) k) →
  is_Some (Fs.lookup_node (w_fs (logged msg w)) k).
Proof.
  destruct k as [|c k]; [done |]. cbn [Fs.lookup_node].
  destruct (decide (c :: k = log_key)) as [-> | Hne].
  - unfold logged. rewrite resolve_LOG_PATH. simpl.
    destruct (Fs.append log_key _ (w_fs w)) as [e|fs'] eqn:Happ; [done |].
    intros _. unfold Fs.append in Happ.
    destruct (Fs.writable (w_fs w) log_key); [done |].
    destruct (w_fs w !! log_key) as [[old|]|]; simplify_eq;
      rewrite lookup_insert_eq; by eexists.
  - by rewrite logged_fs_other.
Qed.

(** *** Reads from the port *)

Lemma ser_readline_frame w :
  ∃ line buf arr, ser_readline w = Ok line (set_rx buf arr w).
Proof.
  unfold ser_readline.
  destruct (split_line (w_rxbuf w)) as [[l rest]|]; [by eexists _, _, _ |].
  destruct (split_line _) as [[l rest]|]; by eexists _, _, _.
Qed.

Lemma read_line_frame w header w1 :
  read_line w = Ok header w1 → ∃ buf arr, w1 = set_rx buf arr w.
Proof.
  unfold read_line, bind.
  destruct (ser_readline_frame w) as (line & buf & arr & ->).
  destruct line as [|c line]; unfold ret.
  - intros [= _ <-]. by eexists _, _.
  - destruct (utf8_decode _); intros [= _ <-]; by eexists _, _.
Qed.

Lemma startswith_nonempty p s c :
  Py.startswith s (String c p) = true → s ≠ EmptyString.
Proof. by destruct s. Qed.

(** The iteration of [main] on a header that has been read. *)
Lemma main_iter_dispatch fuel w header w1 :
  read_line w = Ok (Some header) w1 →
  header ≠ EmptyString →
  main_iter fuel w =
    try_except (dispatch fuel header)
      (λ e, log ("Exception: " +:+ exn_str e) ;;; sleep 1000) w1.
Proof.
  intros Hread Hne. unfold main_iter, try_except, bind at 1. rewrite Hread.
  by destruct header.
Qed.

Lemma sent_app (a b : list event) : sent (a ++ b) = sent a ++ sent b.
Proof. apply omap_app. Qed.

End AgentFacts.

(** Normalises what a trace built from appended events puts on the wire. *)
Ltac sent_norm :=
  repeat (progress (simpl; rewrite ?logged_trace, ?sent_app;
                    simpl; rewrite ?app_nil_r, <- ?app_assoc)).

(** ** Malformed CONFIG headers *)

Section ConfigHeaderFacts.
Context `{Externals}.

Import Receiver.

(** C6. A CONFIG header with the wrong number of fields is answered on
    the wire, but one whose size field is not an integer is not: [int]
    raises, the handler of the loop logs the exception and sleeps one
    second, and no [ERR_CONFIG_HEADER] (nor any other token) is sent.
    The loop goes on with the next header. *)
Theorem config_header_bad_size_log_only fuel header field size_s w w1 :
  read_line w = Ok (Some header) w1 →
  Py.startswith header "CONFIG" = true →
  Py.split 1 header = [field; size_s] →
  Py.int size_s = None →
  ∃ w',
    main_iter fuel w = Ok tt w' ∧
    w_trace w' =
      w_trace w ++
      [Print (log_line ("Exception: invalid literal for int() with base 10: '"
                        +:+ size_s +:+ "'") w);
       Sleep 1000] ∧
    sent (w_trace w') = sent (w_trace w) ∧
    w_config w' = w_config w.
Proof.
  intros Hread Hstart Hsplit Hint.
  rewrite (main_iter_dispatch fuel w header w1 Hread)
    by (by eapply startswith_nonempty).
  apply read_line_frame in Hread as (buf & arr & ->).
  unfold try_except, dispatch. rewrite Hstart.
  unfold handle_config. rewrite Hsplit. simpl. rewrite Hint.
  unfold raise, bind, log, sleep, emit. eexists. split; [done |].
  split; [| split]; [ | | done].
  - simpl. by rewrite <- app_assoc.
  - simpl. unfold sent. rewrite !omap_app. simpl. by rewrite !app_nil_r.
Qed.

End ConfigHeaderFacts.

(** The header [CONFIG abc]: an exception line in the log, nothing on the
    wire. *)
Lemma config_header_bad_size_log_only_witness :
  ∃ w',
    Receiver.main_iter (H := Demo.env) 0 (Demo.idle ["CONFIG abc" +:+ Receiver.NL])
      = Receiver.Ok tt w' ∧
    Receiver.sent (Receiver.w_trace w') = [] ∧
    Receiver.w_config w' = None.
Proof.
  destruct (config_header_bad_size_log_only (H := Demo.env) 0 "CONFIG abc" "CONFIG" "abc"
              (Demo.idle ["CONFIG abc" +:+ Receiver.NL])
              (Receiver.set_rx "" [] (Demo.idle ["CONFIG abc" +:+ Receiver.NL])))
    as (w' & Hrun & _ & Hsent & Hcfg); [reflexivity .. |].
  exists w'. split; [exact Hrun |]. split; [exact Hsent | exact Hcfg].
Defined.

(** ** Commands before any CONFIG *)

Section NoConfigFacts.
Context `{Externals}.

Import Receiver.

Lemma upload_not_config header :
  Py.startswith header "UPLOAD" = true → Py.startswith header "CONFIG" = false.
Proof.
  destruct header as [|c h]; [done |]. unfold Py.startswith.
  change (String.prefix "UPLOAD" (String c h))
    with (if ascii_dec "U"%char c then String.prefix "PLOAD" h else false).
  destruct (ascii_dec "U"%char c) as [<- | ?]; [reflexivity | discriminate].
Qed.

(** What the UPLOAD and RUN branches do without a config. *)
Lemma dispatch_no_config fuel header w :
  w_config w = None →
  Py.startswith header "UPLOAD" = true ∨ header = "RUN" →
  ∃ what,
    dispatch fuel header w =
      Ok tt (logged what (add_event (Tx ("ERR_NO_CONFIG" +:+ NL)) w)).
Proof.
  intros Hcfg [Hup | ->]; unfold dispatch.
  - rewrite (upload_not_config _ Hup), Hup, Hcfg. by eexists.
  - change (Py.startswith "RUN" "CONFIG") with false.
    change (Py.startswith "RUN" "UPLOAD") with false.
    change (String.eqb "RUN" "RUN") with true.
    cbn beta iota. rewrite Hcfg. by eexists.
Qed.

(** C2, as the code has it. An UPLOAD or RUN header that arrives while
    no config is set is answered with [ERR_NO_CONFIG]; the config stays
    unset; the iteration ends normally and the loop goes on. No entry of
    the filesystem is created, removed or changed except the log file,
    to which the line reporting the rejected command is appended. *)
Theorem no_config_rejected fuel header w w1 :
  w_config w = None →
  read_line w = Ok (Some header) w1 →
  Py.startswith header "UPLOAD" = true ∨ header = "RUN" →
  ∃ w' what,
    main_iter fuel w = Ok tt w' ∧
    w_trace w' =
      w_trace w ++ [Tx ("ERR_NO_CONFIG" +:+ NL); Print what] ∧
    w_config w' = None ∧
    (∀ k, k ≠ log_key → w_fs w' !! k = w_fs w !! k) ∧
    (∀ old, w_fs w !! log_key = Some (File old) →
            ∃ new, w_fs w' !! log_key = Some (File (old +:+ new))) ∧
    (∀ n, main_loop fuel (S n) w = main_loop fuel n w').
Proof.
  intros Hcfg Hread Hkind.
  assert (header ≠ EmptyString) as Hne.
  { destruct Hkind as [Hup | ->]; [by eapply startswith_nonempty | done]. }
  pose proof (main_iter_dispatch fuel w header w1 Hread Hne) as Hiter.
  apply read_line_frame in Hread as (buf & arr & ->).
  destruct (dispatch_no_config fuel header (set_rx buf arr w) Hcfg Hkind)
    as [what Hd].
  unfold try_except in Hiter. rewrite Hd in Hiter.
  eexists _, _. split; [exact Hiter |].
  split; [| split; [| split; [| split]]].
  - rewrite logged_trace. simpl. by rewrite <- app_assoc.
  - by rewrite logged_config.
  - intros k Hk. by rewrite logged_fs_other.
  - intros old Hold. by apply logged_fs_log.
  - intros n. simpl. unfold bind at 1. by rewrite Hiter.
Qed.

End NoConfigFacts.

(** An UPLOAD header sent to an agent that has no config yet. *)
Lemma no_config_rejected_witness :
  ∃ w' what,
    Receiver.main_iter (H := Demo.env) 0
      (Demo.idle ["UPLOAD 4 abc x" +:+ Receiver.NL]) = Receiver.Ok tt w' ∧
    Receiver.w_trace w' =
      [Receiver.Tx ("ERR_NO_CONFIG" +:+ Receiver.NL); Receiver.Print what] ∧
    Receiver.w_config w' = None.
Proof.
  destruct (no_config_rejected (H := Demo.env) 0 "UPLOAD 4 abc x"
              (Demo.idle ["UPLOAD 4 abc x" +:+ Receiver.NL])
              (Receiver.set_rx "" [] (Demo.idle ["UPLOAD 4 abc x" +:+ Receiver.NL])))
    as (w' & what & Hrun & Htrace & Hcfg & _);
    [reflexivity | reflexivity | left; reflexivity |].
  exists w', what. split; [exact Hrun |]. split; [exact Htrace | exact Hcfg].
Defined.

(** The rejected UPLOAD leaves a trace in the filesystem: the log file of
    the agent comes into being. *)
Lemma no_config_rejected_touches_log :
  ¬ (∀ w',
       Receiver.main_iter (H := Demo.env) 0
         (Demo.idle ["UPLOAD 4 abc x" +:+ Receiver.NL]) = Receiver.Ok tt w' →
       Receiver.w_fs w' = Receiver.w_fs (Demo.idle ["UPLOAD 4 abc x" +:+ Receiver.NL])).
Proof.
  intros Hsame.
  specialize (Hsame _ eq_refl).
  apply (f_equal (λ fs : Fs.t, fs !! ["home"; "pi"; "app"; "upload.log"])) in Hsame.
  vm_compute in Hsame. discriminate.
Qed.

(** ** RUN *)

Section RunFacts.
Context `{Externals}.

Import Receiver.

Lemma rev_app_nonempty (s acc : string) :
  acc ≠ EmptyString → String.rev_app s acc ≠ EmptyString.
Proof.
  revert acc. induction s as [|c s IH]; intros acc Hacc; simpl; [done |].
  by apply IH.
Qed.

Lemma iter_lines_go_nonempty cur s :
  Forall (λ line, line ≠ EmptyString) (Py.iter_lines_go cur s).
Proof.
  revert cur. induction s as [|c s IH]; intros cur; simpl.
  - destruct cur as [|d cur]; [constructor |].
    constructor; [| constructor]. unfold String.rev. simpl.
    by apply rev_app_nonempty.
  - destruct (Ascii.eqb c "010"%char); [| apply IH].
    constructor; [| apply IH]. unfold String.rev. simpl.
    by apply rev_app_nonempty.
Qed.

(** Every line of the output is logged and forwarded. *)
Lemma stream_lines_sent lines w :
  Forall (λ line, line ≠ EmptyString) lines →
  ∃ w', stream_lines lines w = Ok tt w' ∧
        sent (w_trace w') =
          sent (w_trace w) ++ map (λ line, Py.rstrip_nl line +:+ NL) lines.
Proof.
  intros Hne. revert w. induction Hne as [|line lines Hline _ IH]; intros w.
  - exists w. simpl. by rewrite app_nil_r.
  - destruct line as [|c line]; [done |].
    cbn [stream_lines]. unfold bind, log, ser_write, emit.
    destruct (IH (add_event (Tx (Py.rstrip_nl (String c line) +:+ NL))
                    (logged ("APP: " +:+ Py.rstrip_nl (String c line)) w)))
      as (w' & -> & Hsent).
    exists w'. split; [done |]. rewrite Hsent. by sent_norm.
Qed.

(** C8, as the code has it. A RUN command with a config set and the
    entry point present: when the spawn fails the agent sends [ERR_RUN]
    with the detail and nothing else, so no [RUNNING]. When the spawn
    succeeds the agent sends [RUNNING], then each line of the output
    that it reads, terminated by a newline. What follows depends on how
    the reading ends: when the output is read to the end and the process
    has exited, [EXIT] with the exit code; when reading the output (or
    waiting for the process) raises, [ERR_STREAM] with the detail, and
    no [EXIT]. *)
Theorem run_replies_in_order fuel cfg w k :
  w_config w = Some cfg →
  resolve (main_path cfg) = Some k →
  is_Some (Fs.lookup_node (w_fs w) k) →
  (∀ detail, popen (run_cmd cfg) = SpawnError detail →
     ∃ w', dispatch fuel "RUN" w = Ok tt w' ∧
           sent (w_trace w') = sent (w_trace w) ++ ["ERR_RUN " +:+ detail +:+ NL]) ∧
  (∀ output returncode, popen (run_cmd cfg) = Spawned output (Exited returncode) →
     ∃ w', dispatch fuel "RUN" w = Ok tt w' ∧
           sent (w_trace w') =
             sent (w_trace w) ++
             ["RUNNING" +:+ NL] ++
             map (λ line, Py.rstrip_nl line +:+ NL) (Py.iter_lines output) ++
             ["EXIT " +:+ pretty returncode +:+ NL]) ∧
  (∀ output detail, popen (run_cmd cfg) = Spawned output (DrainError detail) →
     ∃ w', dispatch fuel "RUN" w = Ok tt w' ∧
           sent (w_trace w') =
             sent (w_trace w) ++
             ["RUNNING" +:+ NL] ++
             map (λ line, Py.rstrip_nl line +:+ NL) (Py.iter_lines output) ++
             ["ERR_STREAM " +:+ detail +:+ NL]).
Proof.
  intros Hcfg Hres Hfile.
  assert (∀ w0 : world,
            dispatch fuel "RUN" w =
              (log "RUN command received; starting application." ;;;
               run_with_config cfg) w) as Hdisp.
  { intros _. unfold dispatch.
    change (Py.startswith "RUN" "CONFIG") with false.
    change (Py.startswith "RUN" "UPLOAD") with false.
    change (String.eqb "RUN" "RUN") with true.
    cbn beta iota. by rewrite Hcfg. }
  set (w1 := logged "RUN command received; starting application." w).
  set (w2 := add_event (Popen (run_cmd cfg))
               (logged ("Starting process: " +:+ Py.join " " (run_cmd cfg)) w1)).
  assert (dispatch fuel "RUN" w = supervise (popen (run_cmd cfg)) w2) as Hrun.
  { rewrite (Hdisp w). unfold bind at 1, log at 1. fold w1.
    assert (path_exists (main_path cfg) w1 = Ok true w1) as Hpresent.
    { unfold path_exists. rewrite Hres. f_equal.
      apply bool_decide_eq_true_2. by apply logged_fs_some. }
    unfold run_with_config, bind at 1. rewrite Hpresent. done. }
  assert (sent (w_trace w2) = sent (w_trace w)) as Hsent2.
  { unfold w2, w1. by sent_norm. }
  rewrite Hrun. clearbody w2. clear Hdisp Hrun w1.
  split; [| split].
  - intros detail ->. unfold supervise, bind, log, ser_write, emit.
    eexists. split; [done |]. sent_norm. by rewrite Hsent2.
  - intros output rc ->. unfold supervise, bind at 1, ser_write at 1, emit at 1.
    unfold bind at 1.
    destruct (stream_lines_sent (Py.iter_lines output)
                (add_event (Tx ("RUNNING" +:+ NL)) w2)
                (iter_lines_go_nonempty _ _)) as (w3 & -> & Hsent3).
    unfold bind, log, ser_write, emit. eexists. split; [done |].
    sent_norm. rewrite Hsent3. sent_norm. by rewrite Hsent2.
  - intros output detail ->.
    unfold supervise, bind at 1, ser_write at 1, emit at 1.
    unfold bind at 1.
    destruct (stream_lines_sent (Py.iter_lines output)
                (add_event (Tx ("RUNNING" +:+ NL)) w2)
                (iter_lines_go_nonempty _ _)) as (w3 & -> & Hsent3).
    unfold bind, log, ser_write, emit. eexists. split; [done |].
    sent_norm. rewrite Hsent3. sent_norm. by rewrite Hsent2.
Qed.

End RunFacts.

(** A process that prints two lines and exits with code 3. *)
Lemma run_replies_in_order_witness :
  ∃ w',
    Receiver.dispatch (H := Demo.env) 0 "RUN" (Demo.configured []) = Receiver.Ok tt w' ∧
    Receiver.sent (Receiver.w_trace w') =
      ["RUNNING" +:+ Receiver.NL; "hello" +:+ Receiver.NL; "world" +:+ Receiver.NL;
       "EXIT 3" +:+ Receiver.NL].
Proof.
  destruct (run_replies_in_order (H := Demo.env) 0 Demo.deploy_config
              (Demo.configured []) ["deploy"; "app.py"])
    as (_ & Hok & _); [reflexivity | reflexivity | by eexists |].
  destruct (Hok _ 3 eq_refl) as (w' & Hrun & Hsent).
  exists w'. split; [exact Hrun | exact Hsent].
Defined.

(** A spawn that succeeds is not always followed by [EXIT]: when the
    pipe of the process breaks after its first line, the agent sends
    [RUNNING], that line and [ERR_STREAM], and no exit code. *)
Lemma run_spawned_without_exit :
  ¬ (∀ output fin,
       @popen Demo.env_faulty (Receiver.run_cmd (H := Demo.env_faulty) Demo.deploy_config)
         = Spawned output fin →
       ∃ w' returncode,
         Receiver.dispatch (H := Demo.env_faulty) 0 "RUN" (Demo.configured [])
           = Receiver.Ok tt w' ∧
         Receiver.sent (Receiver.w_trace w') =
           ["RUNNING" +:+ Receiver.NL] ++
           map (λ line, Py.rstrip_nl line +:+ Receiver.NL) (Py.iter_lines output) ++
           ["EXIT " +:+ pretty (returncode : Z) +:+ Receiver.NL]).
Proof.
  intros Hclaim.
  destruct (Hclaim _ _ eq_refl) as (w' & returncode & Hrun & Hsent).
  vm_compute in Hrun. injection Hrun as <-.
  vm_compute in Hsent. discriminate Hsent.
Qed.

(** ** Payload reads *)

Section ReadFacts.
Context `{Externals}.

Import Receiver.

(** A read returns at most the bytes asked for; on a link that has gone
    silent it takes them from the buffer. *)
Lemma ser_read_spec size w :
  ∃ chunk buf arr,
    ser_read size w = Ok chunk (set_rx buf arr w) ∧
    (String.length chunk ≤ Z.to_nat size)%nat ∧
    (w_arrivals w = [] → arr = [] ∧ w_rxbuf w = chunk +:+ buf).
Proof.
  unfold ser_read, take_bytes.
  destruct (Z.to_nat size <=? String.length (w_rxbuf w))%nat.
  - eexists _, _, _. split; [done |]. split; [apply take_length |].
    intros Harr. split; [done |]. by rewrite take_drop.
  - eexists _, _, _. split; [done |]. split; [apply take_length |].
    intros Harr. rewrite Harr. simpl. split; [done |].
    by rewrite take_drop, str_app_nil_r.
Qed.

Lemma recv_n_loop_unfold fuel n buf :
  recv_n_loop fuel n buf =
  if len buf <? n then
    match fuel with
    | O => spin
    | S fuel =>
        chunk <- ser_read (n - len buf) ;;
        match chunk with
        | EmptyString => sleep 10 ;;; recv_n_loop fuel n buf
        | _ => recv_n_loop fuel n (buf +:+ chunk)
        end
    end
  else ret buf.
Proof. by destruct fuel. Qed.

Lemma read_exact_loop_unfold fuel n out cb got last hashed :
  read_exact_loop fuel n out cb got last hashed =
  if got <? n then
    match fuel with
    | O => spin
    | S fuel =>
        chunk <- ser_read (Z.min 16384 (n - got)) ;;
        match chunk with
        | EmptyString =>
            sleep 10 ;;; read_exact_loop fuel n out cb got last hashed
        | _ =>
            fs_do (Fs.append out chunk) ;;;
            let hashed := hashed +:+ chunk in
            let got := got + len chunk in
            match cb with
            | Some cb =>
                if PROGRESS_INTERVAL <=? got - last then
                  cb got ;;; read_exact_loop fuel n out (Some cb) got got hashed
                else read_exact_loop fuel n out (Some cb) got last hashed
            | None => read_exact_loop fuel n out None got last hashed
            end
        end
    end
  else ret (got, sha256_hexdigest hashed).
Proof. destruct fuel; [done |]. simpl. by destruct cb. Qed.

(** *** Progress reports *)

Lemma progress_cb_eq g w :
  progress_cb g w = Ok tt (add_event (Tx (progress_line g)) w).
Proof. reflexivity. Qed.

Lemma read_exact_loop_progress fuel n out got last hashed w :
  ∃ counts,
    sent (w_trace (result_world
            (read_exact_loop fuel n out (Some progress_cb) got last hashed w))) =
      sent (w_trace w) ++ map progress_line counts ∧
    spaced last counts ∧
    Forall (λ g, g ≤ n) counts.
Proof.
  revert got last hashed w.
  induction fuel as [|fuel IH]; intros got last hashed w;
    rewrite read_exact_loop_unfold;
    destruct (Z.ltb_spec got n) as [Hlt | Hge];
    try (exists []; simpl; by rewrite app_nil_r).
  unfold bind at 1.
  destruct (ser_read_spec (Z.min 16384 (n - got)) w)
    as (chunk & buf & arr & -> & Hlen & _).
  destruct chunk as [|c chunk].
  - unfold bind, sleep, emit.
    destruct (IH got last hashed (add_event (Sleep 10) (set_rx buf arr w)))
      as (counts & Hsent & Hsp & Hle).
    exists counts. rewrite Hsent. split; [by sent_norm | done].
  - unfold bind at 1, fs_do.
    destruct (Fs.append out _ _) as [e | fs'].
    { exists []. simpl. by rewrite app_nil_r. }
    cbn zeta.
    set (got' := got + len (String c chunk)).
    assert (got' ≤ n) as Hgot'.
    { unfold got', len. lia. }
    destruct (Z.leb_spec PROGRESS_INTERVAL (got' - last)) as [Hrep | Hnot].
    + unfold bind at 1. rewrite progress_cb_eq.
      destruct (IH got' got' (hashed +:+ String c chunk)
                  (add_event (Tx (progress_line got'))
                     (set_fs fs' (set_rx buf arr w))))
        as (counts & Hsent & Hsp & Hle).
      exists (got' :: counts). rewrite Hsent.
      split; [by sent_norm |]. split; [| by constructor].
      simpl. split; [lia | done].
    + destruct (IH got' last (hashed +:+ String c chunk)
                  (set_fs fs' (set_rx buf arr w)))
        as (counts & Hsent & Hsp & Hle).
      exists counts. by rewrite Hsent.
Qed.

Lemma spaced_sorted last counts :
  spaced last counts →
  Forall (λ g, last < g) counts ∧ StronglySorted Z.lt counts.
Proof.
  revert last. induction counts as [|g counts IH]; intros last Hsp.
  - split; constructor.
  - destruct Hsp as [Hstep Hrest]. destruct (IH g Hrest) as [Hall Hsorted].
    unfold PROGRESS_INTERVAL in Hstep. split.
    + constructor; [lia |]. eapply Forall_impl; [exact Hall |].
      intros x Hx. simpl in Hx. lia.
    + by constructor.
Qed.

(** C10. While one payload is received, what the agent sends is a
    sequence of PROGRESS lines whose byte counts are strictly increasing,
    each at least 65536 beyond the one before (the first at least 65536),
    and none above the declared size. This holds wherever the reception
    stands: finished, failed, or still reading. *)
Theorem progress_counts_spaced fuel n out_archive_path w :
  ∃ counts,
    sent (w_trace (result_world
            (read_exact fuel n out_archive_path (Some progress_cb) w))) =
      sent (w_trace w) ++ map progress_line counts ∧
    spaced 0 counts ∧
    StronglySorted Z.lt counts ∧
    Forall (λ g, g ≤ n) counts.
Proof.
  unfold read_exact, with_path.
  destruct (resolve out_archive_path) as [out|].
  2: { exists []. simpl. rewrite app_nil_r. repeat split; constructor. }
  unfold bind at 1, emit at 1. unfold bind at 1, fs_do.
  cbn [w_fs add_event].
  destruct (Fs.open_w out (w_fs w)) as [e | fs'].
  { exists []. sent_norm. repeat split; constructor. }
  destruct (read_exact_loop_progress fuel n out 0 0 EmptyString
              (set_fs fs' (add_event (FsOpenW out) w)))
    as (counts & Hsent & Hsp & Hle).
  exists counts. rewrite Hsent.
  split; [by sent_norm |]. split; [done |]. split; [| done].
  by apply spaced_sorted in Hsp as [_ ?].
Qed.

End ReadFacts.

(** ** Payload reads on a link that has gone silent *)

Section SilentFacts.
Context `{Externals}.

Import Receiver.

Lemma parent_ne (k : list string) : k ≠ [] → Fs.parent k ≠ k.
Proof.
  intros Hk Heq. unfold Fs.parent in Heq.
  pose proof (app_removelast_last EmptyString Hk) as Hsplit.
  rewrite Heq in Hsplit. apply (f_equal length) in Hsplit.
  rewrite length_app in Hsplit. simpl in Hsplit. lia.
Qed.

Lemma lookup_node_insert_ne (fs : Fs.t) (k p : list string) (v : node) :
  p ≠ k → Fs.lookup_node (<[k := v]> fs) p = Fs.lookup_node fs p.
Proof. intros Hne. destruct p; [done |]. simpl. by rewrite lookup_insert_ne. Qed.

Lemma writable_insert_file (fs : Fs.t) (k : list string) (d : string) :
  Fs.writable fs k = None → Fs.writable (<[k := File d]> fs) k = None.
Proof.
  unfold Fs.writable. intros Hw.
  destruct k as [|c k]; [by destruct (Fs.lookup_node fs (Fs.parent [])) as [[]|] |].
  rewrite lookup_node_insert_ne by (by apply parent_ne).
  cbn [Fs.lookup_node] in *. rewrite lookup_insert_eq.
  destruct (Fs.lookup_node fs (Fs.parent (c :: k))) as [[]|];
    destruct (fs !! (c :: k)) as [[]|]; done.
Qed.

Lemma append_writable (fs : Fs.t) (k : list string) (data : string) :
  Fs.writable fs k = None →
  ∃ fs', Fs.append k data fs = inr fs' ∧ Fs.writable fs' k = None.
Proof.
  intros Hw. unfold Fs.append. rewrite Hw.
  destruct (fs !! k) as [[old|]|]; eexists; (split; [done |]);
    by apply writable_insert_file.
Qed.

Lemma recv_n_loop_silent n fuel buf w :
  w_arrivals w = [] →
  len buf + len (w_rxbuf w) < n →
  ∃ w', recv_n_loop fuel n buf w = Running w' ∧
        sent (w_trace w') = sent (w_trace w) ∧
        w_fs w' = w_fs w.
Proof.
  revert buf w. induction fuel as [|fuel IH]; intros buf w Harr Hshort;
    rewrite recv_n_loop_unfold;
    (destruct (Z.ltb_spec (len buf) n) as [Hlt | Hge]; [| unfold len in *; lia]).
  - by exists w.
  - unfold bind at 1.
    destruct (ser_read_spec (n - len buf) w) as (chunk & rest & arr & -> & _ & Hrx).
    destruct (Hrx Harr) as [-> Hbuf].
    assert (len (w_rxbuf w) = len chunk + len rest) as Hlen.
    { unfold len. rewrite Hbuf, str_length_app. lia. }
    destruct chunk as [|c chunk].
    + unfold bind, sleep, emit.
      destruct (IH buf (add_event (Sleep 10) (set_rx rest [] w))) as (w' & -> & Hs & Hfs);
        [done | simpl; unfold len in *; simpl in *; lia |].
      exists w'. split; [done |]. rewrite Hs, Hfs. split; [by sent_norm | done].
    + destruct (IH (buf +:+ String c chunk) (set_rx rest [] w)) as (w' & -> & Hs & Hfs);
        [done | simpl; unfold len in *; rewrite str_length_app; lia |].
      by exists w'.
Qed.

Lemma read_exact_loop_silent n out fuel got last hashed w :
  w_arrivals w = [] →
  got + len (w_rxbuf w) < n →
  Fs.writable (w_fs w) out = None →
  ∃ w', read_exact_loop fuel n out (Some progress_cb) got last hashed w = Running w'.
Proof.
  revert got last hashed w.
  induction fuel as [|fuel IH]; intros got last hashed w Harr Hshort Hw;
    rewrite read_exact_loop_unfold;
    (destruct (Z.ltb_spec got n) as [Hlt | Hge]; [| unfold len in *; lia]).
  - by exists w.
  - unfold bind at 1.
    destruct (ser_read_spec (Z.min 16384 (n - got)) w)
      as (chunk & rest & arr & -> & _ & Hrx).
    destruct (Hrx Harr) as [-> Hbuf].
    assert (len (w_rxbuf w) = len chunk + len rest) as Hlen.
    { unfold len. rewrite Hbuf, str_length_app. lia. }
    destruct chunk as [|c chunk].
    + unfold bind, sleep, emit.
      apply IH; [done | simpl; unfold len in *; simpl in *; lia | done].
    + unfold bind at 1, fs_do. cbn [w_fs set_rx].
      destruct (append_writable (w_fs w) out (String c chunk) Hw) as (fs' & -> & Hw').
      cbn zeta.
      destruct (PROGRESS_INTERVAL <=? _).
      * unfold bind at 1. rewrite progress_cb_eq.
        apply IH; [done | simpl; lia | done].
      * apply IH; [done | simpl; lia | done].
Qed.

(** A payload read returns only with the declared size reached. *)
Lemma recv_n_loop_complete n fuel buf w b w' :
  recv_n_loop fuel n buf w = Ok b w' → n ≤ len b.
Proof.
  revert buf w. induction fuel as [|fuel IH]; intros buf w;
    rewrite recv_n_loop_unfold;
    destruct (Z.ltb_spec (len buf) n) as [Hlt | Hge];
    try (intros [= <- _]; lia).
  unfold bind at 1.
  destruct (ser_read_spec (n - len buf) w) as (chunk & rest & arr & -> & _).
  destruct chunk as [|c chunk].
  - unfold bind, sleep, emit. apply IH.
  - apply IH.
Qed.

(** What [read_exact] has done when it returns: the bytes it hashed are
    the contents of the staging file, their number is the declared size,
    and no other entry of the filesystem has changed. *)
Lemma read_exact_loop_ok n out fuel got last hashed w g d w2 :
  read_exact_loop fuel n out (Some progress_cb) got last hashed w = Ok (g, d) w2 →
  w_fs w !! out = Some (File hashed) →
  got = len hashed →
  ∃ data,
    w_fs w2 !! out = Some (File data) ∧
    d = sha256_hexdigest data ∧
    g = len data ∧
    n ≤ g ∧ (got ≤ n → g ≤ n) ∧
    (∀ k, k ≠ out → w_fs w2 !! k = w_fs w !! k) ∧
    w_config w2 = w_config w.
Proof.
  revert got last hashed w.
  induction fuel as [|fuel IH]; intros got last hashed w;
    rewrite read_exact_loop_unfold;
    destruct (Z.ltb_spec got n) as [Hlt | Hge];
    try (intros [= <- <- <-] Hfile Hgot; exists hashed;
         repeat split; done || lia).
  unfold bind at 1.
  destruct (ser_read_spec (Z.min 16384 (n - got)) w)
    as (chunk & rest & arr & -> & Hchunk & _).
  destruct chunk as [|c chunk].
  - unfold bind, sleep, emit. intros Hrun Hfile Hgot.
    destruct (IH _ _ _ _ Hrun Hfile Hgot) as (data & ? & ? & ? & ? & ? & ? & ?).
    exists data. repeat split; done.
  - unfold bind at 1, fs_do. cbn [w_fs set_rx].
    destruct (Fs.append out (String c chunk) (w_fs w)) as [e | fs'] eqn:Happ; [done |].
    cbn zeta. intros Hrun Hfile Hgot.
    pose proof (append_file _ _ _ _ _ Happ Hfile) as Hfile'.
    assert (got + len (String c chunk) = len (hashed +:+ String c chunk)) as Hgot'.
    { unfold len. rewrite str_length_app. unfold len in Hgot. lia. }
    assert (got + len (String c chunk) ≤ n) as Hle by (unfold len; lia).
    assert (∃ last' w1,
              read_exact_loop fuel n out (Some progress_cb)
                (got + len (String c chunk)) last' (hashed +:+ String c chunk) w1
              = Ok (g, d) w2 ∧
              w_fs w1 = fs' ∧ w_config w1 = w_config w) as (last' & w1 & Hrun' & Hfs1 & Hc1).
    { destruct (PROGRESS_INTERVAL <=? _).
      - unfold bind at 1 in Hrun. rewrite progress_cb_eq in Hrun.
        by eexists _, _.
      - by eexists _, _. }
    rewrite <- Hfs1 in Hfile'.
    destruct (IH _ _ _ _ Hrun' Hfile' Hgot') as (data & ? & ? & ? & ? & Hup & Hother & Hcfg).
    exists data. repeat split; try done.
    + intros _. by apply Hup.
    + intros k Hk. rewrite Hother, Hfs1 by done. by eapply append_other.
    + by rewrite Hcfg.
Qed.

Lemma archive_key_nonempty : archive_key ≠ [].
Proof. unfold archive_key. by destruct app_key. Qed.

Lemma read_exact_ok fuel n w got actual w2 :
  read_exact fuel n ARCHIVE_PATH (Some progress_cb) w = Ok (got, actual) w2 →
  ∃ data,
    w_fs w2 !! archive_key = Some (File data) ∧
    actual = sha256_hexdigest data ∧
    got = len data ∧
    (0 ≤ n → got = n) ∧
    (∀ k, k ≠ archive_key → w_fs w2 !! k = w_fs w !! k) ∧
    w_config w2 = w_config w.
Proof.
  unfold read_exact, with_path. rewrite resolve_ARCHIVE_PATH.
  unfold bind at 1, emit at 1. unfold bind at 1, fs_do. cbn [w_fs add_event].
  destruct (Fs.open_w archive_key (w_fs w)) as [e | fs'] eqn:Hopen; [done |].
  intros Hrun.
  assert (fs' = <[archive_key := File EmptyString]> (w_fs w)) as ->.
  { unfold Fs.open_w in Hopen. destruct (Fs.writable _ _); by simplify_eq. }
  apply read_exact_loop_ok in Hrun as (data & ? & ? & ? & ? & Hup & Hother & ?);
    [| simpl; by rewrite lookup_insert_eq | done].
  exists data. repeat split; try done.
  - intros Hn. specialize (Hup Hn). lia.
  - intros k Hk. rewrite Hother by done. simpl. by rewrite lookup_insert_ne.
Qed.

(** C4, as the code has it. When nothing more arrives on the link and
    fewer bytes than declared are at hand, neither payload read ever
    ends: after any number of polls, [recv_n] (CONFIG) and [read_exact]
    (UPLOAD, the staging file being writable) are still in their loop.
    Neither read has a timeout; a read returns only with the declared
    number of bytes. *)
Theorem payload_reads_poll_forever fuel n w :
  w_arrivals w = [] →
  len (w_rxbuf w) < n →
  (∃ w', recv_n fuel n w = Running w' ∧ sent (w_trace w') = sent (w_trace w)) ∧
  (Fs.writable (w_fs w) archive_key = None →
   ∃ w', read_exact fuel n ARCHIVE_PATH (Some progress_cb) w = Running w') ∧
  (∀ fuel' w0 buf w', recv_n fuel' n w0 = Ok buf w' → n ≤ len buf) ∧
  (∀ fuel' w0 got digest w',
     read_exact fuel' n ARCHIVE_PATH (Some progress_cb) w0 = Ok (got, digest) w' →
     n ≤ got).
Proof.
  intros Harr Hshort. split; [| split; [| split]].
  - destruct (recv_n_loop_silent n fuel EmptyString w Harr) as (w' & Hrun & Hs & _);
      [unfold len in *; simpl; lia |].
    by exists w'.
  - intros Hw. unfold read_exact, with_path. rewrite resolve_ARCHIVE_PATH.
    unfold bind at 1, emit at 1. unfold bind at 1, fs_do. cbn [w_fs add_event].
    unfold Fs.open_w. rewrite Hw.
    destruct (read_exact_loop_silent n archive_key fuel 0 0 EmptyString
                (set_fs (<[archive_key := File EmptyString]> (w_fs w))
                   (add_event (FsOpenW archive_key) w)))
      as [w' Hrun]; [done | simpl; lia | by apply writable_insert_file |].
    by exists w'.
  - intros fuel' w0 buf w'. apply recv_n_loop_complete.
  - intros fuel' w0 got digest w' Hread.
    apply read_exact_ok in Hread as (data & _ & _ & Hgot & Hsize & _).
    destruct (Z.le_gt_cases 0 n) as [Hn | Hn]; [by rewrite (Hsize Hn) |].
    unfold len in Hgot. lia.
Qed.

End SilentFacts.

(** A link on which nothing arrives, four bytes being declared. *)
Lemma payload_reads_poll_forever_witness :
  (∃ w', Receiver.recv_n 100 4 (Demo.idle []) = Receiver.Running w') ∧
  (∃ w', Receiver.read_exact (H := Demo.env) 100 4 (Receiver.ARCHIVE_PATH (H := Demo.env))
           (Some Receiver.progress_cb) (Demo.idle [])
         = Receiver.Running w').
Proof.
  destruct (payload_reads_poll_forever (H := Demo.env) 100 4 (Demo.idle []))
    as ((w1 & Hrecv & _) & Hread & _ & _); [reflexivity | reflexivity |].
  destruct (Hread eq_refl) as [w2 Hw2].
  split; [by exists w1 | by exists w2].
Defined.

(** No number of polls ends the wait for a byte that does not come:
    the read neither returns nor fails. *)
Lemma recv_n_has_no_timeout :
  ¬ ∃ fuel,
      match Receiver.recv_n fuel 1 (Demo.idle []) with
      | Receiver.Running _ => False
      | _ => True
      end.
Proof.
  intros [fuel Hdone].
  destruct (recv_n_loop_silent 1 fuel EmptyString (Demo.idle []))
    as (w' & Hrun & _); [reflexivity | reflexivity |].
  unfold Receiver.recv_n in Hdone. by rewrite Hrun in Hdone.
Qed.

(** ** UPLOAD: the checksum verdict *)

Section UploadFacts.
Context `{Externals}.

Import Receiver.

(** C1. An UPLOAD header accepted with a config set, the payload read to
    the end: the digest is that of the bytes received, which are the
    contents of the staging file and as many as declared. If it differs
    from the digest of the header, the agent sends [ERR_CHECKSUM] with
    the digest it computed and removes the staging file; nothing is
    extracted, no other entry changes but the log. If the digests agree,
    the agent sends [DONE], and the extraction starts from the state in
    which [DONE] is the last thing that happened. *)
Theorem upload_checksum_verdict
    fuel cfg header field size_s expected name size w w1 got actual w2 :
  w_config w = Some cfg →
  Py.startswith header "UPLOAD" = true →
  Py.split 3 header = [field; size_s; expected; name] →
  Py.int size_s = Some size →
  begin_upload (default DEFAULT_APP_DIR (cfg_directory cfg)) name expected size w
    = Ok tt w1 →
  read_exact fuel size ARCHIVE_PATH (Some progress_cb) w1 = Ok (got, actual) w2 →
  (∃ data,
     w_fs w2 !! archive_key = Some (File data) ∧
     actual = sha256_hexdigest data ∧
     got = len data ∧ (0 ≤ size → got = size)) ∧
  (actual ≠ expected →
   ∃ w' line1 line2,
     dispatch fuel header w = Ok tt w' ∧
     w_trace w' =
       w_trace w2 ++
       [Print line1; Tx ("ERR_CHECKSUM " +:+ actual +:+ NL); Print line2;
        FsUnlink archive_key] ∧
     w_fs w' !! archive_key = None ∧
     (∀ k, k ≠ archive_key → k ≠ log_key → w_fs w' !! k = w_fs w2 !! k)) ∧
  (actual = expected →
   ∃ w3 line1,
     w_trace w3 = w_trace w2 ++ [Print line1; Tx ("DONE" +:+ NL)] ∧
     dispatch fuel header w =
       (r <- extract_archive_to ARCHIVE_PATH
               (default DEFAULT_APP_DIR (cfg_directory cfg)) ;;
        report_extraction (default DEFAULT_APP_DIR (cfg_directory cfg)) r) w3).
Proof.
  intros Hcfg Hup Hsplit Hint Hbegin Hread.
  assert (dispatch fuel header w =
            finish_upload (default DEFAULT_APP_DIR (cfg_directory cfg)) expected
              (got, actual) w2) as Hdisp.
  { unfold dispatch. rewrite (upload_not_config _ Hup), Hup, Hcfg.
    unfold handle_upload. rewrite Hsplit, Hint. cbn zeta.
    unfold bind at 1. rewrite Hbegin. unfold bind at 1. by rewrite Hread. }
  destruct (read_exact_ok _ _ _ _ _ _ Hread)
    as (data & Hfile & Hdigest & Hgot & Hsize & _ & _).
  split; [by exists data |].
  rewrite Hdisp. unfold finish_upload, bind at 1, log at 1.
  set (w3 := logged _ w2).
  assert (w_fs w3 !! archive_key = Some (File data)) as Hfile3.
  { unfold w3. rewrite logged_fs_other; [done |].
    intros E. by apply log_key_not_archive_key. }
  split.
  - intros Hne. apply String.eqb_neq in Hne. rewrite Hne. cbn [negb].
    unfold bind at 1, ser_write at 1, emit at 1.
    unfold bind at 1, log at 1.
    set (w4 := logged _ (add_event _ w3)).
    assert (w_fs w4 !! archive_key = Some (File data)) as Hfile4.
    { unfold w4. rewrite logged_fs_other; [done |].
      intros E. by apply log_key_not_archive_key. }
    unfold try_except, with_path. rewrite resolve_ARCHIVE_PATH.
    unfold bind, emit, fs_do, Fs.remove. cbn [w_fs add_event].
    pose proof archive_key_nonempty as Hk.
    destruct archive_key as [|c k] eqn:Hkey; [done |].
    cbn [Fs.lookup_node]. rewrite Hfile4.
    eexists _, _, _. split; [done |]. split; [| split].
    + unfold w4, w3. simpl. by rewrite <- !app_assoc.
    + cbn [w_fs set_fs add_event]. by rewrite lookup_delete_eq.
    + intros k' Hk1 Hk2. cbn [w_fs set_fs add_event].
      rewrite lookup_delete_ne by done.
      unfold w4. rewrite logged_fs_other by done. cbn [w_fs set_fs add_event].
      unfold w3. by rewrite logged_fs_other.
  - intros ->. rewrite String.eqb_refl. cbn [negb].
    unfold bind at 1, ser_write at 1, emit at 1.
    eexists _, _. split; [| done].
    unfold w3. simpl. by rewrite <- !app_assoc.
Qed.

End UploadFacts.

(** A four-byte payload whose digest in the header is wrong. *)
Lemma upload_checksum_verdict_witness :
  let w := Receiver.World (Some Demo.deploy_config) Demo.fs1 "ab" ["cd"] [] 0 in
  ∃ w',
    Receiver.dispatch (H := Demo.env) 5 "UPLOAD 4 zz x" w = Receiver.Ok tt w' ∧
    Receiver.w_fs w' !! ["home"; "pi"; "app"; "__upload__.tar.gz"] = None.
Proof.
  intros w.
  set (w1 := Receiver.result_world
               (Receiver.begin_upload (H := Demo.env) "/deploy" "x" "zz" 4 w)).
  set (w2 := Receiver.result_world
               (Receiver.read_exact (H := Demo.env) 5 4
                  (Receiver.ARCHIVE_PATH (H := Demo.env)) (Some Receiver.progress_cb) w1)).
  assert (Receiver.begin_upload (H := Demo.env) "/deploy" "x" "zz" 4 w
          = Receiver.Ok tt w1) as Hbegin by (vm_compute; reflexivity).
  assert (Receiver.read_exact (H := Demo.env) 5 4
            (Receiver.ARCHIVE_PATH (H := Demo.env)) (Some Receiver.progress_cb) w1
          = Receiver.Ok (4, "4") w2) as Hread by (vm_compute; reflexivity).
  destruct (upload_checksum_verdict (H := Demo.env) 5 Demo.deploy_config
              "UPLOAD 4 zz x" "UPLOAD" "4" "zz" "x" 4 w w1 4 "4" w2
              eq_refl eq_refl eq_refl eq_refl Hbegin Hread)
    as (_ & Hbad & _).
  destruct Hbad as (w' & l1 & l2 & Hrun & _ & Hgone & _); [discriminate |].
  exists w'. split; [exact Hrun | exact Hgone].
Defined.

(** ** Extraction *)

Section ExtractFacts.
Context `{Externals}.

Import Receiver.

Lemma prefix_parent (km : list string) : Fs.parent km `prefix_of` km.
Proof.
  destruct (decide (km = [])) as [-> | Hne]; [done |].
  exists [List.last km EmptyString]. by apply app_removelast_last.
Qed.

Lemma grows_refl (km : list string) (fs : Fs.t) : Fs.grows km fs fs.
Proof. intros p Hp. by left. Qed.

Lemma grows_trans (km : list string) (fs1 fs2 fs3 : Fs.t) :
  Fs.grows km fs1 fs2 → Fs.grows km fs2 fs3 → Fs.grows km fs1 fs3.
Proof.
  intros H12 H23 p Hp. destruct (H23 p Hp) as [Hp2 | ?]; [| by right].
  by apply H12.
Qed.

Lemma grows_weaken (k km : list string) (fs fs' : Fs.t) :
  k `prefix_of` km → Fs.grows k fs fs' → Fs.grows km fs fs'.
Proof.
  intros Hk Hg p Hp. destruct (Hg p Hp) as [? | Hpk]; [by left | right].
  by trans k.
Qed.

Lemma insert_grows (k : list string) (v : node) (fs : Fs.t) :
  Fs.grows k fs (<[k := v]> fs).
Proof.
  intros p Hp. destruct (decide (p = k)) as [-> | Hne]; [by right |].
  left. by rewrite lookup_insert_ne in Hp.
Qed.

Lemma makedirs_from_grows (rest base : list string) (fs fs' : Fs.t) :
  Fs.makedirs_from base rest fs = inr fs' → Fs.grows (base ++ rest) fs fs'.
Proof.
  revert base fs. induction rest as [|c rest IH]; intros base fs; simpl.
  - intros [= ->]. apply grows_refl.
  - replace (base ++ c :: rest) with ((base ++ [c]) ++ rest)
      by (by rewrite <- app_assoc).
    destruct (fs !! (base ++ [c])) as [[d|]|] eqn:Hk; [done | apply IH |].
    intros Hrec. apply IH in Hrec.
    eapply grows_trans; [| exact Hrec].
    eapply grows_weaken; [| apply insert_grows]. by apply prefix_app_r.
Qed.

(** Creating directories leaves the files as they are. *)
Lemma makedirs_from_file (rest base : list string) (fs fs' : Fs.t)
    (p : list string) (d : string) :
  Fs.makedirs_from base rest fs = inr fs' →
  fs' !! p = Some (File d) → fs !! p = Some (File d).
Proof.
  revert base fs. induction rest as [|c rest IH]; intros base fs; simpl.
  - by intros [= ->].
  - destruct (fs !! (base ++ [c])) as [[d'|]|] eqn:Hk; [done | apply IH |].
    intros Hrec Hp. specialize (IH _ _ Hrec Hp).
    destruct (decide (p = base ++ [c])) as [-> | Hne].
    + by rewrite lookup_insert_eq in IH.
    + by rewrite lookup_insert_ne in IH.
Qed.

Lemma open_w_grows (k : list string) (fs fs' : Fs.t) :
  Fs.open_w k fs = inr fs' → Fs.grows k fs fs'.
Proof.
  unfold Fs.open_w. destruct (Fs.writable fs k); [done |].
  intros [= <-]. apply insert_grows.
Qed.

Lemma append_grows (k : list string) (data : string) (fs fs' : Fs.t) :
  Fs.append k data fs = inr fs' → Fs.grows k fs fs'.
Proof.
  unfold Fs.append. destruct (Fs.writable fs k); [done |].
  destruct (fs !! k) as [[old|]|]; intros [= <-]; apply insert_grows.
Qed.

(** Unpacking one member: it ends (well or with an exception), records
    the member, and adds entries only on the way to the member. *)
Lemma extract_member_step target_dir m w :
  ∃ ks,
    ended (extract_member target_dir m w) ∧
    w_trace (result_world (extract_member target_dir m w)) =
      w_trace w ++ map FsExtract ks ∧
    (∀ p, is_Some (w_fs (result_world (extract_member target_dir m w)) !! p) →
          is_Some (w_fs w !! p) ∨
          ∃ km, resolve (Path.join target_dir m.1) = Some km ∧ p `prefix_of` km).
Proof.
  remember (extract_member target_dir m w) as r eqn:Hr.
  unfold extract_member, with_path in Hr.
  destruct (resolve (Path.join target_dir m.1)) as [km|] eqn:Hres.
  2: { subst r. exists []. split; [done |].
       split; [simpl; by rewrite app_nil_r | by left]. }
  assert (∀ fs' : Fs.t, Fs.grows km (w_fs w) fs' →
            ∀ p, is_Some (fs' !! p) →
                 is_Some (w_fs w !! p) ∨
                 ∃ km0, Some km = Some km0 ∧ p `prefix_of` km0) as Hwrap.
  { intros fs' Hg p Hp. destruct (Hg p Hp); [by left | right; by exists km]. }
  exists [km].
  unfold bind at 1, emit at 1 in Hr. unfold bind at 1, fs_do at 1 in Hr.
  cbn [w_fs add_event] in Hr.
  destruct (Fs.makedirs (Fs.parent km) (w_fs w)) as [e | fs1] eqn:Hmk.
  { subst r. split; [done |]. split; [done |]. apply Hwrap, grows_refl. }
  assert (Fs.grows km (w_fs w) fs1) as Hg1.
  { eapply grows_weaken; [apply prefix_parent |].
    by apply (makedirs_from_grows (Fs.parent km) []). }
  unfold bind at 1, fs_do at 1 in Hr. cbn [w_fs set_fs] in Hr.
  destruct (Fs.open_w km fs1) as [e | fs2] eqn:Hop.
  { subst r. split; [done |]. split; [done |]. by apply Hwrap. }
  assert (Fs.grows km (w_fs w) fs2) as Hg2.
  { eapply grows_trans; [exact Hg1 | by apply open_w_grows]. }
  unfold fs_do in Hr. cbn [w_fs set_fs] in Hr.
  destruct (Fs.append km m.2 fs2) as [e | fs3] eqn:Hap.
  { subst r. split; [done |]. split; [done |]. by apply Hwrap. }
  subst r. split; [done |]. split; [done |].
  apply Hwrap. eapply grows_trans; [exact Hg2 | by eapply append_grows].
Qed.

Lemma extractall_step target_dir ms rest w :
  (∀ m, m ∈ rest → m ∈ ms) →
  ∃ ks,
    ended (extractall target_dir rest w) ∧
    w_trace (result_world (extractall target_dir rest w)) =
      w_trace w ++ map FsExtract ks ∧
    (∀ p, is_Some (w_fs (result_world (extractall target_dir rest w)) !! p) →
          is_Some (w_fs w !! p) ∨ from_member target_dir ms p).
Proof.
  revert w. induction rest as [|m rest IH]; intros w Hsub.
  - exists []. split; [done |]. split; [simpl; by rewrite app_nil_r | by left].
  - cbn [extractall]. unfold bind.
    destruct (extract_member_step target_dir m w) as (ks1 & Hend1 & Htr1 & Hfs1).
    assert (∀ p, is_Some (w_fs (result_world (extract_member target_dir m w)) !! p) →
                 is_Some (w_fs w !! p) ∨ from_member target_dir ms p) as Hfs1'.
    { intros p Hp. destruct (Hfs1 p Hp) as [? | (km & Hres & Hpre)]; [by left |].
      right. exists m, km. split; [apply Hsub; left | done]. }
    destruct (extract_member target_dir m w) as [[] w1 | e w1 | w1]; [| | done].
    + simpl in Htr1, Hfs1'.
      destruct (IH w1) as (ks2 & Hend2 & Htr2 & Hfs2).
      { intros m' Hm'. apply Hsub. by right. }
      exists (ks1 ++ ks2). split; [exact Hend2 |].
      split; [by rewrite Htr2, Htr1, map_app, app_assoc |].
      intros p Hp. destruct (Hfs2 p Hp) as [Hp1 | ?]; [by apply Hfs1' | by right].
    + exists ks1. done.
Qed.

Lemma rmtree_spec (k : list string) (fs fs' : Fs.t) :
  Fs.rmtree k fs = inr fs' →
  (∀ p, k `prefix_of` p → fs' !! p = None) ∧
  (∀ p nd, fs' !! p = Some nd → fs !! p = Some nd).
Proof.
  unfold Fs.rmtree.
  destruct (Fs.lookup_node fs k) as [[d|]|]; [done | | done].
  destruct k as [|c k]; [done |]. intros [= <-]. split.
  - intros p Hp. apply map_lookup_filter_None. right. intros nd _ Hout.
    by apply Hout.
  - intros p nd Hp. by apply map_lookup_filter_Some in Hp as [? _].
Qed.


End ExtractFacts.



(** The safety check looks at the text of the absolute path. A deploy
    path of two slashes names the root as well, keeps its two slashes when
    made absolute, and so is not refused: the removal runs on the root. *)
Lemma root_alias_not_refused :
  Receiver.resolve (H := Demo.env) "//" = Some [] ∧
  Receiver.dangerous (H := Demo.env) "//" = false ∧
  Receiver.w_trace
    (Receiver.result_world
       (Receiver.extract_archive_to (H := Demo.env)
          (Receiver.ARCHIVE_PATH (H := Demo.env)) "//" Demo.staged))
  = [Receiver.FsRmtree []].
Proof. repeat split; reflexivity. Qed.

(** ** The loop survives every command *)

Section LoopFacts.
Context `{Externals}.

Import Receiver.

(** An exception raised while a header is handled is caught, logged and
    followed by a pause of one second: an iteration never raises. *)
Lemma main_iter_never_raises fuel w :
  match main_iter fuel w with
  | Raise _ _ => False
  | _ => True
  end.
Proof.
  unfold main_iter, try_except.
  by destruct (bind read_line _ w) as [[] w1 | e w1 | w1].
Qed.

(** A CONFIG header that does not split into two fields is answered with
    [ERR_CONFIG_HEADER]. *)
Lemma config_header_short_is_answered fuel header w :
  Py.startswith header "CONFIG" = true →
  length (Py.split 1 header) ≠ 2%nat →
  ∃ w',
    dispatch fuel header w = Ok tt w' ∧
    sent (w_trace w') = sent (w_trace w) ++ ["ERR_CONFIG_HEADER" +:+ NL].
Proof.
  intros Hstart Hlen. unfold dispatch. rewrite Hstart. unfold handle_config.
  destruct (Nat.eqb_spec (length (Py.split 1 header)) 2) as [? | _]; [done |].
  cbn [negb]. unfold bind, ser_write, emit, log. eexists. split; [done |].
  by sent_norm.
Qed.

End LoopFacts.

(** ** Header lines: what the controller formats, the agent parses *)

Section HeaderFacts.

Lemma rev_app_spec (s a : string) : String.rev_app s a = String.rev s +:+ a.
Proof.
  revert a. induction s as [|c s IH]; intros a; [done |].
  unfold String.rev. simpl.
  rewrite (IH (String c a)), (IH (String c EmptyString)).
  by rewrite str_app_assoc.
Qed.

Lemma rev_cons (c : ascii) (s : string) :
  String.rev (String c s) = String.rev s +:+ String c EmptyString.
Proof. unfold String.rev at 1. simpl. apply rev_app_spec. Qed.

Lemma rev_append (s t : string) :
  String.rev (s +:+ t) = String.rev t +:+ String.rev s.
Proof.
  induction s as [|c s IH].
  - by rewrite str_app_nil_l, str_app_nil_r.
  - by rewrite str_app_cons, !rev_cons, IH, str_app_assoc.
Qed.

Lemma rev_involutive (s : string) : String.rev (String.rev s) = s.
Proof.
  induction s as [|c s IH]; [done |].
  by rewrite rev_cons, rev_append, IH.
Qed.

Lemma no_space_app (s t : string) :
  Py.no_space (s +:+ t) = Py.no_space s && Py.no_space t.
Proof.
  induction s as [|c s IH]; [done |].
  rewrite str_app_cons. cbn [Py.no_space]. by rewrite IH, andb_assoc.
Qed.

Lemma no_space_rev (s : string) : Py.no_space (String.rev s) = Py.no_space s.
Proof.
  induction s as [|c s IH]; [done |].
  rewrite rev_cons, no_space_app, IH. cbn [Py.no_space].
  rewrite andb_true_r. apply andb_comm.
Qed.

Lemma rev_nonempty (s : string) : s ≠ EmptyString → String.rev s ≠ EmptyString.
Proof.
  intros Hs E. apply Hs. by rewrite <- (rev_involutive s), E.
Qed.

(** A field has nothing to strip on its left. *)
Lemma lstrip_field (f t : string) :
  Py.no_space f = true → f ≠ EmptyString → Py.lstrip (f +:+ t) = f +:+ t.
Proof.
  destruct f as [|c f]; [done |]. cbn [Py.no_space].
  intros [Hc _]%andb_true_iff _. apply negb_true_iff in Hc.
  rewrite str_app_cons. cbn [Py.lstrip]. by rewrite Hc.
Qed.

(** The newline after a last field is all there is to strip on the right. *)
Lemma rstrip_field_nl (a f : string) :
  Py.no_space f = true → f ≠ EmptyString →
  Py.rstrip ((a +:+ f) +:+ String "010"%char EmptyString) = a +:+ f.
Proof.
  intros Hf Hne. unfold Py.rstrip. rewrite !rev_append.
  change (String.rev (String "010"%char EmptyString))
    with (String "010"%char EmptyString).
  rewrite str_app_cons, str_app_nil_l. cbn [Py.lstrip].
  change (Py.isspace "010"%char) with true. cbn iota.
  rewrite lstrip_field by (by rewrite ?no_space_rev; try apply rev_nonempty).
  by rewrite rev_append, !rev_involutive.
Qed.

Lemma strip_line (c : ascii) (a f : string) :
  Py.isspace c = false → Py.no_space f = true → f ≠ EmptyString →
  Py.strip ((String c a +:+ f) +:+ String "010"%char EmptyString) = String c a +:+ f.
Proof.
  intros Hc Hf Hne. unfold Py.strip.
  rewrite !str_app_cons. cbn [Py.lstrip]. rewrite Hc.
  rewrite <- !str_app_cons. by apply rstrip_field_nl.
Qed.

Lemma span_word_field (f t : string) (c : ascii) :
  Py.no_space f = true → Py.isspace c = true →
  Py.span_word (f +:+ String c t) = (f, String c t).
Proof.
  intros Hf Hc. induction f as [|d f IH].
  - rewrite str_app_nil_l. cbn [Py.span_word]. by rewrite Hc.
  - cbn [Py.no_space] in Hf. apply andb_true_iff in Hf as [Hd Hf].
    apply negb_true_iff in Hd.
    rewrite str_app_cons. cbn [Py.span_word]. by rewrite Hd, (IH Hf).
Qed.

(** A field followed by a blank is the first item of the split. *)
Lemma split_field (k : nat) (f t : string) :
  Py.no_space f = true → f ≠ EmptyString →
  Py.split (S k) (f +:+ String " "%char t) = f :: Py.split k (String " "%char t).
Proof.
  intros Hf Hne. cbn [Py.split]. rewrite lstrip_field by done.
  rewrite span_word_field by done.
  destruct f as [|c f]; [done |]. by rewrite str_app_cons.
Qed.

Lemma split_last (f : string) :
  Py.no_space f = true → f ≠ EmptyString →
  Py.split 0 (String " "%char f) = [f].
Proof.
  intros Hf Hne. cbn [Py.split Py.lstrip].
  change (Py.isspace " "%char) with true. cbn iota.
  rewrite <- (str_app_nil_r f), lstrip_field by done. rewrite str_app_nil_r.
  by destruct f.
Qed.

Lemma pretty_N_char_digit (d : N) :
  (d < 10)%N →
  Ascii.is_nat (pretty_N_char d) = Some (N.to_nat d) ∧
  Py.isspace (pretty_N_char d) = false.
Proof.
  intros Hd.
  assert (d = 0 ∨ d = 1 ∨ d = 2 ∨ d = 3 ∨ d = 4 ∨ d = 5 ∨ d = 6 ∨ d = 7 ∨
          d = 8 ∨ d = 9)%N as Hcases by lia.
  repeat destruct Hcases as [-> | Hcases]; try subst d; done.
Qed.

Lemma pretty_N_go_no_space (x : N) (s : string) :
  Py.no_space s = true → Py.no_space (pretty_N_go x s) = true.
Proof.
  revert s. induction (N.lt_wf_0 x) as [x _ IH]; intros s Hs.
  destruct (decide (x = 0)%N) as [-> | Hx]; [by rewrite pretty_N_go_0 |].
  rewrite pretty_N_go_step by lia. apply IH.
  - apply N.div_lt; lia.
  - cbn [Py.no_space].
    destruct (pretty_N_char_digit (x `mod` 10)) as [_ ->]; [| done].
    apply N.mod_lt. lia.
Qed.

Lemma pretty_N_go_nonempty (x : N) (s : string) :
  s ≠ EmptyString → pretty_N_go x s ≠ EmptyString.
Proof.
  revert s. induction (N.lt_wf_0 x) as [x _ IH]; intros s Hs.
  destruct (decide (x = 0)%N) as [-> | Hx]; [by rewrite pretty_N_go_0 |].
  rewrite pretty_N_go_step by lia. apply IH; [apply N.div_lt; lia | done].
Qed.

(** Reading back the digits that [pretty] wrote. *)
Lemma int_digits_pretty_N_go (x : N) :
  (0 < x)%N →
  ∃ m, ∀ s acc seen,
    Py.int_digits acc seen (pretty_N_go x s) =
    Py.int_digits (acc * m + Z.of_N x) true s.
Proof.
  induction (N.lt_wf_0 x) as [x _ IH]; intros Hx.
  pose proof (N.div_mod x 10 ltac:(lia)) as Hdm.
  pose proof (N.mod_lt x 10 ltac:(lia)) as Hr.
  destruct (pretty_N_char_digit _ Hr) as [Hdigit _].
  destruct (decide (x `div` 10 = 0)%N) as [Hq | Hq].
  - exists 10. intros s acc seen. rewrite pretty_N_go_step by done.
    rewrite Hq, pretty_N_go_0. cbn [Py.int_digits]. rewrite Hdigit.
    f_equal. rewrite Hq in Hdm. lia.
  - destruct (IH (x `div` 10)%N) as [m Hm]; [apply N.div_lt; lia | lia |].
    exists (m * 10). intros s acc seen. rewrite pretty_N_go_step by done.
    rewrite Hm. cbn [Py.int_digits]. rewrite Hdigit. f_equal.
    revert Hdm. generalize (x `div` 10)%N (x `mod` 10)%N. intros q r Hdm. lia.
Qed.

Lemma pretty_nat_field (n : nat) :
  Py.no_space (pretty n) = true ∧ pretty n ≠ EmptyString.
Proof.
  change (pretty n) with (pretty (N.of_nat n)). unfold pretty, pretty_N.
  destruct (decide (N.of_nat n = 0%N)); [done |].
  split.
  - by apply pretty_N_go_no_space.
  - rewrite pretty_N_go_step by lia. by apply pretty_N_go_nonempty.
Qed.
End HeaderFacts.

Section HeaderParse.

Lemma strip_field (f : string) :
  Py.no_space f = true → f ≠ EmptyString → Py.strip f = f.
Proof.
  intros Hf Hne. unfold Py.strip, Py.rstrip.
  rewrite <- (str_app_nil_r f) at 1. rewrite lstrip_field by done.
  rewrite str_app_nil_r, <- (str_app_nil_r (String.rev f)).
  rewrite lstrip_field by (by rewrite ?no_space_rev; try apply rev_nonempty).
  by rewrite str_app_nil_r, rev_involutive.
Qed.

Lemma split_blank (k : nat) (t : string) :
  Py.split k (String " "%char t) = Py.split k t.
Proof. by destruct k. Qed.

(** A literal without a sign is read by its digits. *)
Lemma int_of_digits (t : string) (n : Z) :
  Py.strip t = t → Py.int_digits 0 false t = Some n → Py.int t = Some n.
Proof.
  intros Hstrip Hdigits. unfold Py.int. rewrite Hstrip.
  destruct t as [|c r]; [done |].
  destruct c as [[] [] [] [] [] [] [] []];
    first [exact Hdigits | (cbn in Hdigits; discriminate)].
Qed.

(** [int(str(n)) == n] for a size. *)
Lemma int_pretty_nat (n : nat) : Py.int (pretty n) = Some (Z.of_nat n).
Proof.
  destruct (pretty_nat_field n) as [Hns Hne].
  apply int_of_digits; [by apply strip_field |].
  change (pretty n) with (pretty (N.of_nat n)). unfold pretty, pretty_N.
  destruct (decide (N.of_nat n = 0%N)) as [H0 | Hpos].
  - replace n with 0%nat by lia. reflexivity.
  - destruct (int_digits_pretty_N_go (N.of_nat n)) as [m Hm]; [lia |].
    rewrite Hm. cbn [Py.int_digits]. f_equal. lia.
Qed.

(** The CONFIG header line, stripped and split. *)
Lemma config_header_fields (cfg_bytes : string) :
  Py.startswith (Py.strip (Uploader.config_header cfg_bytes)) "CONFIG" = true ∧
  Py.split 1 (Py.strip (Uploader.config_header cfg_bytes)) =
    ["CONFIG"; pretty (String.length cfg_bytes)] ∧
  Py.int (pretty (String.length cfg_bytes)) = Some (Z.of_nat (String.length cfg_bytes)).
Proof.
  destruct (pretty_nat_field (String.length cfg_bytes)) as [Hns Hne].
  replace (Uploader.config_header cfg_bytes)
    with ((String "C"%char "ONFIG " +:+ pretty (String.length cfg_bytes))
          +:+ String "010"%char EmptyString)
    by (unfold Uploader.config_header; by rewrite !str_app_assoc).
  rewrite strip_line by done.
  split; [reflexivity |]. split; [| apply int_pretty_nat].
  change (String "C"%char "ONFIG " +:+ pretty (String.length cfg_bytes))
    with ("CONFIG" +:+ String " "%char (pretty (String.length cfg_bytes))).
  rewrite split_field by done. by rewrite split_last.
Qed.

(** X1. The CONFIG header line that the controller writes for a payload
    is read by the agent as a CONFIG command with two fields, the second
    of which [int] reads back as the number of bytes of the payload. *)
Theorem config_header_parses (cfg_bytes : string) :
  Py.startswith (Py.strip (Uploader.config_header cfg_bytes)) "CONFIG" = true ∧
  Py.split 1 (Py.strip (Uploader.config_header cfg_bytes)) =
    ["CONFIG"; pretty (String.length cfg_bytes)] ∧
  Py.int (pretty (String.length cfg_bytes)) = Some (Z.of_nat (String.length cfg_bytes)).
Proof. apply config_header_fields. Qed.

(** The UPLOAD header line, stripped and split. *)
Lemma upload_header_fields (size : nat) (sha256 name : string) :
  Py.no_space sha256 = true → sha256 ≠ EmptyString →
  Py.no_space name = true → name ≠ EmptyString →
  Py.startswith (Py.strip (Uploader.upload_header size sha256 name)) "UPLOAD" = true ∧
  Py.split 3 (Py.strip (Uploader.upload_header size sha256 name)) =
    ["UPLOAD"; pretty size; sha256; name] ∧
  Py.int (pretty size) = Some (Z.of_nat size).
Proof.
  intros Hsha Hsha_ne Hname Hname_ne.
  destruct (pretty_nat_field size) as [Hns Hne].
  replace (Uploader.upload_header size sha256 name)
    with ((String "U"%char ("PLOAD " +:+ pretty size +:+ " " +:+ sha256 +:+ " ")
           +:+ name) +:+ String "010"%char EmptyString)
    by (unfold Uploader.upload_header; rewrite <- !str_app_cons;
        by rewrite !str_app_assoc).
  rewrite strip_line by done.
  split; [reflexivity |]. split; [| apply int_pretty_nat].
  replace (String "U"%char ("PLOAD " +:+ pretty size +:+ " " +:+ sha256 +:+ " ")
           +:+ name)
    with ("UPLOAD" +:+ String " "%char
            (pretty size +:+ String " "%char (sha256 +:+ String " "%char name)))
    by (rewrite <- !str_app_cons; by rewrite !str_app_assoc).
  rewrite split_field by done.
  rewrite split_blank, split_field by done.
  rewrite split_blank, split_field by done.
  by rewrite split_last.
Qed.

(** X2. The UPLOAD header line that the controller writes is read by the
    agent as an UPLOAD command with four fields: the size, which [int]
    reads back as the number it was written from, the digest and the
    name, provided digest and name are not empty and hold no blanks. *)
Theorem upload_header_parses (size : nat) (sha256 name : string) :
  Py.no_space sha256 = true → sha256 ≠ EmptyString →
  Py.no_space name = true → name ≠ EmptyString →
  Py.startswith (Py.strip (Uploader.upload_header size sha256 name)) "UPLOAD" = true ∧
  Py.split 3 (Py.strip (Uploader.upload_header size sha256 name)) =
    ["UPLOAD"; pretty size; sha256; name] ∧
  Py.int (pretty size) = Some (Z.of_nat size).
Proof. apply upload_header_fields. Qed.

End HeaderParse.

(** The header of a four-byte archive. *)
Lemma upload_header_parses_witness :
  Py.split 3 (Py.strip (Uploader.upload_header 4 "4" "__upload__.tar.gz")) =
    ["UPLOAD"; "4"; "4"; "__upload__.tar.gz"].
Proof.
  destruct (upload_header_parses 4 "4" "__upload__.tar.gz") as (_ & Hsplit & _);
    [reflexivity | discriminate | reflexivity | discriminate |].
  exact Hsplit.
Defined.

(** ** The payload on the wire *)

Section ChunkFacts.
Context `{Externals}.

Lemma take_nonempty (k : nat) (s : string) :
  k ≠ 0%nat → s ≠ EmptyString → Py.take k s ≠ EmptyString.
Proof. by destruct k, s. Qed.

Lemma drop_length (k : nat) (s : string) :
  String.length (Py.drop k s) = (String.length s - k)%nat.
Proof.
  revert s. induction k as [|k IH]; intros [|c s]; simpl; done.
Qed.

Lemma chunks_go_concat (fuel size : nat) (s : string) :
  size ≠ 0%nat → (String.length s ≤ fuel)%nat →
  foldr String.append EmptyString (Uploader.chunks_go fuel size s) = s.
Proof.
  intros Hsize. revert s. induction fuel as [|fuel IH]; intros s Hlen.
  - destruct s; [done | simpl in Hlen; lia].
  - destruct s as [|c s]; [done |].
    cbn [Uploader.chunks_go foldr]. rewrite IH; [apply take_drop |].
    rewrite drop_length. simpl in *. lia.
Qed.

Lemma chunks_go_bounds (fuel size : nat) (s : string) :
  size ≠ 0%nat →
  Forall (λ chunk, chunk ≠ EmptyString ∧ (String.length chunk ≤ size)%nat)
         (Uploader.chunks_go fuel size s).
Proof.
  intros Hsize. revert s. induction fuel as [|fuel IH]; intros s.
  - destruct s; constructor.
  - destruct s as [|c s]; [constructor |].
    cbn [Uploader.chunks_go]. constructor; [| apply IH].
    split; [by apply take_nonempty | apply take_length].
Qed.

Lemma foldl_append (chunks : list string) (fed : string) :
  foldl (λ fed chunk, fed +:+ chunk) fed chunks =
  fed +:+ foldr String.append EmptyString chunks.
Proof.
  revert fed. induction chunks as [|c chunks IH]; intros fed; simpl.
  - by rewrite str_app_nil_r.
  - by rewrite IH, str_app_assoc.
Qed.

(** X3. Reading the archive in blocks loses nothing: the blocks that
    [send_once] writes, none empty and none above 16384 bytes, put end to
    end are the archive; and the digest that [sha256_of_file] computes
    block by block is the digest of the whole archive. *)
Theorem file_chunks_reassemble (archive : string) :
  foldr String.append EmptyString (Uploader.file_chunks archive) = archive ∧
  Forall (λ chunk, chunk ≠ EmptyString ∧ Z.of_nat (String.length chunk) ≤ 16384)
         (Uploader.file_chunks archive) ∧
  Uploader.sha256_of_file archive = sha256_hexdigest archive.
Proof.
  split; [| split].
  - apply chunks_go_concat; [lia | done].
  - eapply Forall_impl; [apply (chunks_go_bounds _ (Z.to_nat 16384)); lia |].
    intros chunk [Hne Hlen]. split; [done | lia].
  - unfold Uploader.sha256_of_file. rewrite foldl_append, str_app_nil_l.
    rewrite chunks_go_concat; [done | lia | done].
Qed.

End ChunkFacts.

(** ** What an attempt writes, and in which order *)

Section WriteFacts.
Context `{Externals}.

Lemma writes_app (a b : list Uploader.link_event) :
  Uploader.writes (a ++ b) = Uploader.writes a ++ Uploader.writes b.
Proof. apply omap_app. Qed.

Lemma writes_log (msg : string) (w : Uploader.link) :
  Uploader.writes (Uploader.trace (Uploader.log msg w)) =
  Uploader.writes (Uploader.trace w).
Proof. simpl. rewrite writes_app. simpl. by rewrite app_nil_r. Qed.

Lemma writes_ser_write (bytes : string) (w : Uploader.link) :
  Uploader.writes (Uploader.trace (Uploader.ser_write bytes w)) =
  Uploader.writes (Uploader.trace w) ++ [bytes].
Proof. simpl. by rewrite writes_app. Qed.

Lemma writes_readline (w : Uploader.link) :
  Uploader.trace (Uploader.readline w).2 = Uploader.trace w.
Proof. unfold Uploader.readline. by destruct (Uploader.rx w) as [|[dt line] rest]. Qed.

Lemma writes_chunks (chunks : list string) (w : Uploader.link) :
  Uploader.writes
    (Uploader.trace (foldl (λ w chunk, Uploader.ser_write chunk w) w chunks)) =
  Uploader.writes (Uploader.trace w) ++ chunks.
Proof.
  revert w. induction chunks as [|c chunks IH]; intros w; simpl.
  - by rewrite app_nil_r.
  - rewrite IH, writes_ser_write. by rewrite <- app_assoc.
Qed.

(** The waits write nothing. *)
Lemma wait_ok_config_writes fuel t0 (w : Uploader.link) a w' :
  Uploader.wait_ok_config fuel t0 w = Some (a, w') →
  Uploader.writes (Uploader.trace w') = Uploader.writes (Uploader.trace w).
Proof.
  revert w. induction fuel as [|fuel IH]; intros w; [done |].
  cbn [Uploader.wait_ok_config].
  pose proof (writes_readline w) as Hrl.
  destruct (Uploader.readline w) as [line w1]. simpl in Hrl.
  destruct (Uploader.nonempty line).
  - destruct (String.eqb _ "OK_CONFIG").
    { intros [= <- <-]. by rewrite writes_log, Hrl. }
    destruct (Py.startswith _ "ERR").
    { intros [= <- <-]. by rewrite !writes_log, Hrl. }
    destruct (10000 <? _).
    { intros [= <- <-]. by rewrite !writes_log, Hrl. }
    intros Hrec. apply IH in Hrec. by rewrite Hrec, writes_log, Hrl.
  - destruct (10000 <? _).
    { intros [= <- <-]. by rewrite !writes_log, Hrl. }
    intros Hrec. apply IH in Hrec. by rewrite Hrec, Hrl.
Qed.

Lemma wait_ok_writes fuel t0 (w : Uploader.link) a w' :
  Uploader.wait_ok fuel t0 w = Some (a, w') →
  Uploader.writes (Uploader.trace w') = Uploader.writes (Uploader.trace w).
Proof.
  revert w. induction fuel as [|fuel IH]; intros w; [done |].
  cbn [Uploader.wait_ok].
  pose proof (writes_readline w) as Hrl.
  destruct (Uploader.readline w) as [line w1]. simpl in Hrl.
  destruct (Uploader.nonempty line).
  - destruct (String.eqb _ "OK").
    { intros [= <- <-]. by rewrite writes_log, Hrl. }
    destruct (Py.startswith _ "ERR").
    { intros [= <- <-]. by rewrite !writes_log, Hrl. }
    destruct (10000 <? _).
    { intros [= <- <-]. by rewrite !writes_log, Hrl. }
    intros Hrec. apply IH in Hrec. by rewrite Hrec, writes_log, Hrl.
  - destruct (10000 <? _).
    { intros [= <- <-]. by rewrite !writes_log, Hrl. }
    intros Hrec. apply IH in Hrec. by rewrite Hrec, Hrl.
Qed.

Lemma observe_writes fuel t_start (w w' : Uploader.link) :
  Uploader.observe fuel t_start w = Some w' →
  Uploader.writes (Uploader.trace w') = Uploader.writes (Uploader.trace w).
Proof.
  revert w. induction fuel as [|fuel IH]; intros w; [done |].
  cbn [Uploader.observe].
  destruct (_ <? 10000); [| by intros [= <-]].
  pose proof (writes_readline w) as Hrl.
  destruct (Uploader.readline w) as [line w1]. simpl in Hrl.
  destruct (Uploader.nonempty line); intros Hrec; apply IH in Hrec;
    rewrite Hrec; [by rewrite writes_log, Hrl |].
  simpl. rewrite writes_app. simpl. by rewrite app_nil_r, Hrl.
Qed.

(** The wait for the result writes [RUN], once, exactly when it ends
    with success. *)
Lemma await_result_writes fuel (w : Uploader.link) ok reason w' :
  Uploader.await_result fuel w = Some (ok, reason, w') →
  (ok = true ∧ reason = "DONE" ∧
   Uploader.writes (Uploader.trace w') =
     Uploader.writes (Uploader.trace w) ++ ["RUN" +:+ Uploader.NL]) ∨
  (ok = false ∧ Py.startswith reason "ERR_CHECKSUM" = true ∧
   Uploader.writes (Uploader.trace w') = Uploader.writes (Uploader.trace w)).
Proof.
  revert w. induction fuel as [|fuel IH]; intros w; [done |].
  cbn [Uploader.await_result].
  pose proof (writes_readline w) as Hrl.
  destruct (Uploader.readline w) as [line w1]. simpl in Hrl.
  destruct (Uploader.nonempty line); cbn [negb].
  - destruct (String.eqb _ "DONE").
    + destruct (Uploader.observe _ _ _) as [w2|] eqn:Hobs; [| done].
      intros [= <- <- <-]. left. split; [done |]. split; [done |].
      apply observe_writes in Hobs. rewrite Hobs.
      by rewrite writes_log, writes_ser_write, !writes_log, Hrl.
    + destruct (Py.startswith (Uploader.decode_resp line) "ERR_CHECKSUM") eqn:Herr.
      * intros [= <- <- <-]. right. split; [done |]. split; [done |].
        by rewrite writes_log, Hrl.
      * intros Hrec. apply IH in Hrec. by rewrite writes_log, Hrl in Hrec.
  - intros Hrec. apply IH in Hrec.
    assert (Uploader.writes (Uploader.trace (Uploader.sleep 50 w1)) =
            Uploader.writes (Uploader.trace w)) as Hs.
    { simpl. rewrite writes_app. simpl. by rewrite app_nil_r, Hrl. }
    by rewrite Hs in Hrec.
Qed.

(** What a read gives is the next item of the script, or nothing when
    the script is used up. *)
Lemma readline_script (w : Uploader.link) :
  (Uploader.rx w = [] ∧ (Uploader.readline w).1 = EmptyString ∧
   Uploader.rx (Uploader.readline w).2 = []) ∨
  (∃ dt, Uploader.rx w =
           (dt, (Uploader.readline w).1) :: Uploader.rx (Uploader.readline w).2).
Proof.
  unfold Uploader.readline. destruct (Uploader.rx w) as [|[dt line] rest].
  - by left.
  - right. by exists dt.
Qed.

Lemma script_step (w w1 : Uploader.link) (line : string) before e after :
  Uploader.readline w = (line, w1) →
  Uploader.rx w1 = before ++ e :: after →
  ∃ dt, Uploader.rx w = ((dt, line) :: before) ++ e :: after.
Proof.
  intros Hrl Hrest. destruct (readline_script w) as [(_ & _ & Hnil) | [dt Hcons]];
    rewrite Hrl in *; simpl in *.
  - rewrite Hnil in Hrest. by destruct before.
  - exists dt. by rewrite Hcons, Hrest.
Qed.

Lemma script_head (w w1 : Uploader.link) (line : string) :
  Uploader.readline w = (line, w1) →
  Uploader.nonempty line = true →
  ∃ dt, Uploader.rx w = (dt, line) :: Uploader.rx w1.
Proof.
  intros Hrl Hline. destruct (readline_script w) as [(_ & Hempty & _) | [dt Hcons]];
    rewrite Hrl in *; simpl in *.
  - by subst line.
  - by exists dt.
Qed.

(** A wait ends with an acknowledgement only by reading it. *)
Lemma wait_ok_config_read fuel t0 (w w' : Uploader.link) :
  Uploader.wait_ok_config fuel t0 w = Some (Uploader.Acked, w') →
  ∃ before dt line,
    Uploader.rx w = before ++ (dt, line) :: Uploader.rx w' ∧
    Uploader.nonempty line = true ∧
    Uploader.decode_resp line = "OK_CONFIG".
Proof.
  revert w. induction fuel as [|fuel IH]; intros w; [done |].
  cbn [Uploader.wait_ok_config].
  destruct (Uploader.readline w) as [line w1] eqn:Hrl.
  destruct (Uploader.nonempty line) eqn:Hline.
  - destruct (String.eqb (Uploader.decode_resp line) "OK_CONFIG") eqn:Heq.
    { intros [= <-]. destruct (script_head _ _ _ Hrl Hline) as [dt Hrx].
      exists [], dt, line. by apply String.eqb_eq in Heq. }
    destruct (Py.startswith (Uploader.decode_resp line) "ERR"); [done |].
    destruct (10000 <? _); [done |].
    intros Hrec. destruct (IH _ Hrec) as (before & dt & l & Hrx & Hl & Hd).
    destruct (script_step _ _ _ _ _ _ Hrl Hrx) as [dt0 Hrx0].
    by eexists _, _, _.
  - destruct (10000 <? _); [done |].
    intros Hrec. destruct (IH _ Hrec) as (before & dt & l & Hrx & Hl & Hd).
    destruct (script_step _ _ _ _ _ _ Hrl Hrx) as [dt0 Hrx0].
    by eexists _, _, _.
Qed.

Lemma wait_ok_read fuel t0 (w w' : Uploader.link) :
  Uploader.wait_ok fuel t0 w = Some (Uploader.Acked, w') →
  ∃ before dt line,
    Uploader.rx w = before ++ (dt, line) :: Uploader.rx w' ∧
    Uploader.nonempty line = true ∧
    Uploader.decode_resp line = "OK".
Proof.
  revert w. induction fuel as [|fuel IH]; intros w; [done |].
  cbn [Uploader.wait_ok].
  destruct (Uploader.readline w) as [line w1] eqn:Hrl.
  destruct (Uploader.nonempty line) eqn:Hline.
  - destruct (String.eqb (Uploader.decode_resp line) "OK") eqn:Heq.
    { intros [= <-]. destruct (script_head _ _ _ Hrl Hline) as [dt Hrx].
      exists [], dt, line. by apply String.eqb_eq in Heq. }
    destruct (Py.startswith (Uploader.decode_resp line) "ERR"); [done |].
    destruct (10000 <? _); [done |].
    intros Hrec. destruct (IH _ Hrec) as (before & dt & l & Hrx & Hl & Hd).
    destruct (script_step _ _ _ _ _ _ Hrl Hrx) as [dt0 Hrx0].
    by eexists _, _, _.
  - destruct (10000 <? _); [done |].
    intros Hrec. destruct (IH _ Hrec) as (before & dt & l & Hrx & Hl & Hd).
    destruct (script_step _ _ _ _ _ _ Hrl Hrx) as [dt0 Hrx0].
    by eexists _, _, _.
Qed.

(** The wait for the result ends only by reading the line it reports. *)
Lemma await_result_read fuel (w : Uploader.link) ok reason w' :
  Uploader.await_result fuel w = Some (ok, reason, w') →
  ∃ before dt line after,
    Uploader.rx w = before ++ (dt, line) :: after ∧
    Uploader.nonempty line = true ∧
    Uploader.decode_resp line = reason.
Proof.
  revert w. induction fuel as [|fuel IH]; intros w; [done |].
  cbn [Uploader.await_result].
  destruct (Uploader.readline w) as [line w1] eqn:Hrl.
  destruct (Uploader.nonempty line) eqn:Hline; cbn [negb].
  - destruct (String.eqb (Uploader.decode_resp line) "DONE") eqn:Heq.
    + destruct (Uploader.observe _ _ _) as [w2|]; [| done].
      intros [= _ <- _]. destruct (script_head _ _ _ Hrl Hline) as [dt Hrx].
      exists [], dt, line, (Uploader.rx w1). by apply String.eqb_eq in Heq.
    + destruct (Py.startswith (Uploader.decode_resp line) "ERR_CHECKSUM").
      * intros [= _ <- _]. destruct (script_head _ _ _ Hrl Hline) as [dt Hrx].
        by exists [], dt, line, (Uploader.rx w1).
      * intros Hrec.
        destruct (IH _ Hrec) as (before & dt & l & after & Hrx & Hl & Hd).
        destruct (script_step _ _ _ _ _ _ Hrl Hrx) as [dt0 Hrx0].
        by eexists _, _, _, _.
  - intros Hrec.
    destruct (IH _ Hrec) as (before & dt & l & after & Hrx & Hl & Hd).
    destruct (script_step _ _ _ _ _ _ Hrl Hrx) as [dt0 Hrx0].
    by eexists _, _, _, _.
Qed.

(** X4. What an attempt that returns has written, in order, and what it
    had to read for it. It always writes the CONFIG header and the
    config. It writes the UPLOAD header only if it has read a line
    [OK_CONFIG] from the link; the blocks of the archive only if, after
    that line, it has read a line [OK]; and [RUN], last, only if after
    those two it has read [DONE]. On a link that does not carry these
    lines in this order the later writes do not happen. An attempt that
    fails has written no [RUN]; one that fails on the checksum has read
    the [ERR_CHECKSUM] line it reports after the two acknowledgements. *)
Theorem send_once_writes fuel name archive cfg (w : Uploader.link) ok reason w' :
  Uploader.send_once fuel name archive cfg w = Some (ok, reason, w') →
  ∃ rest,
    Uploader.writes (Uploader.trace w') =
      Uploader.writes (Uploader.trace w) ++
      [Uploader.config_header (json_dumps cfg); json_dumps cfg] ++ rest ∧
    ((ok = false ∧ rest = []) ∨
     (ok = false ∧
      rest = [Uploader.upload_header (String.length archive)
                (sha256_hexdigest archive) name] ∧
      Uploader.received ["OK_CONFIG"] (Uploader.rx w)) ∨
     (ok = false ∧ Py.startswith reason "ERR_CHECKSUM" = true ∧
      rest = Uploader.upload_header (String.length archive)
               (sha256_hexdigest archive) name :: Uploader.file_chunks archive ∧
      Uploader.received ["OK_CONFIG"; "OK"; reason] (Uploader.rx w)) ∨
     (ok = true ∧ reason = "DONE" ∧
      rest = Uploader.upload_header (String.length archive)
               (sha256_hexdigest archive) name :: Uploader.file_chunks archive ++
             ["RUN" +:+ Uploader.NL] ∧
      Uploader.received ["OK_CONFIG"; "OK"; "DONE"] (Uploader.rx w))).
Proof.
  unfold Uploader.send_once.
  set (w1 := Uploader.ser_write (json_dumps cfg) _).
  assert (Uploader.writes (Uploader.trace w1) =
          Uploader.writes (Uploader.trace w) ++
          [Uploader.config_header (json_dumps cfg); json_dumps cfg]) as Hw1.
  { unfold w1. rewrite !writes_ser_write, !writes_log.
    by rewrite <- app_assoc. }
  assert (Uploader.rx w1 = Uploader.rx w) as Hrx1 by done.
  clearbody w1.
  destruct (Uploader.wait_ok_config fuel (Uploader.clock w1) w1)
    as [[a1 w2]|] eqn:Hwait1; [| done].
  pose proof (wait_ok_config_writes _ _ _ _ _ Hwait1) as Hwr1.
  cbn [mbind option_bind].
  destruct a1 as [|reason1].
  2: { intros [= <- <- <-]. exists []. rewrite Hwr1, Hw1. split; [done |].
       by left. }
  destruct (wait_ok_config_read _ _ _ _ Hwait1) as (b1 & dt1 & l1 & Hs1 & Hl1 & Hd1).
  rewrite Hrx1 in Hs1.
  set (w3 := Uploader.ser_write _ (Uploader.log "Sending UPLOAD header." w2)).
  assert (Uploader.writes (Uploader.trace w3) =
          Uploader.writes (Uploader.trace w) ++
          [Uploader.config_header (json_dumps cfg); json_dumps cfg] ++
          [Uploader.upload_header (String.length archive)
             (sha256_hexdigest archive) name]) as Hw3.
  { unfold w3. rewrite writes_ser_write, writes_log, Hwr1, Hw1.
    by rewrite <- app_assoc. }
  assert (Uploader.rx w3 = Uploader.rx w2) as Hrx3 by done.
  clearbody w3.
  destruct (Uploader.wait_ok fuel (Uploader.clock w3) w3)
    as [[a2 w4]|] eqn:Hwait2; [| done].
  pose proof (wait_ok_writes _ _ _ _ _ Hwait2) as Hwr2.
  cbn [mbind option_bind].
  destruct a2 as [|reason2].
  2: { intros [= <- <- <-]. eexists. rewrite Hwr2, Hw3. split; [done |].
       right. left. split; [done |]. split; [done |].
       cbn [Uploader.received]. by eexists _, _, _, _. }
  destruct (wait_ok_read _ _ _ _ Hwait2) as (b2 & dt2 & l2 & Hs2 & Hl2 & Hd2).
  rewrite Hrx3 in Hs2.
  intros Hres.
  destruct (await_result_read _ _ _ _ _ Hres)
    as (b3 & dt3 & l3 & after3 & Hs3 & Hl3 & Hd3).
  cbn [Uploader.log Uploader.emit Uploader.rx] in Hs3.
  rewrite foldl_ser_write_rx in Hs3. cbn [Uploader.log Uploader.emit Uploader.rx] in Hs3.
  assert (Uploader.received ["OK_CONFIG"; "OK"; reason] (Uploader.rx w)) as Hrecv.
  { cbn [Uploader.received].
    exists b1, dt1, l1, (Uploader.rx w2). split; [done |]. split; [done |].
    split; [done |].
    exists b2, dt2, l2, (Uploader.rx w4). split; [done |]. split; [done |].
    split; [done |].
    exists b3, dt3, l3, after3. done. }
  apply await_result_writes in Hres.
  rewrite writes_log, writes_chunks, writes_log, Hwr2, Hw3 in Hres.
  destruct Hres as [(-> & -> & Hres) | (-> & Herr & Hres)].
  - eexists. split.
    + rewrite Hres. rewrite <- !app_assoc. simpl. done.
    + right. right. right. done.
  - eexists. split.
    + rewrite Hres. rewrite <- !app_assoc. simpl. done.
    + right. right. left. done.
Qed.

End WriteFacts.

(** An attempt on which the agent acknowledges every step. *)
Lemma send_once_writes_witness :
  ∃ w' rest,
    Uploader.send_once (H := Demo.env) 20 "__upload__.tar.gz" "abcd" Demo.deploy_config
      (Uploader.Link [(1%nat, "OK_CONFIG" +:+ Uploader.NL);
                      (1%nat, "OK" +:+ Uploader.NL);
                      (1%nat, "DONE" +:+ Uploader.NL)] 0 [])
    = Some (true, "DONE", w') ∧
    Uploader.writes (Uploader.trace w') =
      ["CONFIG 2" +:+ Uploader.NL; "{}"] ++ rest.
Proof.
  set (w := Uploader.Link [(1%nat, "OK_CONFIG" +:+ Uploader.NL);
                           (1%nat, "OK" +:+ Uploader.NL);
                           (1%nat, "DONE" +:+ Uploader.NL)] 0 []).
  destruct (Uploader.send_once (H := Demo.env) 20 "__upload__.tar.gz" "abcd"
              Demo.deploy_config w) as [[[ok reason] w']|] eqn:Hrun;
    [| vm_compute in Hrun; discriminate].
  destruct (send_once_writes (H := Demo.env) _ _ _ _ _ _ _ _ Hrun)
    as (rest & Hwrites & _).
  assert (ok = true ∧ reason = "DONE") as [-> ->].
  { vm_compute in Hrun. by injection Hrun as <- <- _. }
  exists w', rest. split; [done | exact Hwrites].
Defined.

(** ** How the waits of an attempt end *)

Section EndFacts.
Context `{Externals}.

(** X5. The waits for [OK_CONFIG] and for [OK] cannot block: whatever the
    agent sends or fails to send, each ends within one iteration per read
    that returns something and six more, with the expected token, with an
    [ERR] line as the reason, or, more than ten seconds after it began,
    with its timeout reason. *)
Theorem ack_waits_end t0 (w : Uploader.link) :
  t0 ≤ Uploader.clock w →
  (∃ r, Uploader.wait_ok_config (length (Uploader.rx w) + 6) t0 w = Some r ∧
        Uploader.ack_outcome "TIMEOUT_OK_CONFIG" t0 r) ∧
  (∃ r, Uploader.wait_ok (length (Uploader.rx w) + 6) t0 w = Some r ∧
        Uploader.ack_outcome "TIMEOUT_OK" t0 r).
Proof.
  intros Hclock. split; [by apply wait_ok_config_ends | by apply wait_ok_ends].
Qed.

Lemma observe_unfold fuel t_start (w : Uploader.link) :
  Uploader.observe (S fuel) t_start w =
  if Uploader.clock w - t_start <? 10000 then
    let '(line, w) := Uploader.readline w in
    if Uploader.nonempty line then
      let s := default line (utf8_decode line) in
      Uploader.observe fuel t_start (Uploader.log ("-> Pi (run): " +:+ Py.strip s) w)
    else Uploader.observe fuel t_start (Uploader.sleep 50 w)
  else Some w.
Proof. reflexivity. Qed.

Lemma observe_silent t_start n clock trace :
  10000 ≤ clock - t_start + 2050 * Z.of_nat n →
  ∃ w', Uploader.observe (S n) t_start (Uploader.Link [] clock trace) = Some w' ∧
        10000 ≤ Uploader.clock w' - t_start.
Proof.
  revert clock trace. induction n as [|n IH]; intros clock trace Hlate;
    rewrite observe_unfold; cbn [Uploader.clock];
    destruct (Z.ltb_spec (clock - t_start) 10000) as [Hin | Hout];
    try (eexists; split; [done | simpl; lia]).
  - lia.
  - cbn [Uploader.readline Uploader.rx Uploader.nonempty
           Uploader.clock Uploader.trace].
    unfold Uploader.sleep. cbn [Uploader.rx Uploader.clock Uploader.trace].
    apply IH. lia.
Qed.

(** The window after [RUN] closes: ten seconds after it opened, within
    one iteration per read that returns something and six more. *)
Lemma observe_ends t_start (w : Uploader.link) :
  t_start ≤ Uploader.clock w →
  ∃ w', Uploader.observe (length (Uploader.rx w) + 6) t_start w = Some w' ∧
        10000 ≤ Uploader.clock w' - t_start.
Proof.
  destruct w as [script clock trace]. simpl. revert clock trace.
  induction script as [|[dt line] script IH]; intros clock trace Hclock.
  - apply (observe_silent t_start 5). lia.
  - cbn [length Nat.add]. rewrite observe_unfold. cbn [Uploader.clock].
    destruct (Z.ltb_spec (clock - t_start) 10000) as [Hin | Hout];
      [| eexists; split; [done | simpl; lia]].
    cbn [Uploader.readline Uploader.rx Uploader.clock Uploader.trace].
    destruct (Uploader.nonempty line).
    + unfold Uploader.log, Uploader.emit.
      cbn [Uploader.rx Uploader.clock Uploader.trace].
      apply IH. lia.
    + unfold Uploader.sleep. cbn [Uploader.rx Uploader.clock Uploader.trace].
      apply IH. lia.
Qed.

(** X6. Once the payload is out, reads that time out and lines that are
    neither [DONE] nor an [ERR_CHECKSUM] line (progress reports, for
    one) are passed over. When [DONE] comes after them the controller
    writes [RUN], keeps reading the link, and returns success no earlier
    than ten seconds after it read [DONE]; when an [ERR_CHECKSUM] line
    comes the attempt fails with that line as the reason at the moment
    the line is read, writing nothing. *)
Theorem await_result_verdict skipped dt line later clock trace :
  Forall (λ e : nat * string,
            Uploader.nonempty e.2 = true →
            String.eqb (Uploader.decode_resp e.2) "DONE" = false ∧
            Py.startswith (Uploader.decode_resp e.2) "ERR_CHECKSUM" = false)
         skipped →
  Uploader.nonempty line = true →
  (Uploader.decode_resp line = "DONE" →
   ∃ w', Uploader.await_result (length skipped + S (length later + 6))
           (Uploader.Link (skipped ++ (dt, line) :: later) clock trace)
         = Some (true, "DONE", w') ∧
         Uploader.writes (Uploader.trace w') =
           Uploader.writes trace ++ ["RUN" +:+ Uploader.NL] ∧
         10000 ≤ Uploader.clock w' -
                 (clock + Uploader.skip_time skipped + Z.of_nat dt)) ∧
  (String.eqb (Uploader.decode_resp line) "DONE" = false →
   Py.startswith (Uploader.decode_resp line) "ERR_CHECKSUM" = true →
   ∃ w', Uploader.await_result (length skipped + S (length later + 6))
           (Uploader.Link (skipped ++ (dt, line) :: later) clock trace)
         = Some (false, Uploader.decode_resp line, w') ∧
         Uploader.writes (Uploader.trace w') = Uploader.writes trace ∧
         Uploader.clock w' = clock + Uploader.skip_time skipped + Z.of_nat dt).
Proof.
  intros Hskip Hline. revert clock trace.
  induction Hskip as [|[dt0 line0] skipped Hfirst _ IH]; intros clock trace.
  - cbn [length Nat.add app Uploader.await_result Uploader.readline Uploader.rx
           Uploader.clock Uploader.trace Uploader.skip_time foldr].
    rewrite Hline. cbn [negb]. split.
    + intros Hdone. rewrite Hdone. change (String.eqb "DONE" "DONE") with true.
      cbn iota.
      match goal with
      | |- ∃ w', (Uploader.observe _ ?t ?w ≫= _) = _ ∧ _ =>
          destruct (observe_ends t w) as (w2 & Hobs & Hlate); [simpl; lia |];
          pose proof (observe_writes _ _ _ _ Hobs) as Hwr
      end.
      cbn [Uploader.log Uploader.ser_write Uploader.emit Uploader.rx
             Uploader.clock Uploader.trace] in Hobs, Hlate.
      cbn [Uploader.log Uploader.ser_write Uploader.emit Uploader.rx
             Uploader.clock Uploader.trace].
      rewrite Hobs. cbn [mbind option_bind].
      eexists. split; [done |]. split; [| lia]. rewrite Hwr.
      rewrite writes_log, writes_ser_write, !writes_log. done.
    + intros Hnot Herr. rewrite Hnot, Herr.
      eexists. split; [done |]. split; [by rewrite writes_log |].
      simpl. lia.
  - cbn [length Nat.add app Uploader.await_result Uploader.readline Uploader.rx
           Uploader.clock Uploader.trace Uploader.skip_time foldr fst snd].
    fold (Uploader.skip_time skipped).
    simpl in Hfirst.
    destruct (Uploader.nonempty line0); cbn [negb].
    + destruct (Hfirst eq_refl) as [-> ->].
      destruct (IH (clock + Z.of_nat dt0)
                  (trace ++ [Uploader.LogLine ("-> Pi: " +:+ Uploader.decode_resp line0)]))
        as [Hdone Hfail].
      rewrite writes_app in Hdone, Hfail. simpl in Hdone, Hfail.
      rewrite app_nil_r in Hdone, Hfail.
      split.
      * intros Hd. destruct (Hdone Hd) as (w' & Hrun & Hwr & Hclk).
        exists w'. split; [exact Hrun |]. split; [exact Hwr | lia].
      * intros Hn He. destruct (Hfail Hn He) as (w' & Hrun & Hwr & Hclk).
        exists w'. split; [exact Hrun |]. split; [exact Hwr | lia].
    + destruct (IH (clock + Z.of_nat dt0 + 50) (trace ++ [Uploader.TimeSleep 50]))
        as [Hdone Hfail].
      rewrite writes_app in Hdone, Hfail. simpl in Hdone, Hfail.
      rewrite app_nil_r in Hdone, Hfail.
      split.
      * intros Hd. destruct (Hdone Hd) as (w' & Hrun & Hwr & Hclk).
        exists w'. split; [exact Hrun |]. split; [exact Hwr | lia].
      * intros Hn He. destruct (Hfail Hn He) as (w' & Hrun & Hwr & Hclk).
        exists w'. split; [exact Hrun |]. split; [exact Hwr | lia].
Qed.

End EndFacts.

(** A link whose clock stands at zero, the wait having begun then. *)
Lemma ack_waits_end_witness :
  ∃ r, Uploader.wait_ok_config (H := Demo.env) 6 0 (Uploader.Link [] 0 []) = Some r ∧
       Uploader.ack_outcome "TIMEOUT_OK_CONFIG" 0 r.
Proof.
  destruct (ack_waits_end (H := Demo.env) 0 (Uploader.Link [] 0 [])) as [Hfirst _];
    [simpl; lia |].
  exact Hfirst.
Defined.

(** A read that times out and a progress report, then [DONE], read 2060
    ms after the wait began. *)
Lemma await_result_verdict_witness :
  ∃ w', Uploader.await_result (H := Demo.env) 9
          (Uploader.Link [(2000%nat, EmptyString);
                          (5%nat, "PROGRESS 65536" +:+ Uploader.NL);
                          (5%nat, "DONE" +:+ Uploader.NL)] 0 [])
        = Some (true, "DONE", w') ∧
        Uploader.writes (Uploader.trace w') = ["RUN" +:+ Uploader.NL] ∧
        10000 ≤ Uploader.clock w' - 2060.
Proof.
  destruct (await_result_verdict (H := Demo.env)
              [(2000%nat, EmptyString); (5%nat, "PROGRESS 65536" +:+ Uploader.NL)]
              5%nat ("DONE" +:+ Uploader.NL) [] 0 []) as [Hdone _].
  - repeat constructor; simpl; intros; done.
  - reflexivity.
  - apply Hdone. reflexivity.
Defined.

(** ** More on the archive builder *)

Section ArchiveOrderFacts.
Variable fnmatch : string → string → bool.

Lemma should_include_same rel (pats pats' : list string) :
  (∀ pat, pat ∈ pats ↔ pat ∈ pats') →
  Uploader.should_include fnmatch rel pats = Uploader.should_include fnmatch rel pats'.
Proof.
  intros Hsame. apply Bool.eq_true_iff_eq. rewrite !should_include_true.
  split; intros (pat & Hin & Hm); exists pat; (split; [by apply Hsame | done]).
Qed.

Lemma should_exclude_same rel (pats pats' : list string) :
  (∀ pat, pat ∈ pats ↔ pat ∈ pats') →
  Uploader.should_exclude fnmatch rel pats = Uploader.should_exclude fnmatch rel pats'.
Proof.
  intros Hsame.
  assert (Uploader.should_exclude fnmatch rel pats = false ↔
          Uploader.should_exclude fnmatch rel pats' = false) as Hiff.
  { rewrite !should_exclude_false.
    split; intros Hall pat Hin; apply Hall; by apply Hsame. }
  destruct Hiff as [H1 H2].
  destruct (Uploader.should_exclude fnmatch rel pats),
    (Uploader.should_exclude fnmatch rel pats'); try done.
  - by apply H2.
  - symmetry. by apply H1.
Qed.

Lemma add_file_sublist incl excl root (files : list string) :
  flat_map (Uploader.add_file fnmatch incl excl root) files
    `sublist_of` map (Uploader.rel_posix root) files.
Proof.
  induction files as [|file files IH]; [done |]. cbn [flat_map map].
  unfold Uploader.add_file at 1.
  destruct (String.eqb _ "config.json"); [by apply sublist_skip |].
  destruct (negb _); [by apply sublist_cons |].
  destruct (Uploader.should_exclude _ _ _); [by apply sublist_cons |].
  by apply sublist_skip.
Qed.

(** X7. The archive lists files in the order of the walk and adds none
    that the walk does not give: its member names are a subsequence of
    the relative paths of the tree. So no file is archived more often
    than the walk names it: when the paths of the tree are pairwise
    different, so are the member names. *)
Theorem make_archive_sublist walk cfg :
  Uploader.make_archive fnmatch walk cfg `sublist_of` Uploader.tree_files walk ∧
  (NoDup (Uploader.tree_files walk) → NoDup (Uploader.make_archive fnmatch walk cfg)).
Proof.
  assert (Uploader.make_archive fnmatch walk cfg
            `sublist_of` Uploader.tree_files walk) as Hsub.
  { unfold Uploader.make_archive, Uploader.tree_files.
    induction walk as [|[[root dirs] files] walk IH]; [done |].
    cbn [flat_map]. apply sublist_app; [apply add_file_sublist | apply IH]. }
  split; [done |]. intros Hnd. by eapply sublist_NoDup.
Qed.

(** X8. Only the set of patterns counts: two configs whose include lists
    hold the same patterns, and whose exclude lists do, in whatever order
    and however often repeated, give the same archive. *)
Theorem make_archive_pattern_sets walk cfg cfg' :
  (∀ pat, pat ∈ default ["**"] (cfg_include cfg) ↔
          pat ∈ default ["**"] (cfg_include cfg')) →
  (∀ pat, pat ∈ default [] (cfg_exclude cfg) ↔
          pat ∈ default [] (cfg_exclude cfg')) →
  Uploader.make_archive fnmatch walk cfg = Uploader.make_archive fnmatch walk cfg'.
Proof.
  intros Hincl Hexcl. unfold Uploader.make_archive.
  apply flat_map_ext. intros [[root dirs] files].
  apply flat_map_ext. intros file. unfold Uploader.add_file.
  by rewrite (should_include_same _ _ _ Hincl), (should_exclude_same _ _ _ Hexcl).
Qed.

End ArchiveOrderFacts.

Section ArchiveDefaultFacts.

Lemma matches_star (s : string) : Fnmatch.matches [Fnmatch.TStar] s = true.
Proof. induction s as [|c s IH]; [done |]. exact IH. Qed.

Lemma flat_map_singleton {A B} (f : A → B) (l : list A) :
  flat_map (λ x, [f x]) l = map f l.
Proof. induction l as [|x l IH]; [done |]. simpl. by rewrite IH. Qed.

(** X9. A config without include and exclude keys (or with the defaults
    that [load_config] fills in, include everything and exclude nothing)
    archives the whole tree: on a POSIX host the pattern of two stars
    matches every relative path, directories included in it or not. *)
Theorem make_archive_default_takes_all walk cfg :
  default ["**"] (cfg_include cfg) = ["**"] →
  default [] (cfg_exclude cfg) = [] →
  (∀ name, Fnmatch.fnmatch name "**" = true) ∧
  Uploader.make_archive Fnmatch.fnmatch walk cfg = Uploader.tree_files walk ∧
  Uploader.make_archive Fnmatch.fnmatch walk (setdefaults cfg) = Uploader.tree_files walk.
Proof.
  intros Hincl Hexcl.
  assert (∀ name, Fnmatch.fnmatch name "**" = true) as Hstar.
  { intros name. apply matches_star. }
  assert (∀ root file,
            Uploader.add_file Fnmatch.fnmatch ["**"] [] root file
            = [Uploader.rel_posix root file]) as Hadd.
  { intros root file. unfold Uploader.add_file.
    destruct (String.eqb _ "config.json"); [done |].
    cbn [Uploader.should_include Uploader.should_exclude]. by rewrite Hstar. }
  assert (∀ c, default ["**"] (cfg_include c) = ["**"] →
               default [] (cfg_exclude c) = [] →
               Uploader.make_archive Fnmatch.fnmatch walk c = Uploader.tree_files walk)
    as Hall.
  { intros c Hi He. unfold Uploader.make_archive, Uploader.tree_files.
    rewrite Hi, He. apply flat_map_ext. intros [[root dirs] files].
    rewrite <- flat_map_singleton. apply flat_map_ext. intros file. apply Hadd. }
  split; [done |]. split; [by apply Hall |].
  apply Hall; simpl; by rewrite ?Hincl, ?Hexcl.
Qed.

End ArchiveDefaultFacts.

(** The same patterns in another order, one of them twice. *)
Lemma make_archive_pattern_sets_witness :
  Uploader.make_archive Fnmatch.fnmatch
    [([], [], ["app.py"; "data.log"; "notes.txt"])]
    (Config None None None (Some ["*.py"; "*.txt"]) (Some ["*.log"]) None)
  = Uploader.make_archive Fnmatch.fnmatch
    [([], [], ["app.py"; "data.log"; "notes.txt"])]
    (Config None None None (Some ["*.txt"; "*.py"; "*.txt"]) (Some ["*.log"]) None).
Proof.
  apply (make_archive_pattern_sets Fnmatch.fnmatch); intros pat; simpl;
    rewrite ?elem_of_cons, ?elem_of_nil; tauto.
Defined.

(** A config that names a directory only. *)
Lemma make_archive_default_takes_all_witness :
  Uploader.make_archive Fnmatch.fnmatch
    [([], ["src"], ["config.json"; "run.log"]); (["src"], [], ["app.py"])]
    (Config (Some "/deploy") None None None None None)
  = ["config.json"; "run.log"; "src/app.py"].
Proof.
  destruct (make_archive_default_takes_all
              [([], ["src"], ["config.json"; "run.log"]); (["src"], [], ["app.py"])]
              (Config (Some "/deploy") None None None None None))
    as (_ & Hall & _); [reflexivity | reflexivity |].
  exact Hall.
Defined.

(** ** What a command leaves alone *)

Section FrameFacts.
Context `{Externals}.

Import Receiver.

Lemma keeps_ret {A B} (f : world → B) (a : A) : keeps f (ret a).
Proof. done. Qed.

Lemma keeps_raise {A B} (f : world → B) (e : exn) : keeps f (raise (A := A) e).
Proof. done. Qed.

Lemma keeps_spin {A B} (f : world → B) : keeps f (spin (A := A)).
Proof. done. Qed.

Lemma keeps_bind {A B C} (f : world → C) (m : M A) (k : A → M B) :
  keeps f m → (∀ a, keeps f (k a)) → keeps f (bind m k).
Proof.
  intros Hm Hk w. unfold bind. specialize (Hm w).
  destruct (m w) as [a w1 | e w1 | w1]; simpl in *; [| done | done].
  by rewrite (Hk a w1).
Qed.

Lemma keeps_try {A B} (f : world → B) (m : M A) (h : exn → M A) :
  keeps f m → (∀ e, keeps f (h e)) → keeps f (try_except m h).
Proof.
  intros Hm Hh w. unfold try_except. specialize (Hm w).
  destruct (m w) as [a w1 | e w1 | w1]; simpl in *; [done | | done].
  by rewrite (Hh e w1).
Qed.

Lemma keeps_with_path {A B} (f : world → B) (p : string) (g : list string → M A) :
  (∀ k, keeps f (g k)) → keeps f (with_path p g).
Proof.
  intros Hg. unfold with_path. destruct (resolve p); [apply Hg | apply keeps_raise].
Qed.

Lemma keeps_inputs_config {A} (m : M A) : keeps inputs m → keeps w_config m.
Proof. intros Hm w. specialize (Hm w). unfold inputs in Hm. congruence. Qed.

Lemma keeps_inputs_stream {A} (m : M A) : keeps inputs m → keeps stream m.
Proof.
  intros Hm w. specialize (Hm w). unfold inputs in Hm. unfold stream. congruence.
Qed.

Lemma keeps_emit (e : event) : keeps inputs (emit e).
Proof. done. Qed.

Lemma keeps_log (msg : string) : keeps inputs (log msg).
Proof. done. Qed.

Lemma keeps_fs_do (op : Fs.t → exn + Fs.t) : keeps inputs (fs_do op).
Proof. intros w. unfold fs_do. by destruct (op (w_fs w)). Qed.

Lemma keeps_path_exists (p : string) : keeps inputs (path_exists p).
Proof. done. Qed.

(** Composite commands, from the pieces. *)
Ltac frame :=
  repeat first
    [ match goal with |- ∀ _, _ => intro end
    | apply keeps_ret | apply keeps_raise | apply keeps_spin
    | apply keeps_emit | apply keeps_log | apply keeps_fs_do
    | apply keeps_path_exists
    | apply keeps_bind | apply keeps_try ].

Lemma keeps_rmtree (p : string) : keeps inputs (rmtree p).
Proof.
  unfold rmtree. apply keeps_with_path. intros k.
  apply keeps_bind; [apply keeps_emit |]. intros _ w.
  by destruct (Fs.rmtree _ (w_fs w)) as [[e fs'] | fs'].
Qed.

Lemma keeps_makedirs (p : string) : keeps inputs (makedirs p).
Proof. unfold makedirs. apply keeps_with_path. frame. Qed.

Lemma keeps_tar_open (p : string) : keeps inputs (tar_open p).
Proof.
  unfold tar_open. apply keeps_with_path. intros k w.
  destruct (Fs.lookup_node _ _) as [[data|]|]; try done.
  by destruct (tar_members data).
Qed.

Lemma keeps_extractall (target_dir : string) (ms : list (string * string)) :
  keeps inputs (extractall target_dir ms).
Proof.
  induction ms as [|m ms IH]; cbn [extractall]; [frame |].
  apply keeps_bind; [| by intros _].
  unfold extract_member. apply keeps_with_path. frame.
Qed.

Lemma keeps_extract_archive_to (archive_path target_dir : string) :
  keeps inputs (extract_archive_to archive_path target_dir).
Proof.
  unfold extract_archive_to. apply keeps_try; [| frame].
  apply keeps_bind; [frame |]. intros present.
  destruct (_ && _); [frame |].
  apply keeps_bind; [destruct present; [apply keeps_rmtree | frame] |]. intros _.
  apply keeps_bind; [apply keeps_makedirs |]. intros _.
  apply keeps_bind; [apply keeps_tar_open |]. intros ms.
  apply keeps_bind; [apply keeps_extractall | frame].
Qed.

Lemma keeps_stream_lines (lines : list string) : keeps inputs (stream_lines lines).
Proof.
  induction lines as [|line lines IH]; cbn [stream_lines]; [frame |].
  destruct line; [done |].
  apply keeps_bind; [frame |]. intros _.
  apply keeps_bind; [frame | by intros _].
Qed.

Lemma keeps_run_with_config (cfg : config) : keeps inputs (run_with_config cfg).
Proof.
  unfold run_with_config.
  apply keeps_bind; [frame |]. intros present.
  destruct (negb present); [frame |].
  apply keeps_bind; [frame |]. intros _.
  apply keeps_bind; [frame |]. intros _.
  unfold supervise.
  destruct (popen _) as [detail | output fin]; [frame |].
  apply keeps_bind; [frame |]. intros _.
  apply keeps_bind; [apply keeps_stream_lines |]. intros _.
  destruct fin; frame.
Qed.

Lemma keeps_config_ser_read (size : Z) : keeps w_config (ser_read size).
Proof.
  intros w. by destruct (ser_read_spec size w) as (chunk & buf & arr & -> & _).
Qed.

Lemma keeps_config_read_line : keeps w_config read_line.
Proof.
  intros w. unfold read_line, bind.
  destruct (ser_readline_frame w) as (line & buf & arr & ->).
  destruct line; [done |]. by destruct (utf8_decode _).
Qed.

Lemma keeps_config_recv_n_loop fuel n buf : keeps w_config (recv_n_loop fuel n buf).
Proof.
  revert buf. induction fuel as [|fuel IH]; intros buf;
    rewrite recv_n_loop_unfold; destruct (len buf <? n); try done.
  apply keeps_bind; [apply keeps_config_ser_read |].
  intros [|c chunk]; [| apply IH].
  apply keeps_bind; [apply keeps_inputs_config, keeps_emit | intros _; apply IH].
Qed.

Lemma keeps_config_read_exact_loop fuel n out got last hashed :
  keeps w_config (read_exact_loop fuel n out (Some progress_cb) got last hashed).
Proof.
  revert got last hashed. induction fuel as [|fuel IH]; intros got last hashed;
    rewrite read_exact_loop_unfold; destruct (got <? n); try done.
  apply keeps_bind; [apply keeps_config_ser_read |].
  intros [|c chunk].
  - apply keeps_bind; [apply keeps_inputs_config, keeps_emit | intros _; apply IH].
  - apply keeps_bind; [apply keeps_inputs_config, keeps_fs_do |].
    intros _. cbn zeta. destruct (PROGRESS_INTERVAL <=? _); [| apply IH].
    apply keeps_bind; [apply keeps_inputs_config, keeps_emit | intros _; apply IH].
Qed.

Lemma keeps_config_handle_upload fuel cfg header :
  keeps w_config (handle_upload fuel cfg header).
Proof.
  assert (keeps w_config
            (ser_write ("ERR_HEADER" +:+ NL) ;;; log ("Bad UPLOAD header: " +:+ header)))
    as Hbad by (apply keeps_inputs_config; frame).
  unfold handle_upload.
  destruct (Py.split 3 header) as [|f1 [|size_s [|expected [|name [|? ?]]]]]; try done.
  destruct (Py.int size_s) as [size|]; [| apply keeps_inputs_config; frame].
  apply keeps_bind.
  { apply keeps_inputs_config. unfold begin_upload.
    apply keeps_bind; [apply keeps_makedirs | frame]. }
  intros _. apply keeps_bind.
  { unfold read_exact. apply keeps_with_path. intros out.
    apply keeps_bind; [apply keeps_inputs_config, keeps_emit |]. intros _.
    apply keeps_bind; [apply keeps_inputs_config, keeps_fs_do |]. intros _.
    apply keeps_config_read_exact_loop. }
  intros [got actual]. apply keeps_inputs_config.
  unfold finish_upload.
  apply keeps_bind; [frame |]. intros _.
  destruct (negb _).
  - apply keeps_bind; [frame |]. intros _.
    apply keeps_bind; [frame |]. intros _.
    apply keeps_try; [| frame]. apply keeps_with_path. frame.
  - apply keeps_bind; [frame |]. intros _.
    apply keeps_bind; [apply keeps_extract_archive_to |].
    intros [[] err]; unfold report_extraction; frame.
Qed.

(** Every branch of [dispatch] but the CONFIG one. *)
Lemma keeps_config_dispatch fuel header :
  Py.startswith header "CONFIG" = false → keeps w_config (dispatch fuel header).
Proof.
  intros Hnot w. unfold dispatch. rewrite Hnot.
  destruct (Py.startswith header "UPLOAD").
  - destruct (w_config w) as [cfg|] eqn:Hcfg.
    + rewrite <- Hcfg. apply keeps_config_handle_upload.
    + by rewrite <- Hcfg.
  - destruct (String.eqb header "RUN"); [| done].
    destruct (w_config w) as [cfg|] eqn:Hcfg.
    + rewrite <- Hcfg. unfold bind, log.
      by rewrite (keeps_inputs_config _ (keeps_run_with_config cfg)).
    + by rewrite <- Hcfg.
Qed.

End FrameFacts.

(** ** The config across iterations *)

Section ConfigInvariantFacts.
Context `{Externals}.

Import Receiver.

Lemma receive_config_spec fuel size w :
  w_config (result_world (receive_config fuel size w)) = w_config w ∧
  ∀ c w1, receive_config fuel size w = Ok (Some c) w1 → ∃ c0, c = setdefaults c0.
Proof.
  unfold receive_config, bind, recv_n.
  pose proof (keeps_config_recv_n_loop fuel size EmptyString w) as Hkeep.
  destruct (recv_n_loop fuel size EmptyString w) as [raw w1 | e w1 | w1];
    simpl in Hkeep; [| done | done].
  destruct (json_loads raw) as [detail | | c0]; simpl; (split; [done |]); try done.
  intros c w2 [= <- <-]. by exists c0.
Qed.

Lemma handle_config_config fuel header w :
  w_config (result_world (handle_config fuel header w)) = w_config w ∨
  ∃ c, w_config (result_world (handle_config fuel header w)) = Some (setdefaults c).
Proof.
  remember (handle_config fuel header w) as r eqn:Hr.
  unfold handle_config in Hr.
  destruct (negb _); [left; by subst r |].
  destruct (Py.int _) as [size|]; [| left; by subst r].
  unfold bind at 1 in Hr.
  destruct (receive_config_spec fuel size w) as [Hkeep Hnorm].
  destruct (receive_config fuel size w) as [[c|] w1 | e w1 | w1];
    simpl in Hkeep; subst r; [| by left .. ].
  destruct (Hnorm c w1 eq_refl) as [c0 ->]. right. by exists c0.
Qed.

Lemma handler_config (m : M unit) w :
  w_config (result_world
    (try_except m (λ e, log ("Exception: " +:+ exn_str e) ;;; sleep 1000) w)) =
  w_config (result_world (m w)).
Proof. unfold try_except. by destruct (m w). Qed.

Lemma main_iter_config fuel w :
  w_config (result_world (main_iter fuel w)) = w_config w ∨
  ∃ c, w_config (result_world (main_iter fuel w)) = Some (setdefaults c).
Proof.
  unfold main_iter. rewrite !handler_config. unfold bind.
  pose proof (keeps_config_read_line w) as Hread.
  destruct (read_line w) as [header w1 | e w1 | w1]; simpl in Hread;
    [| by left | by left].
  destruct header as [[|c h]|]; [by left | | by left].
  rewrite <- Hread.
  destruct (Py.startswith (String c h) "CONFIG") eqn:Hkind.
  - unfold dispatch. rewrite Hkind. apply handle_config_config.
  - left. by apply keeps_config_dispatch.
Qed.

(** X10. Only a CONFIG command changes the config. An iteration of the
    loop that reads nothing, or a header that does not begin with CONFIG
    (an UPLOAD, a RUN, anything else), ends with the config it began
    with, whether the command succeeds, fails, raises or is still
    reading its payload. *)
Theorem config_changes_only_by_CONFIG fuel w header w1 :
  read_line w = Ok header w1 →
  (∀ h, header = Some h → Py.startswith h "CONFIG" = false) →
  w_config (result_world (main_iter fuel w)) = w_config w.
Proof.
  intros Hread Hkind. unfold main_iter. rewrite handler_config. unfold bind.
  pose proof (keeps_config_read_line w) as Hkeep. rewrite Hread in Hkeep |- *.
  simpl in Hkeep.
  destruct header as [[|c h]|]; [done | | done].
  rewrite <- Hkeep. apply keeps_config_dispatch. by apply Hkind.
Qed.

(** X11. The loop goes on whatever it is sent: no number of iterations
    ends with an exception. A config, once set, stays set: every later
    iteration either leaves the config as it is or replaces it by a
    config received with CONFIG, in which the include and exclude lists
    have been filled in. *)
Theorem main_loop_keeps_going fuel n w :
  match main_loop fuel n w with Raise _ _ => False | _ => True end ∧
  (w_config (result_world (main_iter fuel w)) = w_config w ∨
   ∃ c, w_config (result_world (main_iter fuel w)) = Some (setdefaults c)) ∧
  (is_Some (w_config w) → is_Some (w_config (result_world (main_loop fuel n w)))).
Proof.
  split; [| split; [apply main_iter_config |]].
  - revert w. induction n as [|n IH]; intros w; [done |].
    cbn [main_loop]. unfold bind.
    pose proof (main_iter_never_raises fuel w) as Hiter.
    destruct (main_iter fuel w) as [[] w1 | e w1 | w1]; [apply IH | done | done].
  - revert w. induction n as [|n IH]; intros w Hset; [done |].
    cbn [main_loop]. unfold bind.
    assert (is_Some (w_config (result_world (main_iter fuel w)))) as Hnext.
    { destruct (main_iter_config fuel w) as [-> | [c ->]]; [done | by eexists]. }
    destruct (main_iter fuel w) as [[] w1 | e w1 | w1]; [by apply IH | done | done].
Qed.

End ConfigInvariantFacts.

(** A RUN command, on an agent that has a config. *)
Lemma config_changes_only_by_CONFIG_witness :
  Receiver.w_config
    (Receiver.result_world
       (Receiver.main_iter (H := Demo.env) 0 (Demo.configured ["RUN" +:+ Receiver.NL])))
  = Some Demo.deploy_config.
Proof.
  apply (config_changes_only_by_CONFIG (H := Demo.env) 0
           (Demo.configured ["RUN" +:+ Receiver.NL]) (Some "RUN")
           (Receiver.set_rx "" [] (Demo.configured ["RUN" +:+ Receiver.NL]))).
  - reflexivity.
  - intros h [= <-]. reflexivity.
Defined.

(** ** Payload reads on a link that delivers *)

Section DeliveryFacts.
Context `{Externals}.

Import Receiver.

Lemma str_app_split (a b c d : string) :
  a +:+ b = c +:+ d → (String.length c ≤ String.length a)%nat →
  ∃ a', a = c +:+ a' ∧ d = a' +:+ b.
Proof.
  revert a. induction c as [|x c IH]; intros a Heq Hlen.
  - exists a. by rewrite str_app_nil_l in Heq.
  - destruct a as [|y a]; [simpl in Hlen; lia |].
    rewrite !str_app_cons in Heq. injection Heq as -> Heq.
    destruct (IH a Heq) as (a' & -> & ->); [simpl in Hlen; lia |].
    exists a'. by rewrite str_app_cons.
Qed.

(** A read hands over the next bytes of the stream, at most as many as
    asked for; it comes back empty-handed only after waiting for an
    arrival. *)
Lemma ser_read_stream size w :
  ∃ chunk buf arr,
    ser_read size w = Ok chunk (set_rx buf arr w) ∧
    (String.length chunk ≤ Z.to_nat size)%nat ∧
    stream w = chunk +:+ stream (set_rx buf arr w) ∧
    (length arr ≤ length (w_arrivals w))%nat ∧
    (chunk = EmptyString → 0 < size → stream w ≠ EmptyString →
     (length arr < length (w_arrivals w))%nat).
Proof.
  unfold ser_read, take_bytes, stream. cbn [w_rxbuf w_arrivals set_rx].
  destruct (Nat.leb_spec (Z.to_nat size) (String.length (w_rxbuf w))) as [Hle | Hgt].
  - eexists _, _, _. split; [done |]. split; [apply take_length |].
    split; [by rewrite <- str_app_assoc, take_drop |]. split; [done |].
    intros Hempty Hsize _. exfalso. revert Hempty. apply take_nonempty; [lia |].
    destruct (w_rxbuf w); [simpl in Hle; lia | done].
  - eexists _, _, _. split; [done |]. split; [apply take_length |].
    destruct (w_arrivals w) as [|a arr]; cbn [head tail default foldr length].
    + split; [by rewrite <- str_app_assoc, take_drop, !str_app_nil_r |].
      split; [done |]. intros Hempty Hsize Hstream. exfalso.
      rewrite str_app_nil_r in Hempty, Hstream. revert Hempty.
      apply take_nonempty; [lia | done].
    + split; [by rewrite <- !str_app_assoc, take_drop |]. split; lia.
Qed.

Lemma recv_n_loop_receives fuel n buf data rest w :
  stream w = data +:+ rest →
  len buf + len data = n →
  (length (w_arrivals w) + String.length data ≤ fuel)%nat →
  ∃ w', recv_n_loop fuel n buf w = Ok (buf +:+ data) w' ∧
        stream w' = rest ∧ w_config w' = w_config w ∧ w_fs w' = w_fs w ∧
        sent (w_trace w') = sent (w_trace w).
Proof.
  revert buf data w.
  induction fuel as [|fuel IH]; intros buf data w Hstream Hn Hfuel;
    rewrite recv_n_loop_unfold;
    destruct (Z.ltb_spec (len buf) n) as [Hlt | Hge];
    try (destruct data; [| unfold len in *; simpl in *; lia];
         exists w; by rewrite str_app_nil_r).
  { exfalso. unfold len in *. lia. }
  unfold bind at 1.
  destruct (ser_read_stream (n - len buf) w)
    as (chunk & b & arr & -> & Hlen & Hst & Harr & Hempty).
  rewrite Hstream in Hst.
  destruct (str_app_split _ _ _ _ Hst) as (data' & Hdata & Hrest);
    [unfold len in *; lia |].
  assert (stream w ≠ EmptyString) as Hmore.
  { rewrite Hstream. destruct data; [unfold len in *; simpl in *; lia | done]. }
  destruct chunk as [|c chunk].
  - rewrite str_app_nil_l in Hdata. subst data'.
    unfold bind, sleep, emit.
    destruct (IH buf data (add_event (Sleep 10) (set_rx b arr w)))
      as (w' & -> & ? & ? & ? & Hsent); [done | done | |].
    { specialize (Hempty eq_refl ltac:(lia) Hmore). simpl. lia. }
    exists w'. repeat split; try done. rewrite Hsent. by sent_norm.
  - subst data.
    destruct (IH (buf +:+ String c chunk) data' (set_rx b arr w))
      as (w' & -> & ? & ? & ? & Hsent); [done | | |].
    { unfold len in *. rewrite !str_length_app in *. lia. }
    { rewrite str_length_app in Hfuel. simpl in *. lia. }
    exists w'. by rewrite str_app_assoc.
Qed.

Lemma read_exact_loop_receives fuel n out got last hashed data rest w :
  stream w = data +:+ rest →
  got + len data = n →
  (length (w_arrivals w) + String.length data ≤ fuel)%nat →
  Fs.writable (w_fs w) out = None →
  w_fs w !! out = Some (File hashed) →
  ∃ w', read_exact_loop fuel n out (Some progress_cb) got last hashed w
          = Ok (n, sha256_hexdigest (hashed +:+ data)) w' ∧
        stream w' = rest ∧
        w_fs w' !! out = Some (File (hashed +:+ data)).
Proof.
  revert got last hashed data w.
  induction fuel as [|fuel IH];
    intros got last hashed data w Hstream Hn Hfuel Hw Hfile;
    rewrite read_exact_loop_unfold;
    destruct (Z.ltb_spec got n) as [Hlt | Hge];
    try (destruct data; [| unfold len in *; simpl in *; lia];
         exists w; rewrite str_app_nil_r; unfold len in Hn; simpl in Hn;
         by replace got with n by lia).
  { exfalso. unfold len in *. lia. }
  unfold bind at 1.
  destruct (ser_read_stream (Z.min 16384 (n - got)) w)
    as (chunk & b & arr & -> & Hlen & Hst & Harr & Hempty).
  rewrite Hstream in Hst.
  destruct (str_app_split _ _ _ _ Hst) as (data' & Hdata & Hrest);
    [unfold len in *; lia |].
  assert (stream w ≠ EmptyString) as Hmore.
  { rewrite Hstream. destruct data; [unfold len in *; simpl in *; lia | done]. }
  destruct chunk as [|c chunk].
  - rewrite str_app_nil_l in Hdata. subst data'.
    unfold bind, sleep, emit.
    apply IH; try done.
    specialize (Hempty eq_refl ltac:(lia) Hmore). simpl. lia.
  - subst data. unfold bind at 1, fs_do. cbn [w_fs set_rx].
    destruct (append_writable (w_fs w) out (String c chunk) Hw) as (fs' & Happ & Hw').
    pose proof (append_file _ _ _ _ _ Happ Hfile) as Hfile'.
    rewrite Happ. cbn zeta.
    rewrite <- (str_app_assoc hashed (String c chunk) data').
    assert (got + len (String c chunk) + len data' = n) as Hn'.
    { unfold len in *. rewrite str_length_app in Hn. lia. }
    assert (length arr + String.length data' ≤ fuel)%nat as Hfuel'.
    { rewrite str_length_app in Hfuel. simpl in *. lia. }
    destruct (PROGRESS_INTERVAL <=? _).
    + unfold bind at 1. rewrite progress_cb_eq. by apply IH.
    + by apply IH.
Qed.

(** X12. When the link carries the config, [recv_n] returns it: if the
    bytes still to be read begin with [data], a read of as many bytes
    returns exactly [data], however the bytes are cut into arrivals,
    after at most one poll per arrival and per byte. What follows [data]
    on the link stays there for the next command; nothing is sent, and
    the filesystem and the config are as before. *)
Theorem recv_n_receives fuel data rest w :
  stream w = data +:+ rest →
  (length (w_arrivals w) + String.length data ≤ fuel)%nat →
  ∃ w', recv_n fuel (len data) w = Ok data w' ∧
        stream w' = rest ∧ w_config w' = w_config w ∧ w_fs w' = w_fs w ∧
        sent (w_trace w') = sent (w_trace w).
Proof.
  intros Hstream Hfuel. unfold recv_n.
  destruct (recv_n_loop_receives fuel (len data) EmptyString data rest w)
    as (w' & Hrun & Hrest); [done | done | done |].
  exists w'. by rewrite str_app_nil_l in Hrun.
Qed.

(** The staging read on a link that carries the bytes. *)
Lemma read_exact_delivers fuel data rest w :
  stream w = data +:+ rest →
  (length (w_arrivals w) + String.length data ≤ fuel)%nat →
  Fs.writable (w_fs w) archive_key = None →
  ∃ w', read_exact fuel (len data) ARCHIVE_PATH (Some progress_cb) w
          = Ok (len data, sha256_hexdigest data) w' ∧
        stream w' = rest ∧
        w_fs w' !! archive_key = Some (File data) ∧
        (∀ k, k ≠ archive_key → w_fs w' !! k = w_fs w !! k) ∧
        w_config w' = w_config w.
Proof.
  intros Hstream Hfuel Hw.
  assert (∃ w', read_exact fuel (len data) ARCHIVE_PATH (Some progress_cb) w
                  = Ok (len data, sha256_hexdigest data) w' ∧
                stream w' = rest ∧
                w_fs w' !! archive_key = Some (File data))
    as (w' & Hread & Hrest & Hfile).
  { unfold read_exact, with_path. rewrite resolve_ARCHIVE_PATH.
    unfold bind at 1, emit at 1. unfold bind at 1, fs_do. cbn [w_fs add_event].
    unfold Fs.open_w. rewrite Hw.
    destruct (read_exact_loop_receives fuel (len data) archive_key 0 0
                EmptyString data rest
                (set_fs (<[archive_key := File EmptyString]> (w_fs w))
                   (add_event (FsOpenW archive_key) w)))
      as (w' & Hrun & Hrest & Hfile);
      [done | lia | done | by apply writable_insert_file
      | simpl; by rewrite lookup_insert_eq |].
    exists w'. by rewrite str_app_nil_l in Hrun, Hfile. }
  exists w'. split; [done |]. split; [done |]. split; [done |].
  destruct (read_exact_ok _ _ _ _ _ _ Hread) as (_ & _ & _ & _ & _ & Hother & Hcfg).
  done.
Qed.

(** X13. When the link carries the archive, [read_exact] stages it: if
    the bytes still to be read begin with [data] and the staging file
    can be written, a read of as many bytes returns that count and the
    digest of [data], and the staging file then holds exactly [data],
    whatever it held before. What follows [data] on the link stays
    there; no other entry of the filesystem changes, nor the config. *)
Theorem read_exact_receives fuel data rest w :
  stream w = data +:+ rest →
  (length (w_arrivals w) + String.length data ≤ fuel)%nat →
  Fs.writable (w_fs w) archive_key = None →
  ∃ w', read_exact fuel (len data) ARCHIVE_PATH (Some progress_cb) w
          = Ok (len data, sha256_hexdigest data) w' ∧
        stream w' = rest ∧
        w_fs w' !! archive_key = Some (File data) ∧
        (∀ k, k ≠ archive_key → w_fs w' !! k = w_fs w !! k) ∧
        w_config w' = w_config w.
Proof. apply read_exact_delivers. Qed.

End DeliveryFacts.

(** A two-byte config that arrives in two pieces, a header behind it. *)
Lemma recv_n_receives_witness :
  ∃ w', Receiver.recv_n 4 2 (Demo.idle ["{"; "}RUN" +:+ Receiver.NL])
          = Receiver.Ok "{}" w' ∧
        Receiver.stream w' = "RUN" +:+ Receiver.NL.
Proof.
  destruct (recv_n_receives 4 "{}" ("RUN" +:+ Receiver.NL)
              (Demo.idle ["{"; "}RUN" +:+ Receiver.NL]))
    as (w' & Hrun & Hrest & _); [reflexivity | simpl; lia |].
  by exists w'.
Defined.

(** A four-byte archive that arrives in two pieces. *)
Lemma read_exact_receives_witness :
  ∃ w', Receiver.read_exact (H := Demo.env) 6 4 (Receiver.ARCHIVE_PATH (H := Demo.env))
          (Some Receiver.progress_cb) (Demo.configured ["ab"; "cdRUN" +:+ Receiver.NL])
          = Receiver.Ok (4, "4") w' ∧
        Receiver.w_fs w' !! ["home"; "pi"; "app"; "__upload__.tar.gz"]
          = Some (File "abcd").
Proof.
  destruct (read_exact_receives (H := Demo.env) 6 "abcd" ("RUN" +:+ Receiver.NL)
              (Demo.configured ["ab"; "cdRUN" +:+ Receiver.NL]))
    as (w' & Hrun & _ & Hfile & _); [reflexivity | simpl; lia | reflexivity |].
  by exists w'.
Defined.

(** ** CONFIG: what becomes of the payload *)

Section ConfigPayloadFacts.
Context `{Externals}.

Import Receiver.

Lemma recv_n_loop_quiet fuel n buf :
  keeps (λ w, (sent (w_trace w), w_fs w)) (recv_n_loop fuel n buf).
Proof.
  revert buf. induction fuel as [|fuel IH]; intros buf;
    rewrite recv_n_loop_unfold; destruct (len buf <? n); try done.
  apply keeps_bind.
  { intros w. by destruct (ser_read_spec (n - len buf) w) as (chunk & b & arr & -> & _). }
  intros [|c chunk]; [| apply IH].
  apply keeps_bind; [| intros _; apply IH].
  intros w. simpl. by rewrite sent_app, app_nil_r.
Qed.

Lemma dispatch_config fuel header field size_s size w :
  Py.startswith header "CONFIG" = true →
  Py.split 1 header = [field; size_s] →
  Py.int size_s = Some size →
  dispatch fuel header w =
    (cfg <- receive_config fuel size ;;
     match cfg with
     | None =>
         ser_write ("ERR_CONFIG_PARSE" +:+ NL) ;;;
         log "Failed to parse config; ignoring."
     | Some c =>
         (λ w, Ok tt (set_config (Some c) w)) ;;;
         ser_write ("OK_CONFIG" +:+ NL) ;;;
         log ("Config received: " +:+ repr_config c)
     end) w.
Proof.
  intros Hstart Hsplit Hint. unfold dispatch. rewrite Hstart.
  unfold handle_config. rewrite Hsplit. simpl. by rewrite Hint.
Qed.

(** X14. A CONFIG command whose payload has been read. If the payload
    is a JSON object, it becomes the config, with the include and
    exclude lists filled in where the object has none, and the agent
    answers [OK_CONFIG]. If the payload does not decode or parse, the
    agent answers [ERR_CONFIG_PARSE] and keeps the config it had. Either
    way nothing else is sent and only the log file is written. *)
Theorem config_payload_answered fuel header field size_s size w raw w1 :
  Py.startswith header "CONFIG" = true →
  Py.split 1 header = [field; size_s] →
  Py.int size_s = Some size →
  recv_n fuel size w = Ok raw w1 →
  (∀ c, json_loads raw = JsonObject c →
     ∃ w', dispatch fuel header w = Ok tt w' ∧
           w_config w' = Some (setdefaults c) ∧
           is_Some (cfg_include (setdefaults c)) ∧
           is_Some (cfg_exclude (setdefaults c)) ∧
           sent (w_trace w') = sent (w_trace w) ++ ["OK_CONFIG" +:+ NL] ∧
           (∀ k, k ≠ log_key → w_fs w' !! k = w_fs w !! k)) ∧
  (∀ detail, json_loads raw = JsonError detail →
     ∃ w', dispatch fuel header w = Ok tt w' ∧
           w_config w' = w_config w ∧
           sent (w_trace w') = sent (w_trace w) ++ ["ERR_CONFIG_PARSE" +:+ NL] ∧
           (∀ k, k ≠ log_key → w_fs w' !! k = w_fs w !! k)).
Proof.
  intros Hstart Hsplit Hint Hrecv.
  rewrite (dispatch_config fuel header field size_s size w Hstart Hsplit Hint).
  pose proof (recv_n_loop_quiet fuel size EmptyString w) as Hquiet.
  pose proof (keeps_config_recv_n_loop fuel size EmptyString w) as Hcfg.
  unfold recv_n in Hrecv. rewrite Hrecv in Hquiet, Hcfg. simpl in Hquiet, Hcfg.
  injection Hquiet as Hsent Hfs.
  split.
  - intros c Hjson. unfold bind at 1, receive_config, bind at 1, recv_n.
    rewrite Hrecv, Hjson. unfold ret, bind, ser_write, emit, log.
    eexists. split; [done |]. split; [done |].
    split; [by eexists |]. split; [by eexists |]. split.
    + sent_norm. by rewrite Hsent.
    + intros k Hk. rewrite logged_fs_other by done. simpl. by rewrite Hfs.
  - intros detail Hjson. unfold bind at 1, receive_config, bind at 1, recv_n.
    rewrite Hrecv, Hjson. unfold ret, bind, ser_write, emit, log.
    eexists. split; [done |]. split; [by rewrite !logged_config |]. split.
    + sent_norm. by rewrite Hsent.
    + intros k Hk.
      repeat (rewrite logged_fs_other by done; cbn [w_fs add_event]).
      by rewrite Hfs.
Qed.

(** X15. A CONFIG command whose payload is valid JSON but not an object
    (a list, a number, a string) gets no answer: filling in the defaults
    raises outside the [try] of [receive_config], the handler of the
    loop logs the exception and sleeps one second. Nothing is sent,
    neither [OK_CONFIG] nor [ERR_CONFIG_PARSE], and the config stays as
    it was; the loop goes on. *)
Theorem config_not_object_unanswered fuel header field size_s size w w0 raw w1 :
  read_line w = Ok (Some header) w0 →
  Py.startswith header "CONFIG" = true →
  Py.split 1 header = [field; size_s] →
  Py.int size_s = Some size →
  recv_n fuel size w0 = Ok raw w1 →
  json_loads raw = JsonOther →
  ∃ w' line,
    main_iter fuel w = Ok tt w' ∧
    w_trace w' = w_trace w1 ++ [Print line; Sleep 1000] ∧
    sent (w_trace w') = sent (w_trace w) ∧
    w_config w' = w_config w.
Proof.
  intros Hread Hstart Hsplit Hint Hrecv Hjson.
  rewrite (main_iter_dispatch fuel w header w0 Hread)
    by (by eapply startswith_nonempty).
  unfold try_except.
  rewrite (dispatch_config fuel header field size_s size w0 Hstart Hsplit Hint).
  pose proof (recv_n_loop_quiet fuel size EmptyString w0) as Hquiet.
  pose proof (keeps_config_recv_n_loop fuel size EmptyString w0) as Hcfg.
  unfold recv_n in Hrecv. rewrite Hrecv in Hquiet, Hcfg. simpl in Hquiet, Hcfg.
  injection Hquiet as Hsent Hfs.
  apply read_line_frame in Hread as (buf & arr & ->).
  unfold bind at 1, receive_config, bind at 1, recv_n. rewrite Hrecv, Hjson.
  unfold raise, bind, log, sleep, emit.
  eexists _, _. split; [done |]. split; [| split].
  - simpl. by rewrite <- app_assoc.
  - sent_norm. by rewrite Hsent.
  - transitivity (w_config w1); [done | by rewrite Hcfg].
Qed.

End ConfigPayloadFacts.

(** An empty object is accepted. *)
Lemma config_payload_answered_witness :
  ∃ w', Receiver.dispatch (H := Demo.env) 2 "CONFIG 2" (Demo.idle ["{}"])
          = Receiver.Ok tt w' ∧
        Receiver.w_config w' = Some (setdefaults Demo.no_config) ∧
        Receiver.sent (Receiver.w_trace w') = ["OK_CONFIG" +:+ Receiver.NL].
Proof.
  destruct (config_payload_answered (H := Demo.env) 2 "CONFIG 2" "CONFIG" "2" 2
              (Demo.idle ["{}"]) "{}" (Receiver.set_rx "" [] (Demo.idle ["{}"])))
    as [Hobject _]; [reflexivity .. |].
  destruct (Hobject Demo.no_config eq_refl) as (w' & Hrun & Hcfg & _ & _ & Hsent & _).
  by exists w'.
Defined.

(** A payload that is the empty list. *)
Lemma config_not_object_unanswered_witness :
  ∃ w' line,
    Receiver.main_iter (H := Demo.env_faulty) 2
      (Demo.idle ["CONFIG 2" +:+ Receiver.NL; "[]"]) = Receiver.Ok tt w' ∧
    Receiver.sent (Receiver.w_trace w') = [] ∧
    Receiver.w_config w' = None ∧
    List.last (Receiver.w_trace w') (Receiver.Print line) = Receiver.Sleep 1000.
Proof.
  destruct (config_not_object_unanswered (H := Demo.env_faulty) 2
              "CONFIG 2" "CONFIG" "2" 2
              (Demo.idle ["CONFIG 2" +:+ Receiver.NL; "[]"])
              (Receiver.set_rx "" ["[]"] (Demo.idle ["CONFIG 2" +:+ Receiver.NL; "[]"]))
              "[]"
              (Receiver.set_rx "" [] (Demo.idle ["CONFIG 2" +:+ Receiver.NL; "[]"])))
    as (w' & line & Hrun & Htrace & Hsent & Hcfg); [reflexivity .. |].
  exists w', line. split; [exact Hrun |]. split; [exact Hsent |].
  split; [exact Hcfg |]. rewrite Htrace. reflexivity.
Defined.

(** ** The other commands *)

Section CommandFacts.
Context `{Externals}.

Import Receiver.

(** X16. A header that is none of the three commands (it does not begin
    with CONFIG or UPLOAD and is not RUN to the letter) is ignored: the
    agent logs it and does nothing else. Nothing is sent, the config and
    the bytes waiting on the port are as before, and only the log file
    is written. *)
Theorem unknown_command_ignored fuel header w :
  Py.startswith header "CONFIG" = false →
  Py.startswith header "UPLOAD" = false →
  header ≠ "RUN" →
  ∃ w',
    dispatch fuel header w = Ok tt w' ∧
    w_trace w' =
      w_trace w ++ [Print (log_line ("Ignoring unknown command: " +:+ header) w)] ∧
    sent (w_trace w') = sent (w_trace w) ∧
    inputs w' = inputs w ∧
    (∀ k, k ≠ log_key → w_fs w' !! k = w_fs w !! k).
Proof.
  intros Hc Hu Hr. apply String.eqb_neq in Hr.
  unfold dispatch. rewrite Hc, Hu, Hr. unfold log.
  eexists. split; [done |]. split; [apply logged_trace |].
  split; [by sent_norm |]. split; [done |].
  intros k Hk. by apply logged_fs_other.
Qed.

(** X17. With a config set, an UPLOAD header that has fewer than four
    fields, or whose size field is not an integer, is answered with
    [ERR_HEADER] and dropped: no payload is read (the bytes on the port
    stay where they are), the staging file is not opened, the config is
    kept, and only the log file is written. *)
Theorem upload_header_malformed fuel cfg header w :
  w_config w = Some cfg →
  Py.startswith header "UPLOAD" = true →
  (length (Py.split 3 header) < 4)%nat ∨
  (∃ field size_s expected name,
     Py.split 3 header = [field; size_s; expected; name] ∧ Py.int size_s = None) →
  ∃ w' line,
    dispatch fuel header w = Ok tt w' ∧
    w_trace w' = w_trace w ++ [Tx ("ERR_HEADER" +:+ NL); Print line] ∧
    inputs w' = inputs w ∧
    (∀ k, k ≠ log_key → w_fs w' !! k = w_fs w !! k).
Proof.
  intros Hcfg Hup Hbad.
  assert (∃ what,
            dispatch fuel header w =
              Ok tt (logged what (add_event (Tx ("ERR_HEADER" +:+ NL)) w)))
    as [what ->].
  { unfold dispatch. rewrite (upload_not_config _ Hup), Hup, Hcfg.
    unfold handle_upload.
    destruct Hbad as [Hshort | (field & size_s & expected & name & -> & ->)];
      [| by eexists].
    destruct (Py.split 3 header) as [|f1 [|f2 [|f3 [|f4 [|f5 more]]]]];
      try (by eexists); simpl in Hshort; lia. }
  eexists _, _. split; [done |]. split.
  - rewrite logged_trace. simpl. by rewrite <- app_assoc.
  - split; [done |]. intros k Hk. by rewrite logged_fs_other.
Qed.

(** X18. A RUN command with a config set whose entry point does not
    exist: the agent answers [ERR_RUN main not found:] with the path it
    looked for, and starts no process. *)
Theorem run_missing_main fuel cfg w k :
  w_config w = Some cfg →
  resolve (main_path cfg) = Some k →
  k ≠ log_key →
  Fs.lookup_node (w_fs w) k = None →
  ∃ w' line1 line2,
    dispatch fuel "RUN" w = Ok tt w' ∧
    w_trace w' =
      w_trace w ++
      [Print line1; Print line2;
       Tx ("ERR_RUN main not found: " +:+ main_path cfg +:+ NL)] ∧
    inputs w' = inputs w.
Proof.
  intros Hcfg Hres Hlog Hmissing.
  unfold dispatch.
  change (Py.startswith "RUN" "CONFIG") with false.
  change (Py.startswith "RUN" "UPLOAD") with false.
  change (String.eqb "RUN" "RUN") with true.
  cbn beta iota. rewrite Hcfg. unfold bind at 1, log at 1.
  set (w1 := logged "RUN command received; starting application." w).
  assert (path_exists (main_path cfg) w1 = Ok false w1) as Hpresent.
  { unfold path_exists. rewrite Hres. f_equal. apply bool_decide_eq_false_2.
    destruct k as [|c k]; [done |]. cbn [Fs.lookup_node] in *.
    unfold w1. rewrite logged_fs_other by done. rewrite Hmissing.
    by intros [? ?]. }
  unfold run_with_config, bind at 1. rewrite Hpresent. cbn [negb].
  unfold bind, log, ser_write, emit.
  eexists _, _, _. split; [done |]. split; [| done].
  unfold w1. simpl. by rewrite <- !app_assoc.
Qed.

(** What RUN comes to when the entry point is there. *)
Lemma dispatch_run_present fuel cfg w k :
  w_config w = Some cfg →
  resolve (main_path cfg) = Some k →
  is_Some (Fs.lookup_node (w_fs w) k) →
  ∃ w2,
    dispatch fuel "RUN" w = supervise (popen (run_cmd cfg)) w2 ∧
    sent (w_trace w2) = sent (w_trace w) ∧
    List.last (w_trace w2) (Sleep 0) = Popen (run_cmd cfg).
Proof.
  intros Hcfg Hres Hfile.
  set (w1 := logged "RUN command received; starting application." w).
  exists (add_event (Popen (run_cmd cfg))
            (logged ("Starting process: " +:+ Py.join " " (run_cmd cfg)) w1)).
  split; [| split].
  - unfold dispatch.
    change (Py.startswith "RUN" "CONFIG") with false.
    change (Py.startswith "RUN" "UPLOAD") with false.
    change (String.eqb "RUN" "RUN") with true.
    cbn beta iota. rewrite Hcfg. unfold bind at 1, log at 1. fold w1.
    assert (path_exists (main_path cfg) w1 = Ok true w1) as Hpresent.
    { unfold path_exists. rewrite Hres. f_equal.
      apply bool_decide_eq_true_2. by apply logged_fs_some. }
    unfold run_with_config, bind at 1. by rewrite Hpresent.
  - unfold w1. by sent_norm.
  - cbn [w_trace add_event]. by rewrite last_last.
Qed.

(** X19. A RUN command whose process starts but whose output cannot be
    read to the end: the agent has sent [RUNNING] and the lines it read,
    and then sends [ERR_STREAM] with the detail. No [EXIT] line follows,
    so the controller is never told an exit code for that run. *)
Theorem run_stream_error fuel cfg w k output detail :
  w_config w = Some cfg →
  resolve (main_path cfg) = Some k →
  is_Some (Fs.lookup_node (w_fs w) k) →
  popen (run_cmd cfg) = Spawned output (DrainError detail) →
  ∃ w', dispatch fuel "RUN" w = Ok tt w' ∧
        sent (w_trace w') =
          sent (w_trace w) ++
          ["RUNNING" +:+ NL] ++
          map (λ line, Py.rstrip_nl line +:+ NL) (Py.iter_lines output) ++
          ["ERR_STREAM " +:+ detail +:+ NL].
Proof.
  intros Hcfg Hres Hfile Hpopen.
  destruct (dispatch_run_present fuel cfg w k Hcfg Hres Hfile) as (w2 & -> & Hsent2 & _).
  rewrite Hpopen. unfold supervise, bind at 1, ser_write at 1, emit at 1.
  unfold bind at 1.
  destruct (stream_lines_sent (Py.iter_lines output)
              (add_event (Tx ("RUNNING" +:+ NL)) w2)
              (iter_lines_go_nonempty _ _)) as (w3 & -> & Hsent3).
  unfold bind, log, ser_write, emit. eexists. split; [done |].
  sent_norm. rewrite Hsent3. sent_norm. by rewrite Hsent2.
Qed.

End CommandFacts.

(** A header in lower case is not the RUN command. *)
Lemma unknown_command_ignored_witness :
  ∃ w', Receiver.dispatch (H := Demo.env) 0 "run" (Demo.configured [])
          = Receiver.Ok tt w' ∧
        Receiver.sent (Receiver.w_trace w') = [].
Proof.
  destruct (unknown_command_ignored (H := Demo.env) 0 "run" (Demo.configured []))
    as (w' & Hrun & _ & Hsent & _); [reflexivity | reflexivity | discriminate |].
  by exists w'.
Defined.

(** An UPLOAD header without a name, and one whose size is a word. *)
Lemma upload_header_malformed_witness :
  (∃ w' line,
     Receiver.dispatch (H := Demo.env) 0 "UPLOAD 4 abc" (Demo.configured ["abcd"])
       = Receiver.Ok tt w' ∧
     Receiver.w_trace w' =
       [Receiver.Tx ("ERR_HEADER" +:+ Receiver.NL); Receiver.Print line] ∧
     Receiver.stream w' = "abcd") ∧
  (∃ w' line,
     Receiver.dispatch (H := Demo.env) 0 "UPLOAD four abc x" (Demo.configured ["abcd"])
       = Receiver.Ok tt w' ∧
     Receiver.w_trace w' =
       [Receiver.Tx ("ERR_HEADER" +:+ Receiver.NL); Receiver.Print line]).
Proof.
  split.
  - destruct (upload_header_malformed (H := Demo.env) 0 Demo.deploy_config
                "UPLOAD 4 abc" (Demo.configured ["abcd"]))
      as (w' & line & Hrun & Htrace & Hin & _);
      [reflexivity | reflexivity | left; simpl; lia |].
    exists w', line. split; [exact Hrun |]. split; [exact Htrace |].
    unfold Receiver.stream. injection Hin as _ -> ->. reflexivity.
  - destruct (upload_header_malformed (H := Demo.env) 0 Demo.deploy_config
                "UPLOAD four abc x" (Demo.configured ["abcd"]))
      as (w' & line & Hrun & Htrace & _);
      [reflexivity | reflexivity | right; by eexists _, _, _, _ |].
    by exists w', line.
Defined.

(** A config whose entry point was never uploaded. *)
Lemma run_missing_main_witness :
  ∃ w', Receiver.dispatch (H := Demo.env) 0 "RUN"
          (Receiver.World (Some Demo.deploy_config) Demo.fs0 EmptyString [] [] 0)
          = Receiver.Ok tt w' ∧
        Receiver.sent (Receiver.w_trace w') =
          ["ERR_RUN main not found: /deploy/app.py" +:+ Receiver.NL].
Proof.
  destruct (run_missing_main (H := Demo.env) 0 Demo.deploy_config
              (Receiver.World (Some Demo.deploy_config) Demo.fs0 EmptyString [] [] 0)
              ["deploy"; "app.py"])
    as (w' & l1 & l2 & Hrun & Htrace & _);
    [reflexivity | reflexivity | discriminate | reflexivity |].
  exists w'. split; [exact Hrun |]. rewrite Htrace. reflexivity.
Defined.

(** A process whose pipe breaks after its first line. *)
Lemma run_stream_error_witness :
  ∃ w', Receiver.dispatch (H := Demo.env_faulty) 0 "RUN" (Demo.configured [])
          = Receiver.Ok tt w' ∧
        Receiver.sent (Receiver.w_trace w') =
          ["RUNNING" +:+ Receiver.NL; "hello" +:+ Receiver.NL;
           "ERR_STREAM broken pipe" +:+ Receiver.NL].
Proof.
  destruct (run_stream_error (H := Demo.env_faulty) 0 Demo.deploy_config
              (Demo.configured []) ["deploy"; "app.py"]
              ("hello" +:+ Receiver.NL) "broken pipe")
    as (w' & Hrun & Hsent); [reflexivity | reflexivity | by eexists | reflexivity |].
  by exists w'.
Defined.

(** ** More on extraction *)

Section UnpackFacts.
Context `{Externals}.

Import Receiver.

Lemma ended_bind {A B} (m : M A) (k : A → M B) :
  (∀ w, ended (m w)) → (∀ a w, ended (k a w)) → ∀ w, ended (bind m k w).
Proof.
  intros Hm Hk w. unfold bind. specialize (Hm w).
  destruct (m w) as [a w1 | e w1 | w1]; [apply Hk | done | done].
Qed.

Lemma ended_with_path {A} (p : string) (g : list string → M A) :
  (∀ k w, ended (g k w)) → ∀ w, ended (with_path p g w).
Proof. intros Hg w. unfold with_path. destruct (resolve p); [apply Hg | done]. Qed.

Lemma ended_fs_do (op : Fs.t → exn + Fs.t) w : ended (fs_do op w).
Proof. unfold fs_do. by destruct (op (w_fs w)). Qed.

Lemma ended_extractall target_dir ms w : ended (extractall target_dir ms w).
Proof. by destruct (extractall_step target_dir ms ms w) as (ks & Hend & _). Qed.

(** Every path through [extract_archive_to] ends in a result. *)
Lemma extract_archive_to_total archive_path target_dir w :
  ∃ w', extract_archive_to archive_path target_dir w = Ok (true, None) w' ∨
        ∃ msg, extract_archive_to archive_path target_dir w = Ok (false, Some msg) w'.
Proof.
  unfold extract_archive_to, try_except.
  match goal with
  | |- ∃ w', match ?body w with _ => _ end = _ ∨ _ =>
      assert (ended (body w) ∧
              ∀ r w', body w = Ok r w' →
                      r = (true, None) ∨ ∃ msg, r = (false, Some msg))
        as [Hend Hres];
      [| destruct (body w) as [r w1 | e w1 | w1]; [| | done] ]
  end.
  - split.
    + apply ended_bind; [done |]. intros present w0.
      destruct (_ && _); [done |].
      apply ended_bind.
      { destruct present; [| done]. apply ended_with_path. intros k w1.
        unfold bind, emit. by destruct (Fs.rmtree _ _) as [[e fs'] | fs']. }
      intros _ w1. apply ended_bind.
      { apply ended_with_path. intros k w2. unfold bind, emit. apply ended_fs_do. }
      intros _ w2. apply ended_bind.
      { apply ended_with_path. intros k w3.
        destruct (Fs.lookup_node _ _) as [[data|]|]; try done.
        by destruct (tar_members data). }
      intros ms w3. apply ended_bind; [apply ended_extractall | done].
    + intros r w'. unfold bind at 1, path_exists.
      destruct (_ && _).
      { unfold bind, log, ret. intros [= <- _]. right. by eexists. }
      intros Hrun. left.
      repeat match type of Hrun with
             | bind ?m _ ?w0 = Ok _ _ =>
                 unfold bind at 1 in Hrun;
                 destruct (m w0) as [? ? | ? ? | ?]; [| done | done]
             end.
      unfold ret in Hrun. by injection Hrun as <- _.
  - exists w1. destruct (Hres r w1 eq_refl) as [-> | [msg ->]];
      [by left | right; by eexists].
  - exists w1. right. by eexists.
Qed.

(** X20. [extract_archive_to] always returns, and never raises: whatever
    the paths, the archive and the filesystem, the result is either
    success without a message or failure with one (the text of the
    exception, or [DANGEROUS_PATH]). So a failed extraction cannot take
    the command loop down; it only gets logged. *)
Theorem extract_archive_to_returns archive_path target_dir w :
  ∃ w', extract_archive_to archive_path target_dir w = Ok (true, None) w' ∨
        ∃ msg, extract_archive_to archive_path target_dir w = Ok (false, Some msg) w'.
Proof. apply extract_archive_to_total. Qed.

(** Creating directories leaves what is there as it is. *)
Lemma makedirs_from_keeps (rest base : list string) (fs fs' : Fs.t)
    (p : list string) (nd : node) :
  Fs.makedirs_from base rest fs = inr fs' →
  fs !! p = Some nd → fs' !! p = Some nd.
Proof.
  revert base fs. induction rest as [|c rest IH]; intros base fs; simpl.
  - by intros [= ->].
  - destruct (fs !! (base ++ [c])) as [[d'|]|] eqn:Hk; [done | apply IH |].
    intros Hrec Hp. apply (IH _ _ Hrec).
    rewrite lookup_insert_ne; [done |]. intros <-. congruence.
Qed.

(** Unpacking a member puts its contents at its place and leaves the
    other files as they are. *)
Lemma extract_member_places target_dir (m : string * string) w w' :
  extract_member target_dir m w = Ok tt w' →
  ∃ km,
    resolve (Path.join target_dir m.1) = Some km ∧
    w_fs w' !! km = Some (File m.2) ∧
    (∀ p d, p ≠ km → w_fs w !! p = Some (File d) → w_fs w' !! p = Some (File d)).
Proof.
  unfold extract_member, with_path.
  destruct (resolve (Path.join target_dir m.1)) as [km|]; [| done].
  unfold bind at 1, emit at 1. unfold bind at 1, fs_do at 1. cbn [w_fs add_event].
  destruct (Fs.makedirs (Fs.parent km) (w_fs w)) as [e | fs1] eqn:Hmk; [done |].
  unfold bind at 1, fs_do at 1. cbn [w_fs set_fs].
  unfold Fs.open_w.
  destruct (Fs.writable fs1 km) as [e|] eqn:Hw; [done |].
  unfold fs_do. cbn [w_fs set_fs]. unfold Fs.append.
  rewrite (writable_insert_file _ _ _ Hw), lookup_insert_eq.
  intros [= <-]. exists km. split; [done |]. cbn [w_fs set_fs]. split.
  - by rewrite lookup_insert_eq.
  - intros p d Hp Hold. rewrite !lookup_insert_ne by done.
    by eapply (makedirs_from_keeps (Fs.parent km) []).
Qed.

Lemma extractall_keeps target_dir ms w w' (p : list string) (d : string) :
  extractall target_dir ms w = Ok tt w' →
  w_fs w !! p = Some (File d) →
  (∀ m, m ∈ ms → resolve (Path.join target_dir m.1) = Some p → m.2 = d) →
  w_fs w' !! p = Some (File d).
Proof.
  revert w. induction ms as [|m ms IH]; intros w; cbn [extractall].
  - by intros [= <-].
  - unfold bind at 1.
    destruct (extract_member target_dir m w) as [[] w1 | e w1 | w1] eqn:Hm;
      [| done | done].
    intros Hrest Hold Hsame.
    destruct (extract_member_places _ _ _ _ Hm) as (km & Hres & Hnew & Hkept).
    apply (IH w1 Hrest).
    + destruct (decide (p = km)) as [-> | Hne].
      * rewrite Hnew. f_equal. f_equal. apply Hsame; [left | done].
      * by apply Hkept.
    + intros m' Hin. apply Hsame. by right.
Qed.

Lemma extractall_places target_dir ms w w' :
  extractall target_dir ms w = Ok tt w' →
  (∀ m1 m2, m1 ∈ ms → m2 ∈ ms →
     resolve (Path.join target_dir m1.1) = resolve (Path.join target_dir m2.1) →
     m1.2 = m2.2) →
  ∀ m, m ∈ ms →
    ∃ km, resolve (Path.join target_dir m.1) = Some km ∧
          w_fs w' !! km = Some (File m.2).
Proof.
  revert w. induction ms as [|m0 ms IH]; intros w; cbn [extractall].
  - intros _ _ m Hin. inversion Hin.
  - unfold bind at 1.
    destruct (extract_member target_dir m0 w) as [[] w1 | e w1 | w1] eqn:Hm;
      [| done | done].
    intros Hrest Hsame m Hin.
    apply elem_of_cons in Hin as [-> | Hin].
    + destruct (extract_member_places _ _ _ _ Hm) as (km & Hres & Hnew & _).
      exists km. split; [done |].
      apply (extractall_keeps _ _ _ _ _ _ Hrest Hnew).
      intros m' Hin' Hres'. apply Hsame; [by right | left | congruence].
    + apply (IH w1 Hrest); [| done].
      intros m1 m2 H1 H2. apply Hsame; by right.
Qed.

(** X21. When [extract_archive_to] reports success, the archive it
    opened was the file staged at the archive path, and every member of
    that archive is a file in the deploy directory, at the path its name
    gives and with its contents, provided no two members with different
    contents are unpacked to the same place. *)
Theorem extraction_places_members archive_path target_dir w err w' :
  extract_archive_to archive_path target_dir w = Ok (true, err) w' →
  ∃ ka data ms,
    resolve archive_path = Some ka ∧
    w_fs w !! ka = Some (File data) ∧
    tar_members data = Some ms ∧
    ((∀ m1 m2, m1 ∈ ms → m2 ∈ ms →
        resolve (Path.join target_dir m1.1) = resolve (Path.join target_dir m2.1) →
        m1.2 = m2.2) →
     ∀ m, m ∈ ms →
       ∃ km, resolve (Path.join target_dir m.1) = Some km ∧
             w_fs w' !! km = Some (File m.2)).
Proof.
  unfold extract_archive_to, try_except.
  match goal with
  | |- match ?body w with _ => _ end = _ → _ =>
      destruct (body w) as [r w1 | e w1 | w1] eqn:Hbody; [| done | done]
  end.
  intros [= -> ->].
  unfold bind at 1, path_exists in Hbody.
  destruct (_ && _); [done |].
  unfold bind at 1 in Hbody.
  match type of Hbody with
  | match ?step w with _ => _ end = _ =>
      destruct (step w) as [[] w2 | e w2 | w2] eqn:Hclear; [| done | done]
  end.
  assert (∀ p d, w_fs w2 !! p = Some (File d) → w_fs w !! p = Some (File d)) as Hfrom.
  { destruct (match resolve target_dir with
              | Some k => bool_decide (is_Some (Fs.lookup_node (w_fs w) k))
              | None => false
              end); [| by injection Hclear as <-].
    unfold rmtree, with_path in Hclear.
    destruct (resolve target_dir) as [k|]; [| done].
    unfold bind, emit in Hclear. cbn [w_fs add_event] in Hclear.
    destruct (Fs.rmtree k (w_fs w)) as [[e fs0] | fs1] eqn:Hrm; [done |].
    injection Hclear as <-. intros p d Hp. cbn [w_fs set_fs] in Hp.
    by apply (proj2 (rmtree_spec _ _ _ Hrm)). }
  unfold bind at 1, makedirs, with_path in Hbody.
  destruct (resolve target_dir) as [k|]; [| done].
  unfold bind at 1, emit at 1 in Hbody. unfold fs_do at 1 in Hbody.
  cbn [w_fs add_event] in Hbody.
  destruct (Fs.makedirs k (w_fs w2)) as [e | fs3] eqn:Hmk; [done |].
  unfold bind at 1, tar_open, with_path in Hbody.
  destruct (resolve archive_path) as [ka|]; [| done].
  cbn [w_fs set_fs] in Hbody.
  destruct (Fs.lookup_node fs3 ka) as [[data|]|] eqn:Hdata; [| done | done].
  destruct (tar_members data) as [ms|] eqn:Hms; [| done].
  unfold bind at 1 in Hbody.
  match type of Hbody with
  | match extractall _ _ ?w3 with _ => _ end = _ =>
      destruct (extractall target_dir ms w3) as [[] w4 | e w4 | w4] eqn:Hall;
      [| done | done]
  end.
  injection Hbody as _ <-.
  exists ka, data, ms. split; [done |]. split; [| split; [done |]].
  - destruct ka as [|c ka]; [done |]. cbn [Fs.lookup_node] in Hdata.
    apply Hfrom. by eapply (makedirs_from_file k []).
  - intros Hsame. by eapply extractall_places.
Qed.

End UnpackFacts.

(** The archive staged by the example, unpacked into [/deploy]. *)
Lemma extraction_places_members_witness :
  ∃ w',
    Receiver.extract_archive_to (H := Demo.env)
      (Receiver.ARCHIVE_PATH (H := Demo.env)) "/deploy" Demo.staged
    = Receiver.Ok (true, None) w' ∧
    Receiver.w_fs w' !! ["deploy"; "app.py"] = Some (File "abcd").
Proof.
  set (w' := Receiver.result_world
               (Receiver.extract_archive_to (H := Demo.env)
                  (Receiver.ARCHIVE_PATH (H := Demo.env)) "/deploy" Demo.staged)).
  assert (Receiver.extract_archive_to (H := Demo.env)
            (Receiver.ARCHIVE_PATH (H := Demo.env)) "/deploy" Demo.staged
          = Receiver.Ok (true, None) w') as Hrun by (vm_compute; reflexivity).
  exists w'. split; [exact Hrun |].
  destruct (extraction_places_members (H := Demo.env) _ _ _ _ _ Hrun)
    as (ka & data & ms & Hka & Hdata & Hms & Hplaces).
  vm_compute in Hka. injection Hka as <-.
  vm_compute in Hdata. injection Hdata as <-.
  injection Hms as <-.
  destruct (Hplaces) with (m := ("app.py", "abcd")) as (km & Hkm & Hfile).
  - intros m1 m2 ->%list_elem_of_singleton ->%list_elem_of_singleton _. reflexivity.
  - by apply list_elem_of_singleton.
  - vm_compute in Hkm. injection Hkm as <-. exact Hfile.
Defined.

Section OwnDirFacts.
Context `{Externals}.

Import Receiver.

Lemma resolve_DEFAULT_APP_DIR : resolve DEFAULT_APP_DIR = Some app_key.
Proof.
  destruct default_app_dir_shape as [Hne _]. unfold resolve, app_key.
  by destruct DEFAULT_APP_DIR.
Qed.

(** Once the agent's directory has been removed, recreating it brings
    back none of the files it held. *)
Lemma below_app_gone (fs1 fs2 : Fs.t) (name : string) :
  (∀ p, app_key `prefix_of` p → fs1 !! p = None) →
  Fs.grows app_key fs1 fs2 →
  fs2 !! (app_key ++ [name]) = None.
Proof.
  intros Hgone Hgrows. apply eq_None_not_Some. intros Hsome.
  destruct (Hgrows _ Hsome) as [Hold | Hpre].
  - rewrite Hgone in Hold; [by destruct Hold | by apply prefix_app_r].
  - apply prefix_length in Hpre. rewrite length_app in Hpre. simpl in Hpre. lia.
Qed.

(** X22. A config without a [directory] key deploys into the agent's
    own directory, which also holds the staging archive and the log.
    There the clean replace defeats itself: the agent's directory exists,
    so it is removed with all it holds before the archive is opened, and
    the extraction fails. Unless the safety check refuses the path, the
    staged archive and the log file are gone when [extract_archive_to]
    returns. *)
Theorem extraction_into_agent_dir_fails (cfg : config) w :
  cfg_directory cfg = None →
  w_fs w !! app_key = Some Dir →
  ∃ msg w',
    extract_archive_to ARCHIVE_PATH (default DEFAULT_APP_DIR (cfg_directory cfg)) w
      = Ok (false, Some msg) w' ∧
    (dangerous DEFAULT_APP_DIR = false →
     w_fs w' !! archive_key = None ∧ w_fs w' !! log_key = None).
Proof.
  intros -> Hdir. cbn [default].
  assert (path_exists DEFAULT_APP_DIR w = Ok true w) as Hpresent.
  { unfold path_exists. rewrite resolve_DEFAULT_APP_DIR. f_equal.
    apply bool_decide_eq_true_2. destruct app_key; [done |]. simpl.
    by rewrite Hdir. }
  unfold extract_archive_to, try_except, bind at 1. rewrite Hpresent. cbn [andb].
  destruct (dangerous DEFAULT_APP_DIR).
  { unfold bind, log, ret. by eexists _, _. }
  unfold bind at 1, rmtree, with_path. rewrite resolve_DEFAULT_APP_DIR.
  unfold bind at 1, emit at 1. cbn [w_fs add_event].
  destruct (Fs.rmtree app_key (w_fs w)) as [[e fs0] | fs1] eqn:Hrm.
  { unfold ret. eexists _, _. split; [done |]. intros _. cbn [w_fs set_fs].
    unfold Fs.rmtree in Hrm. destruct app_key as [|c k] eqn:Hk.
    - simpl in Hrm. injection Hrm as _ <-. by rewrite !lookup_empty.
    - cbn [Fs.lookup_node] in Hrm. by rewrite Hdir in Hrm. }
  destruct (rmtree_spec _ _ _ Hrm) as [Hgone _].
  unfold bind at 1, makedirs, with_path. rewrite resolve_DEFAULT_APP_DIR.
  unfold bind at 1, emit at 1. unfold fs_do at 1. cbn [w_fs add_event set_fs].
  destruct (Fs.makedirs app_key fs1) as [e | fs2] eqn:Hmk.
  { unfold ret. eexists _, _. split; [done |]. intros _. cbn [w_fs set_fs add_event].
    split; apply Hgone; by apply prefix_app_r. }
  assert (Fs.grows app_key fs1 fs2) as Hgrows
    by (by apply (makedirs_from_grows app_key [])).
  pose proof (below_app_gone fs1 fs2 "__upload__.tar.gz" Hgone Hgrows) as Harchive.
  pose proof (below_app_gone fs1 fs2 "upload.log" Hgone Hgrows) as Hlog.
  fold archive_key in Harchive. fold log_key in Hlog.
  unfold bind at 1, tar_open, with_path. rewrite resolve_ARCHIVE_PATH.
  cbn [w_fs set_fs add_event].
  pose proof archive_key_nonempty as Hk.
  destruct archive_key as [|c k] eqn:Hkey; [done |].
  cbn [Fs.lookup_node]. rewrite Harchive.
  unfold ret. eexists _, _. split; [done |]. intros _. by cbn [w_fs set_fs add_event].
Qed.

End OwnDirFacts.

(** The staged archive of the example, deployed without a directory. *)
Lemma extraction_into_agent_dir_fails_witness :
  ∃ msg w',
    Receiver.extract_archive_to (H := Demo.env) (Receiver.ARCHIVE_PATH (H := Demo.env))
      (Receiver.DEFAULT_APP_DIR (H := Demo.env)) Demo.staged
    = Receiver.Ok (false, Some msg) w' ∧
    Receiver.w_fs w' !! ["home"; "pi"; "app"; "__upload__.tar.gz"] = None.
Proof.
  destruct (extraction_into_agent_dir_fails (H := Demo.env) Demo.no_config Demo.staged)
    as (msg & w' & Hrun & Hgone); [reflexivity | reflexivity |].
  exists msg, w'. split; [exact Hrun |].
  exact (proj1 (Hgone eq_refl)).
Defined.

(** ** From the controller's bytes to the agent's verdict *)

Section QuietFacts.
Context `{Externals}.

Import Receiver.

(** Steps that put nothing on the wire. *)
Lemma keeps_sent_emit (e : event) :
  (∀ b, e ≠ Tx b) → keeps (λ w, sent (w_trace w)) (emit e).
Proof.
  intros He w. simpl. rewrite sent_app. destruct e; simpl;
    rewrite ?app_nil_r; try done. by destruct (He bytes).
Qed.

Lemma keeps_sent_log (msg : string) : keeps (λ w, sent (w_trace w)) (log msg).
Proof. intros w. simpl. by rewrite sent_app, app_nil_r. Qed.

Lemma keeps_sent_fs_do (op : Fs.t → exn + Fs.t) :
  keeps (λ w, sent (w_trace w)) (fs_do op).
Proof. intros w. unfold fs_do. by destruct (op (w_fs w)). Qed.

Lemma keeps_sent_makedirs (p : string) : keeps (λ w, sent (w_trace w)) (makedirs p).
Proof.
  unfold makedirs. apply keeps_with_path. intros k.
  apply keeps_bind; [by apply keeps_sent_emit | intros _; apply keeps_sent_fs_do].
Qed.

Lemma keeps_sent_extractall target_dir ms :
  keeps (λ w, sent (w_trace w)) (extractall target_dir ms).
Proof.
  induction ms as [|m ms IH]; cbn [extractall]; [done |].
  apply keeps_bind; [| by intros _].
  unfold extract_member. apply keeps_with_path. intros k.
  apply keeps_bind; [by apply keeps_sent_emit |]. intros _.
  apply keeps_bind; [apply keeps_sent_fs_do |]. intros _.
  apply keeps_bind; [apply keeps_sent_fs_do |]. intros _.
  apply keeps_sent_fs_do.
Qed.

Lemma keeps_sent_extract_archive_to archive_path target_dir :
  keeps (λ w, sent (w_trace w)) (extract_archive_to archive_path target_dir).
Proof.
  unfold extract_archive_to. apply keeps_try; [| done].
  apply keeps_bind; [done |]. intros present.
  destruct (_ && _).
  { apply keeps_bind; [apply keeps_sent_log | done]. }
  apply keeps_bind.
  { destruct present; [| done]. unfold rmtree. apply keeps_with_path. intros k.
    apply keeps_bind; [by apply keeps_sent_emit |]. intros _ w.
    by destruct (Fs.rmtree _ (w_fs w)) as [[e fs'] | fs']. }
  intros _. apply keeps_bind; [apply keeps_sent_makedirs |]. intros _.
  apply keeps_bind.
  { unfold tar_open. apply keeps_with_path. intros k w.
    destruct (Fs.lookup_node _ _) as [[data|]|]; try done.
    by destruct (tar_members data). }
  intros ms. apply keeps_bind; [apply keeps_sent_extractall | done].
Qed.

(** The accepted header: directories, a log line, [OK]. *)
Lemma begin_upload_ok deploy_dir name expected size w w1 :
  begin_upload deploy_dir name expected size w = Ok tt w1 →
  sent (w_trace w1) = sent (w_trace w) ++ ["OK" +:+ NL] ∧ inputs w1 = inputs w.
Proof.
  unfold begin_upload, bind at 1.
  match goal with
  | |- match makedirs ?p w with _ => _ end = _ → _ =>
      pose proof (keeps_sent_makedirs p w) as Hsent;
      pose proof (keeps_makedirs p w) as Hin;
      destruct (makedirs p w) as [[] w0 | e w0 | w0]; [| done | done]
  end.
  simpl in Hsent, Hin. unfold bind, log, ser_write, emit. intros [= <-].
  split; [| done]. sent_norm. by rewrite Hsent.
Qed.

(** The progress reports of a read that returns. *)
Lemma read_exact_progress fuel n w r w2 :
  read_exact fuel n ARCHIVE_PATH (Some progress_cb) w = Ok r w2 →
  ∃ counts,
    sent (w_trace w2) = sent (w_trace w) ++ map progress_line counts ∧
    spaced 0 counts ∧ Forall (λ g, g ≤ n) counts.
Proof.
  unfold read_exact, with_path. rewrite resolve_ARCHIVE_PATH.
  unfold bind at 1, emit at 1. unfold bind at 1, fs_do. cbn [w_fs add_event].
  destruct (Fs.open_w archive_key (w_fs w)) as [e | fs']; [done |].
  intros Hrun.
  destruct (read_exact_loop_progress fuel n archive_key 0 0 EmptyString
              (set_fs fs' (add_event (FsOpenW archive_key) w)))
    as (counts & Hsent & Hsp & Hle).
  rewrite Hrun in Hsent. cbn [result_world] in Hsent.
  exists counts. rewrite Hsent. split; [by sent_norm | done].
Qed.

(** What follows a payload whose digest is the one announced. *)
Lemma finish_upload_match deploy_dir digest got w :
  ∃ w',
    finish_upload deploy_dir digest (got, digest) w = Ok tt w' ∧
    sent (w_trace w') = sent (w_trace w) ++ ["DONE" +:+ NL] ∧
    inputs w' = inputs w.
Proof.
  unfold finish_upload, bind at 1, log at 1.
  rewrite String.eqb_refl. cbn [negb].
  unfold bind at 1, ser_write at 1, emit at 1. unfold bind at 1.
  set (w1 := add_event (Tx ("DONE" +:+ NL)) (logged _ w)).
  assert (sent (w_trace w1) = sent (w_trace w) ++ ["DONE" +:+ NL]) as Hsent1
    by (unfold w1; by sent_norm).
  assert (inputs w1 = inputs w) as Hin1 by done.
  clearbody w1.
  pose proof (keeps_sent_extract_archive_to ARCHIVE_PATH deploy_dir w1) as Hsent2.
  pose proof (keeps_extract_archive_to ARCHIVE_PATH deploy_dir w1) as Hin2.
  destruct (extract_archive_to_total ARCHIVE_PATH deploy_dir w1)
    as [w2 [Hrun | [msg Hrun]]]; rewrite Hrun in Hsent2, Hin2 |- *;
    cbn [result_world] in Hsent2, Hin2; unfold report_extraction, log;
    (eexists; split; [done |]); (split; [| by rewrite <- Hin1, <- Hin2]);
    sent_norm; by rewrite Hsent2, Hsent1.
Qed.

(** X23. The upload end to end, on the agent's side. With a config set,
    when the agent reads the UPLOAD header that the controller formats
    for an archive (its length, its digest, a name) and the link then
    carries the bytes of that archive, however cut into arrivals, the
    agent answers [OK], then progress reports, then [DONE]: the digest
    it computes is the digest announced. It reads exactly the archive,
    so what follows on the link is still there for the next command,
    and it keeps its config. *)
Theorem upload_round_trip fuel cfg name archive rest w w1 :
  w_config w = Some cfg →
  Py.no_space (sha256_hexdigest archive) = true →
  sha256_hexdigest archive ≠ EmptyString →
  Py.no_space name = true → name ≠ EmptyString →
  begin_upload (default DEFAULT_APP_DIR (cfg_directory cfg)) name
    (sha256_hexdigest archive) (len archive) w = Ok tt w1 →
  Fs.writable (w_fs w1) archive_key = None →
  stream w = archive +:+ rest →
  (length (w_arrivals w) + String.length archive ≤ fuel)%nat →
  ∃ w' counts,
    dispatch fuel
      (Py.strip (Uploader.upload_header (String.length archive)
                   (sha256_hexdigest archive) name)) w = Ok tt w' ∧
    sent (w_trace w') =
      sent (w_trace w) ++ ["OK" +:+ NL] ++ map progress_line counts ++
      ["DONE" +:+ NL] ∧
    stream w' = rest ∧
    w_config w' = Some cfg.
Proof.
  intros Hcfg Hsha Hsha_ne Hname Hname_ne Hbegin Hw Hstream Hfuel.
  destruct (upload_header_fields (String.length archive) _ _
              Hsha Hsha_ne Hname Hname_ne) as (Hup & Hsplit & Hint).
  destruct (begin_upload_ok _ _ _ _ _ _ Hbegin) as [Hsent1 Hin1].
  assert (stream w1 = archive +:+ rest) as Hstream1.
  { rewrite <- Hstream. unfold stream. unfold inputs in Hin1. congruence. }
  assert (length (w_arrivals w1) = length (w_arrivals w)) as Harr1.
  { unfold inputs in Hin1. congruence. }
  destruct (read_exact_delivers fuel archive rest w1 Hstream1)
    as (w2 & Hread & Hrest & _ & _ & Hcfg2); [lia | done |].
  destruct (read_exact_progress _ _ _ _ _ Hread) as (counts & Hsent2 & _).
  destruct (finish_upload_match (default DEFAULT_APP_DIR (cfg_directory cfg))
              (sha256_hexdigest archive) (len archive) w2)
    as (w3 & Hfinish & Hsent3 & Hin3).
  exists w3, counts. split; [| split; [| split]].
  - unfold dispatch. rewrite (upload_not_config _ Hup), Hup, Hcfg.
    unfold handle_upload. rewrite Hsplit, Hint. cbn zeta.
    unfold bind at 1. fold (len archive). rewrite Hbegin.
    unfold bind at 1. by rewrite Hread.
  - rewrite Hsent3, Hsent2, Hsent1. by rewrite <- !app_assoc.
  - rewrite <- Hrest. unfold stream. unfold inputs in Hin3. congruence.
  - unfold inputs in Hin1, Hin3. congruence.
Qed.

(** X24. The handshake end to end, on the agent's side. When the agent
    reads the CONFIG header that the controller formats for a config and
    the link then carries the JSON text of that config, however cut into
    arrivals, and the codec reads back what it wrote, the agent stores
    that config with the include and exclude defaults filled in and
    answers [OK_CONFIG], nothing else. It reads exactly the text, so
    what follows on the link is still there for the next command. *)
Theorem config_round_trip fuel cfg rest w :
  json_loads (json_dumps cfg) = JsonObject cfg →
  stream w = json_dumps cfg +:+ rest →
  (length (w_arrivals w) + String.length (json_dumps cfg) ≤ fuel)%nat →
  ∃ w',
    dispatch fuel (Py.strip (Uploader.config_header (json_dumps cfg))) w = Ok tt w' ∧
    w_config w' = Some (setdefaults cfg) ∧
    sent (w_trace w') = sent (w_trace w) ++ ["OK_CONFIG" +:+ NL] ∧
    stream w' = rest.
Proof.
  intros Hcodec Hstream Hfuel.
  destruct (config_header_fields (json_dumps cfg)) as (Hstart & Hsplit & Hint).
  rewrite (dispatch_config fuel _ _ _ _ w Hstart Hsplit Hint).
  destruct (recv_n_loop_receives fuel (len (json_dumps cfg)) EmptyString
              (json_dumps cfg) rest w Hstream)
    as (w1 & Hrecv & Hrest & _ & _ & Hsent); [done | done |].
  rewrite str_app_nil_l in Hrecv.
  unfold bind at 1, receive_config, bind at 1, recv_n.
  fold (len (json_dumps cfg)). rewrite Hrecv, Hcodec.
  unfold ret, bind, ser_write, emit, log.
  eexists. split; [done |]. split; [done |]. split.
  - sent_norm. by rewrite Hsent.
  - by rewrite <- Hrest.
Qed.

End QuietFacts.

(** A four-byte archive that arrives in two pieces behind its header. *)
Lemma upload_round_trip_witness :
  ∃ w' counts,
    Receiver.dispatch (H := Demo.env) 6
      (Py.strip (Uploader.upload_header 4 "4" "__upload__.tar.gz"))
      (Demo.configured ["ab"; "cd"]) = Receiver.Ok tt w' ∧
    Receiver.sent (Receiver.w_trace w') =
      ["OK" +:+ Receiver.NL] ++ map Receiver.progress_line counts ++
      ["DONE" +:+ Receiver.NL] ∧
    Receiver.stream w' = EmptyString.
Proof.
  set (w1 := Receiver.result_world
               (Receiver.begin_upload (H := Demo.env) "/deploy" "__upload__.tar.gz"
                  "4" 4 (Demo.configured ["ab"; "cd"]))).
  assert (Receiver.begin_upload (H := Demo.env) "/deploy" "__upload__.tar.gz" "4" 4
            (Demo.configured ["ab"; "cd"]) = Receiver.Ok tt w1) as Hbegin
    by (vm_compute; reflexivity).
  destruct (upload_round_trip (H := Demo.env) 6 Demo.deploy_config
              "__upload__.tar.gz" "abcd" EmptyString (Demo.configured ["ab"; "cd"]) w1)
    as (w' & counts & Hrun & Hsent & Hrest & _);
    [reflexivity | reflexivity | discriminate | reflexivity | discriminate
    | exact Hbegin | vm_compute; reflexivity | reflexivity | simpl; lia |].
  exists w', counts. split; [exact Hrun |]. split; [exact Hsent | exact Hrest].
Defined.

(** The config of the example environment, followed by a RUN header. *)
Lemma config_round_trip_witness :
  ∃ w',
    Receiver.dispatch (H := Demo.env) 4
      (Py.strip (Uploader.config_header "{}"))
      (Demo.idle ["{"; "}RUN" +:+ Receiver.NL]) = Receiver.Ok tt w' ∧
    Receiver.w_config w' = Some (setdefaults Demo.no_config) ∧
    Receiver.stream w' = "RUN" +:+ Receiver.NL.
Proof.
  destruct (config_round_trip (H := Demo.env) 4 Demo.no_config ("RUN" +:+ Receiver.NL)
              (Demo.idle ["{"; "}RUN" +:+ Receiver.NL]))
    as (w' & Hrun & Hcfg & _ & Hrest); [reflexivity | reflexivity | simpl; lia |].
  exists w'. split; [exact Hrun |]. split; [exact Hcfg | exact Hrest].
Defined.

(** ** Start-up and logging *)

Section StartFacts.
Context `{Externals}.

Import Receiver.

(** X25. A log call prints its line and appends it, with a newline, to
    the log file, creating the file when the agent's directory is there.
    When the file cannot be written (the directory is missing, or the
    name is taken by a directory) the call still succeeds and leaves the
    filesystem as it is. In no case does it touch another entry, the
    config or the bytes on the port. *)
Theorem log_is_contained msg w :
  w_trace (logged msg w) = w_trace w ++ [Print (log_line msg w)] ∧
  inputs (logged msg w) = inputs w ∧
  (∀ k, k ≠ log_key → w_fs (logged msg w) !! k = w_fs w !! k) ∧
  (∀ e, Fs.writable (w_fs w) log_key = Some e → w_fs (logged msg w) = w_fs w) ∧
  (Fs.writable (w_fs w) log_key = None →
   w_fs (logged msg w) !! log_key =
     Some (File (match w_fs w !! log_key with
                 | Some (File old) => old
                 | _ => EmptyString
                 end +:+ log_line msg w +:+ NL))).
Proof.
  split; [done |]. split; [done |]. split; [intros k; apply logged_fs_other |].
  unfold logged. rewrite resolve_LOG_PATH. cbn [w_fs set_fs tick_log add_event].
  unfold Fs.append. split.
  - intros e ->. done.
  - intros ->. destruct (w_fs w !! log_key) as [[old|]|];
      by rewrite lookup_insert_eq.
Qed.

Lemma makedirs_from_dir (rest base : list string) (fs fs' : Fs.t) :
  Fs.makedirs_from base rest fs = inr fs' → rest ≠ [] →
  fs' !! (base ++ rest) = Some Dir.
Proof.
  revert base fs. induction rest as [|c rest IH]; intros base fs; [done |].
  cbn [Fs.makedirs_from]. intros Hrun _.
  replace (base ++ c :: rest) with ((base ++ [c]) ++ rest)
    by (by rewrite <- app_assoc).
  destruct (fs !! (base ++ [c])) as [[d|]|] eqn:Hk; [done | |].
  - destruct rest as [|c' rest]; [| by apply (IH _ _ Hrun)].
    simpl in Hrun. injection Hrun as <-. by rewrite app_nil_r.
  - destruct rest as [|c' rest]; [| by apply (IH _ _ Hrun)].
    simpl in Hrun. injection Hrun as <-. by rewrite app_nil_r, lookup_insert_eq.
Qed.

Lemma app_key_not_log_key : app_key ≠ log_key.
Proof.
  unfold log_key. intros E. apply (f_equal length) in E.
  rewrite length_app in E. simpl in E. lia.
Qed.

(** X26. Start-up. [main] first creates the agent's directory; if that
    fails (a file is in the way) it raises there, with nothing logged.
    Next it logs that it starts, forgets any config, and opens the
    serial port; if the port cannot be opened it raises there, before
    the line [Ready.] is logged. Both exceptions are raised outside the
    loop and its handler, so they end the agent. Only when both steps
    succeed does it enter the loop: with no config set, the agent's
    directory in place, nothing sent and nothing read. *)
Theorem main_startup port fuel w :
  match main port fuel 0 w with
  | Ok _ w' =>
      port = None ∧
      (∃ fs1, Fs.makedirs app_key (w_fs w) = inr fs1) ∧
      w_config w' = None ∧
      Fs.lookup_node (w_fs w') app_key = Some Dir ∧
      w_trace w' =
        w_trace w ++
        [FsMakedirs app_key;
         Print (log_line "Starting receiver on /dev/ttyGS0 @ 115200" w);
         Print (log_line "Ready." (tick_log w))] ∧
      sent (w_trace w') = sent (w_trace w) ∧
      stream w' = stream w
  | Raise e w' =>
      (Fs.makedirs app_key (w_fs w) = inl e ∧
       w_fs w' = w_fs w ∧
       w_trace w' = w_trace w ++ [FsMakedirs app_key] ∧
       sent (w_trace w') = sent (w_trace w)) ∨
      (port = Some e ∧
       (∃ fs1, Fs.makedirs app_key (w_fs w) = inr fs1) ∧
       w_config w' = None ∧
       Fs.lookup_node (w_fs w') app_key = Some Dir ∧
       w_trace w' =
         w_trace w ++
         [FsMakedirs app_key;
          Print (log_line "Starting receiver on /dev/ttyGS0 @ 115200" w)] ∧
       sent (w_trace w') = sent (w_trace w))
  | Running _ => False
  end.
Proof.
  unfold main, bind at 1, makedirs, with_path. rewrite resolve_DEFAULT_APP_DIR.
  unfold bind at 1, emit at 1, fs_do. cbn [w_fs add_event].
  destruct (Fs.makedirs app_key (w_fs w)) as [e | fs1] eqn:Hmk.
  { left. split; [done |]. split; [done |]. split; [done |]. by sent_norm. }
  assert (Fs.lookup_node fs1 app_key = Some Dir) as Hdir.
  { destruct app_key as [|c k] eqn:Hk; [done |]. cbn [Fs.lookup_node].
    by apply (makedirs_from_dir (c :: k) [] (w_fs w) fs1 Hmk). }
  pose proof app_key_not_log_key as Hne.
  unfold bind at 1, log at 1. unfold bind at 1. unfold bind at 1.
  set (w1 := set_config None (logged _ _)).
  assert (w_config w1 = None ∧
          Fs.lookup_node (w_fs w1) app_key = Some Dir ∧
          w_trace w1 =
            w_trace w ++
            [FsMakedirs app_key;
             Print (log_line "Starting receiver on /dev/ttyGS0 @ 115200" w)] ∧
          w_logs w1 = S (w_logs w) ∧
          stream w1 = stream w) as (Hcfg1 & Hdir1 & Htr1 & Hlogs1 & Hst1).
  { unfold w1. split; [done |]. split; [| split; [| done]].
    - destruct app_key as [|c k]; [done |]. cbn [Fs.lookup_node] in *.
      cbn [w_fs set_config]. by rewrite logged_fs_other.
    - cbn [w_trace set_config]. rewrite logged_trace. cbn [w_trace set_fs add_event].
      by rewrite <- app_assoc. }
  clearbody w1.
  destruct port as [e|]; cbn [serial_open].
  { unfold raise. right. split; [done |]. split; [by eexists |].
    split; [done |]. split; [done |]. split; [done |].
    rewrite Htr1. by sent_norm. }
  unfold ret at 1. unfold bind, log, ret. cbn [main_loop]. unfold ret.
  split; [done |]. split; [by eexists |]. split; [by rewrite logged_config |].
  split; [| split; [| split]].
  - destruct app_key as [|c k]; [done |]. cbn [Fs.lookup_node] in *.
    by rewrite logged_fs_other.
  - rewrite logged_trace, Htr1. unfold log_line. rewrite Hlogs1.
    by rewrite <- app_assoc.
  - rewrite logged_trace, Htr1. by sent_norm.
  - by rewrite <- Hst1.
Qed.

End StartFacts.

(** A serial device that is not there. *)
Lemma main_startup_witness :
  ∃ w',
    Receiver.main (H := Demo.env)
      (Some (Exn "SerialException" "could not open port /dev/ttyGS0")) 0 0
      (Demo.idle [])
    = Receiver.Raise (Exn "SerialException" "could not open port /dev/ttyGS0") w' ∧
    Receiver.w_trace w' =
      [Receiver.FsMakedirs ["home"; "pi"; "app"];
       Receiver.Print
         (Receiver.log_line (H := Demo.env)
            "Starting receiver on /dev/ttyGS0 @ 115200" (Demo.idle []))].
Proof.
  pose proof (main_startup (H := Demo.env)
                (Some (Exn "SerialException" "could not open port /dev/ttyGS0")) 0
                (Demo.idle [])) as Hstart.
  destruct (Receiver.main (H := Demo.env)
              (Some (Exn "SerialException" "could not open port /dev/ttyGS0")) 0 0
              (Demo.idle [])) as [[] w' | e w' | w'].
  - destruct Hstart as [Hport _]. discriminate Hport.
  - destruct Hstart as [(Hmk & _) | (Hport & _ & _ & _ & Htrace & _)].
    + vm_compute in Hmk. discriminate Hmk.
    + injection Hport as <-. exists w'. split; [reflexivity | exact Htrace].
  - destruct Hstart.
Defined.

(** ** The time a run of failures takes *)

Section SleepFacts.
Variable answer : nat → option (bool * string).

Lemma total_sleep_rounds (n a : nat) :
  Uploader.total_sleep (flat_map Uploader.failed_round (seq (S a) n)) =
  Uploader.RETRY_BASE_DELAY * 2 ^ Z.of_nat a * (2 ^ Z.of_nat n - 1).
Proof.
  revert a. induction n as [|n IH]; intros a.
  - simpl. lia.
  - cbn [seq flat_map Uploader.failed_round app Uploader.total_sleep foldr].
    fold (Uploader.total_sleep (flat_map Uploader.failed_round (seq (S (S a)) n))).
    rewrite IH. unfold Uploader.RETRY_BASE_DELAY.
    replace (Z.of_nat (S a) - 1) with (Z.of_nat a) by lia.
    replace (Z.of_nat (S a)) with (Z.of_nat a + 1) by lia.
    replace (Z.of_nat (S n)) with (Z.of_nat n + 1) by lia.
    rewrite !Z.pow_add_r by lia. lia.
Qed.

(** X27. When every attempt fails, the loop gives up after
    [max_retries] attempts and has then slept
    [RETRY_BASE_DELAY * (2 ^ max_retries - 1)] seconds in all, 31 with
    the default of five attempts; the last of the pauses comes after the
    last attempt, before the loop reports failure. *)
Theorem retry_total_sleep (max_retries : nat) :
  (∀ j, (1 ≤ j ≤ max_retries)%nat → ∃ reason, answer j = Some (false, reason)) →
  (Uploader.send_with_retries_loop answer max_retries).1 = Some false ∧
  Uploader.total_sleep
    (Uploader.schedule (Uploader.send_with_retries_loop answer max_retries).2) =
    Uploader.RETRY_BASE_DELAY * (2 ^ Z.of_nat max_retries - 1) ∧
  (max_retries ≠ 0%nat →
   List.last (Uploader.schedule (Uploader.send_with_retries_loop answer max_retries).2)
             (Uploader.Called 0) =
     Uploader.Slept (Uploader.RETRY_BASE_DELAY * 2 ^ (Z.of_nat max_retries - 1))).
Proof.
  intros Hfail. unfold Uploader.send_with_retries_loop.
  pose proof (retry_loop_all_fail answer max_retries max_retries 0) as Hs.
  destruct (Uploader.retry_loop answer max_retries max_retries 0) as [r evs].
  destruct Hs as [-> Hs]; [intros j Hj; apply Hfail; lia |].
  cbn [fst snd]. rewrite Hs. split; [done |]. split.
  - rewrite total_sleep_rounds. simpl (Z.of_nat 0). lia.
  - intros Hpos. destruct max_retries as [|n]; [done |].
    rewrite seq_S, flat_map_app. cbn [flat_map Uploader.failed_round app].
    match goal with
    | |- List.last (?X ++ [?a; ?b]) _ = _ =>
        change (X ++ [a; b]) with (X ++ [a] ++ [b])
    end.
    rewrite app_assoc, last_last.
    by replace (Z.of_nat (1 + n) - 1) with (Z.of_nat (S n) - 1) by lia.
Qed.

End SleepFacts.

(** Five timeouts in a row. *)
Lemma retry_total_sleep_witness :
  Uploader.total_sleep
    (Uploader.schedule
       (Uploader.send_with_retries_loop (λ _, Some (false, "TIMEOUT_OK_CONFIG"))
          Uploader.MAX_RETRIES).2) = 31.
Proof.
  destruct (retry_total_sleep (λ _, Some (false, "TIMEOUT_OK_CONFIG"))
              Uploader.MAX_RETRIES) as (_ & Htotal & _).
  - intros j _. by eexists.
  - exact Htotal.
Defined.

(** ** The reasons an attempt gives *)

Section ReasonFacts.
Context `{Externals}.





End ReasonFacts.

